(** * cf-daily-bot: a shallow embedding of the bot's handlers

    The bot (its main module, with the two mongoose schemas and the command
    table it registers) is modelled as pure functions over an explicit
    document store and an explicit description of what the outside world
    (the judge's HTTP API, the chat platform) answers.

    - Strings are [string]; numbers are the integers the bot handles, in
      [Z].
    - A collection is the list of its documents.  The bot deletes nothing,
      so a document's [_id] is its position in the collection; a reference
      that resolves to no document is a position outside the collection.
    - A handler takes the store and gives back the store it leaves,
      together with the messages it sent.  Writes to the store and
      replies to the interaction are taken to succeed.
    - A call that can throw returns a [completion]; what the judge and the
      chat platform answer is read from a [World].
    - The leaderboard refresh that [check] starts without awaiting it is
      run after the handler, on the store the handler leaves. *)

From Stdlib Require Import ZArith Ascii String DecimalString DecimalPos
  Permutation Sorted Lia.
From Stdlib Require DecimalZ.
From stdpp Require Import base option list sorting.

Open Scope string_scope.
Open Scope Z_scope.

(** ** JavaScript strings and numbers *)

Module Js.

(** The line feed written [\n] in the source's string literals. *)
Definition nl : string := String (ascii_of_nat 10) EmptyString.

(** [Number.prototype.toString] and template-literal interpolation, for
    the integral values the bot handles (points, contest ids, counters):
    whole numbers of absolute value below 2^53, which the source's doubles
    hold exactly and print in full decimal.  Beyond that the source rounds
    and, from 1e21, prints an exponent; the model does not. *)
Definition toString (z : Z) : string :=
  NilZero.string_of_int (Z.to_int z).

(** [String.prototype.startsWith]. *)
Definition startsWith (p s : string) : bool := String.prefix p s.

(** [String.prototype.split] with a one-character separator: the result
    always has at least one element. *)
Fixpoint split (sep : ascii) (s : string) : list string :=
  match s with
  | EmptyString => [EmptyString]
  | String c s' =>
      if Ascii.eqb c sep then EmptyString :: split sep s'
      else match split sep s' with
           | h :: t => String c h :: t
           | [] => [String c EmptyString]
           end
  end.

(** [Array.prototype.join]. *)
Fixpoint join (sep : string) (l : list string) : string :=
  match l with
  | [] => EmptyString
  | [x] => x
  | x :: t => x ++ sep ++ join sep t
  end.

(** Truthiness of a possibly missing string: [undefined], [null] and the
    empty string are falsy. *)
Definition truthy (o : option string) : bool :=
  match o with
  | Some s => negb (String.eqb s EmptyString)
  | None => false
  end.

Definition is_digit (c : ascii) : bool :=
  let n := nat_of_ascii c in (Nat.leb 48 n && Nat.leb n 57)%bool.

Definition is_upper (c : ascii) : bool :=
  let n := nat_of_ascii c in (Nat.leb 65 n && Nat.leb n 90)%bool.

(** White space skipped by [parseInt]: the ASCII part of it.  The source
    also skips U+00A0 and the other Unicode blanks, which the strings the
    bot builds and stores never hold. *)
Definition is_space (c : ascii) : bool :=
  let n := nat_of_ascii c in
  (Nat.eqb n 32 || (Nat.leb 9 n && Nat.leb n 13))%bool.

Fixpoint skip_spaces (s : string) : string :=
  match s with
  | String c s' => if is_space c then skip_spaces s' else s
  | EmptyString => EmptyString
  end.

Definition digit_val (c : ascii) : Z := Z.of_nat (nat_of_ascii c) - 48.

(** The longest prefix of decimal digits, read as a number; [acc] is
    [None] until a first digit has been seen. *)
Fixpoint read_digits (acc : option Z) (s : string) : option Z :=
  match s with
  | String c s' =>
      if is_digit c
      then read_digits (Some (10 * default 0 acc + digit_val c)) s'
      else acc
  | EmptyString => acc
  end.

(** [parseInt(s, 10)]; [None] is [NaN].  The value is exact: it is the
    source's for numbers below 2^53, which it does not round. *)
Definition parseInt (s : string) : option Z :=
  match skip_spaces s with
  | String "-" s' => Z.opp <$> read_digits None s'
  | String "+" s' => read_digits None s'
  | s' => read_digits None s'
  end.

End Js.

(** ** Regular expressions

    The fragment of JavaScript regular expressions the bot uses, with the
    backtracking, leftmost, greedy semantics of [String.prototype.match]
    for a pattern without the [g] flag. *)

Module Regex.

Inductive regex : Type :=
| Lit (s : string)
| Alt (r1 r2 : regex)
| Seq (r1 r2 : regex)
| Plus (cls : ascii -> bool)
| Group (n : nat) (r : regex).

Definition captures := list (nat * string).

Fixpoint strip_prefix (p s : string) : option string :=
  match p, s with
  | EmptyString, _ => Some s
  | String a p', String b s' => if Ascii.eqb a b then strip_prefix p' s' else None
  | String _ _, EmptyString => None
  end.

Section Matcher.
Context {R : Type}.

(** Greedy repetition of a character class: take one more character if
    possible, and give it back when the continuation fails. *)
Fixpoint star (cls : ascii -> bool) (s : string) (k : string -> option R)
  : option R :=
  match s with
  | String c s' =>
      if cls c
      then match star cls s' k with
           | Some r => Some r
           | None => k s
           end
      else k s
  | EmptyString => k s
  end.

Definition consumed (s rest : string) : string :=
  substring 0 (String.length s - String.length rest) s.

Fixpoint run (r : regex) (s : string) (caps : captures)
    (k : string -> captures -> option R) : option R :=
  match r with
  | Lit p =>
      match strip_prefix p s with
      | Some rest => k rest caps
      | None => None
      end
  | Alt r1 r2 =>
      match run r1 s caps k with
      | Some x => Some x
      | None => run r2 s caps k
      end
  | Seq r1 r2 => run r1 s caps (fun rest caps' => run r2 rest caps' k)
  | Plus cls =>
      match s with
      | String c s' => if cls c then star cls s' (fun rest => k rest caps) else None
      | EmptyString => None
      end
  | Group n r' =>
      run r' s caps (fun rest caps' => k rest ((n, consumed s rest) :: caps'))
  end.
End Matcher.

(** [s.match(r)]: the captures of the leftmost match, if any. *)
Fixpoint exec (r : regex) (s : string) : option captures :=
  match run r s [] (fun _ caps => Some caps) with
  | Some caps => Some caps
  | None =>
      match s with
      | String _ s' => exec r s'
      | EmptyString => None
      end
  end.

(** [match[n]]. *)
Fixpoint group (n : nat) (caps : captures) : option string :=
  match caps with
  | [] => None
  | (m, s) :: rest => if Nat.eqb n m then Some s else group n rest
  end.

End Regex.

(** ** formatUptime *)

(** [seconds] is a whole number of seconds below 2^53, where the
    source's division, floor and remainder on doubles are exact:
    [Math.floor (a / b)] is [Z.div] and [%] is [Z.rem].  A fractional or
    larger argument is outside the model. *)
Definition formatUptime (seconds : Z) : string :=
  let days := seconds / 86400 in
  let seconds := Z.rem seconds 86400 in
  let hours := seconds / 3600 in
  let seconds := Z.rem seconds 3600 in
  let minutes := seconds / 60 in
  let seconds := Z.rem seconds 60 in
  Js.toString days ++ "d, " ++ Js.toString hours ++ "h, "
    ++ Js.toString minutes ++ "m, " ++ Js.toString seconds ++ "s".

(** The pattern of the [setdailyproblem] handler:
    [/\/(?:contest|problemset)\/problem\/(\d+)\/([A-Z0-9]+)/]. *)
Definition problem_url_regex : Regex.regex :=
  Regex.Seq (Regex.Lit "/")
   (Regex.Seq (Regex.Alt (Regex.Lit "contest") (Regex.Lit "problemset"))
    (Regex.Seq (Regex.Lit "/problem/")
     (Regex.Seq (Regex.Group 1 (Regex.Plus Js.is_digit))
      (Regex.Seq (Regex.Lit "/")
       (Regex.Group 2 (Regex.Plus (fun c => Js.is_upper c || Js.is_digit c))))))).


(** ** Data model (models/userSchema.ts, models/serverSchema.ts) *)

(** A document's [_id]: its position in its collection. *)
Definition ObjectId := nat.

Module User.
Record t : Type := mk {
  id : string;          (* the platform user id *)
  cfUsername : string;
  guildId : string
}.
End User.

Module Server.
Record member : Type := mkMember {
  user : ObjectId;                 (* ref: "User" *)
  points : Z;
  lastSubmitted : option string    (* default: null *)
}.
Arguments mkMember _%_nat _%_Z _.

Record t : Type := mk {
  daily : option string;
  members : list member;
  guildId : string;
  channelId : option string;
  announcementChannelId : option string;
  messageId : option string
}.

Definition set_daily (d : option string) (s : t) : t :=
  mk d (members s) (guildId s) (channelId s) (announcementChannelId s) (messageId s).
Definition set_members (ms : list member) (s : t) : t :=
  mk (daily s) ms (guildId s) (channelId s) (announcementChannelId s) (messageId s).
Definition set_messageId (m : option string) (s : t) : t :=
  mk (daily s) (members s) (guildId s) (channelId s) (announcementChannelId s) m.
End Server.

Record DB : Type := mkDB {
  users : list User.t;
  servers : list Server.t
}.

(** [Model.findOne(filter)]: the first matching document, with its [_id]. *)
Definition findOne {A : Type} (filter : A -> bool) (coll : list A)
  : option (ObjectId * A) :=
  list_find (fun d => Is_true (filter d)) coll.

(** [doc.save()] of a document read from the collection: written back in
    its place. *)
Definition save_server (oid : ObjectId) (s : Server.t) (db : DB) : DB :=
  mkDB (users db) (<[oid := s]> (servers db)).

(** [Model.create(doc)] and [new Model(doc).save()]. *)
Definition create_server (s : Server.t) (db : DB) : DB :=
  mkDB (users db) (servers db ++ [s]).
Definition create_user (u : User.t) (db : DB) : DB :=
  mkDB (users db ++ [u]) (servers db).

(** [.populate("members.user")]: the referenced user document, or [null]
    when the reference does not resolve. *)
Definition populate (db : DB) (m : Server.member) : option User.t :=
  users db !! Server.user m.

(** ** The outside world *)

Record Embed : Type := mkEmbed {
  title : option string;
  description : string
}.

(** [createEmbed]; colour and footer are constants and are left out. *)
Definition createEmbed (t : option string) (d : string) : Embed := mkEmbed t d.

(** The judge's JSON objects, with the fields the bot reads. *)
Module Judge.
Record Problem : Type := mkProblem {
  contestId : option Z;     (* the judge documents it as possibly absent *)
  index : string
}.

Record Submission : Type := mkSubmission {
  problem : Problem;
  verdict : option string   (* possibly absent as well *)
}.
End Judge.
Abbreviation Problem := Judge.Problem.
Abbreviation Submission := Judge.Submission.

(** What [axios.get] on a judge endpoint gives: the promise rejects, or the
    body has a [status] other than ["OK"], or it has a [result]. *)
Inductive response (A : Type) : Type :=
| HttpError
| ApiFailed
| ApiOk (result : A).
Arguments HttpError {A}.
Arguments ApiFailed {A}.
Arguments ApiOk {A} result.

Record World : Type := mkWorld {
  (* GET user.status?handle=h *)
  user_status : string -> response (list Submission);
  (* GET user.status?handle=h&from=1&count=1 *)
  user_status_last : string -> response (list Submission);
  (* GET problemset.problems *)
  problemset_problems : response (list Problem);
  (* fetchTextChannel(id) finds a guild text channel *)
  text_channel : string -> bool;
  (* channel.send: the id of the new message, or the call throws *)
  channel_send : string -> Embed -> option string;
  (* channel.messages.fetch(id) finds the message *)
  message_fetch : string -> string -> bool;
  (* message.edit succeeds *)
  message_edit : string -> string -> Embed -> bool
}.

(** What a handler does towards the chat platform. *)
Inductive Action : Type :=
| Reply (e : Embed) (ephemeral : bool)
| Send (channel : string) (e : Embed)
| Edit (channel message : string) (e : Embed).

(** A call that returns or throws. *)
Inductive completion (A : Type) : Type :=
| Returned (a : A)
| Thrown.
Arguments Returned {A} a.
Arguments Thrown {A}.

(** ** Judge API client *)

(** [lastcfSubmission]: [None] is [null]. *)
Definition lastcfSubmission (w : World) (handle : string) : option Submission :=
  match user_status_last w handle with
  | ApiOk (sub :: _) => Some sub
  | ApiOk [] => None
  | ApiFailed => None
  | HttpError => None
  end.

Definition opt_eqb {A : Type} (eqb : A -> A -> bool) (a b : option A) : bool :=
  match a, b with
  | Some x, Some y => eqb x y
  | None, None => true
  | _, _ => false
  end.

(** The callback of [submissions.some] in [hasSolvedProblem]. *)
Definition is_accepted_for (cid : Z) (idx : string) (sub : Submission) : bool :=
  opt_eqb Z.eqb (Judge.contestId (Judge.problem sub)) (Some cid)
  && String.eqb (Judge.index (Judge.problem sub)) idx
  && opt_eqb String.eqb (Judge.verdict sub) (Some "OK").

(** [hasSolvedProblem]: throws on a malformed problem id, before any
    request; [Returned None] is [null]. *)
Definition hasSolvedProblem (w : World) (handle problemId : string)
  : completion (option bool) :=
  let parts := Js.split "/" problemId in
  let contestIdStr := default EmptyString (parts !! 0%nat) in
  let index := parts !! 1%nat in
  match Js.parseInt contestIdStr, index with
  | Some contestId, Some index =>
      if String.eqb index EmptyString then Thrown
      else match user_status w handle with
           | ApiOk submissions =>
               Returned (Some (existsb (is_accepted_for contestId index) submissions))
           | ApiFailed => Returned None
           | HttpError => Returned None
           end
  | _, _ => Thrown
  end.

(** The callback of [problems.some] in [validateProblemUrl];
    [problem.contestId.toString()] throws when the id is absent. *)
Fixpoint some_problem (contestId index : string) (problems : list Problem)
  : completion bool :=
  match problems with
  | [] => Returned false
  | p :: rest =>
      match Judge.contestId p with
      | None => Thrown
      | Some c =>
          if String.eqb (Js.toString c) contestId && String.eqb (Judge.index p) index
          then Returned true
          else some_problem contestId index rest
      end
  end.

Definition validateProblemUrl (w : World) (contestId index : string) : bool :=
  match problemset_problems w with
  | ApiOk problems =>
      match some_problem contestId index problems with
      | Returned b => b
      | Thrown => false
      end
  | ApiFailed => false
  | HttpError => false
  end.

(** ** Leaderboard rendering *)

(** [Array.prototype.sort(cmp)]: a stable sort; [a] stays before [b] unless
    [cmp a b > 0]. *)
Module JsArray.
Section Sort.
Context {A : Type} (cmp : A -> A -> Z).

Fixpoint insert (x : A) (l : list A) : list A :=
  match l with
  | [] => [x]
  | y :: l' => if cmp x y <=? 0 then x :: l else y :: insert x l'
  end.

Definition sort (l : list A) : list A := foldr insert [] l.
End Sort.
End JsArray.

(** [x || 0] on a number. *)
Definition or0 (x : Z) : Z := if x =? 0 then 0 else x.

(** The comparator [(a, b) => (b.points || 0) - (a.points || 0)]. *)
Definition by_points_desc (a b : Server.member) : Z :=
  or0 (Server.points b) - or0 (Server.points a).

Definition sort_members (ms : list Server.member) : list Server.member :=
  JsArray.sort by_points_desc ms.

(** The variables of the rendering loop. *)
Record board : Type := mkBoard {
  leaderboardText : string;
  currentRank : Z;
  lastPoints : Z
}.

Definition board0 : board :=
  mkBoard ("**Leaderboard for Daily Problem**" ++ Js.nl ++ Js.nl) 0 (-1).

(** One line of the leaderboard:
    [`${currentRank}. <@${member.user.id}> - ${member.points || 0} point(s)\n`]. *)
Definition board_line (rank : Z) (u : User.t) (member : Server.member) : string :=
  Js.toString rank ++ ". <@" ++ User.id u ++ "> - "
    ++ Js.toString (or0 (Server.points member)) ++ " point(s)" ++ Js.nl.

(** The loop of [updateLeaderboard], from index [i] on. *)
Module UpdateLeaderboard.
Fixpoint loop (db : DB) (i : nat) (members : list Server.member) (b : board)
  : board :=
  match members with
  | [] => b
  | member :: rest =>
      loop db (S i) rest
        match populate db member with
        | Some u =>
            let b1 :=
              if negb (Server.points member =? lastPoints b)
              then mkBoard (leaderboardText b) (Z.of_nat i + 1) (Server.points member)
              else b in
            mkBoard (leaderboardText b1 ++ board_line (currentRank b1) u member)
                    (currentRank b1) (lastPoints b1)
        | None => b
        end
  end.

Definition text (db : DB) (members : list Server.member) : string :=
  leaderboardText (loop db 0 members board0).
End UpdateLeaderboard.

(** The loop of the [leaderboard] command handler. *)
Module LeaderboardCommand.
Fixpoint loop (db : DB) (i : nat) (members : list Server.member) (b : board)
  : board :=
  match members with
  | [] => b
  | member :: rest =>
      loop db (S i) rest
        match populate db member with
        | Some u =>
            let b1 :=
              if negb (Server.points member =? lastPoints b)
              then mkBoard (leaderboardText b) (Z.of_nat i + 1) (Server.points member)
              else b in
            mkBoard (leaderboardText b1 ++ board_line (currentRank b1) u member)
                    (currentRank b1) (lastPoints b1)
        | None => b
        end
  end.

Definition text (db : DB) (members : list Server.member) : string :=
  leaderboardText (loop db 0 members board0).
End LeaderboardCommand.

(** ** Publishers *)

Definition by_guild (g : string) (s : Server.t) : bool :=
  String.eqb (Server.guildId s) g.

(** [announce(guildId)]: whether the announcement went out, and what was
    sent.  It never writes to the store. *)
Definition announce (w : World) (db : DB) (guildId : string)
  : bool * list Action :=
  match findOne (by_guild guildId) (servers db) with
  | None => (false, [])
  | Some (_, server) =>
      match Server.daily server with
      | None => (false, [])
      | Some daily =>
          if String.eqb daily EmptyString then (false, [])
          else if Js.truthy (Server.announcementChannelId server) then
            let chan := default EmptyString (Server.announcementChannelId server) in
            if text_channel w chan then
              let embed :=
                createEmbed (Some "Daily Problem Announcement")
                  ("New Daily Problem: https://codeforces.com/problemset/problem/"
                     ++ daily) in
              match channel_send w chan embed with
              | Some _ => (true, [Send chan embed])
              | None => (false, [])
              end
            else (false, [])
          else (false, [])
      end
  end.

(** [updateLeaderboard(guildId)]: whether it succeeded, the store
    afterwards and what was published.  The document it saves is the one
    it read, with the member array sorted and [messageId] set. *)
Definition updateLeaderboard (w : World) (db : DB) (guildId : string)
  : bool * DB * list Action :=
  match findOne (by_guild guildId) (servers db) with
  | None => (false, db, [])
  | Some (oid, server) =>
      match Server.members server with
      | [] => (false, db, [])
      | _ :: _ =>
          let server := Server.set_members (sort_members (Server.members server)) server in
          if Js.truthy (Server.channelId server) then
            let chan := default EmptyString (Server.channelId server) in
            if text_channel w chan then
              let embed :=
                createEmbed (Some "Daily Problem Leaderboard")
                  (UpdateLeaderboard.text db (Server.members server)) in
              let send_new :=
                match channel_send w chan embed with
                | Some mid =>
                    (true,
                     save_server oid (Server.set_messageId (Some mid) server) db,
                     [Send chan embed])
                | None => (false, db, [])
                end in
              if Js.truthy (Server.messageId server) then
                let mid := default EmptyString (Server.messageId server) in
                if message_fetch w chan mid then
                  if message_edit w chan mid embed
                  then (true, db, [Edit chan mid embed])
                  else (false, db, [])
                else send_new
              else send_new
            else (false, db, [])
          else (false, db, [])
      end
  end.

(** ** Interaction handlers

    Every handler gets the store and the ids of the interaction, and gives
    back what it sent and the store it leaves.  Replies through [safeReply]
    are ephemeral unless said otherwise. *)

Definition reply (d : string) : Action := Reply (createEmbed None d) true.

(** The reply of the dispatcher's outermost [catch], sent when a handler
    threw before it replied. *)
Definition unexpected_error : Action :=
  Reply (createEmbed (Some "Error")
           "An unexpected error occurred. Please try again later.") true.

(** *** The login-confirmation button *)

(** The custom id the [login] command puts on its button:
    [`done|${cfUsername}|${problemId}`]. *)
Definition done_customId (cfUsername problemId : string) : string :=
  "done|" ++ cfUsername ++ "|" ++ problemId.

(** The three-way test of the button handler;
    [lastSubmission.problem.contestId.toString()] throws when the id is
    absent. *)
Definition submission_confirms (sub : Submission)
    (contestId : string) (problemIndex : option string) : completion bool :=
  match Judge.contestId (Judge.problem sub) with
  | None => Thrown
  | Some c =>
      Returned
        (String.eqb (Js.toString c) contestId
         && opt_eqb String.eqb (Some (Judge.index (Judge.problem sub))) problemIndex
         && opt_eqb String.eqb (Judge.verdict sub) (Some "COMPILATION_ERROR"))
  end.

Definition button (w : World) (db : DB) (customId userId guildId : string)
  : list Action * DB :=
  if Js.startsWith "done|" customId then
    let parts := Js.split "|" customId in
    let cfUsername := parts !! 1%nat in
    match parts !! 2%nat with
    | None => ([unexpected_error], db)        (* problemId.split on undefined *)
    | Some problemId =>
        let ids := Js.split "/" problemId in
        let contestId := default EmptyString (ids !! 0%nat) in
        let problemIndex := ids !! 1%nat in
        if negb (Js.truthy cfUsername) then
          ([reply "Invalid Codeforces username."], db)
        else
          let cfUsername := default EmptyString cfUsername in
          match lastcfSubmission w cfUsername with
          | None =>
              ([reply "Could not retrieve your last submission. Please try again later."],
               db)
          | Some lastSubmission =>
              match submission_confirms lastSubmission contestId problemIndex with
              | Thrown => ([unexpected_error], db)
              | Returned true =>
                  ([reply "You have now signed in!"],
                   create_user (User.mk userId cfUsername guildId) db)
              | Returned false =>
                  ([reply "Your last submission does not match the problem or it wasn't a compilation error. Please try again."],
                   db)
              end
          end
    end
  else ([], db).

(** *** check *)

Definition by_user_id (uid : string) (u : User.t) : bool :=
  String.eqb (User.id u) uid.

(** The filter [{ daily: { $exists: true }, guildId }]. *)
Definition by_guild_with_daily (g : string) (s : Server.t) : bool :=
  match Server.daily s with
  | Some _ => String.eqb (Server.guildId s) g
  | None => false
  end.

(** The callback of [server.members.find]:
    [m => m.user && m.user.id === user.id]. *)
Definition is_member_of (db : DB) (u : User.t) (m : Server.member) : bool :=
  match populate db m with
  | Some mu => String.eqb (User.id mu) (User.id u)
  | None => false
  end.

(** The handler up to its reply: the embed, the store after it, and
    whether it started [updateLeaderboard]. *)
Definition check_handler (w : World) (db : DB) (userId guildId : string)
  : Embed * DB * bool :=
  match findOne (by_user_id userId) (users db) with
  | None =>
      (createEmbed None "You are not logged in. Please use /login to log in.", db, false)
  | Some (user_oid, user) =>
      match findOne (by_guild_with_daily guildId) (servers db) with
      | None => (createEmbed None "No server found with a daily problem.", db, false)
      | Some (oid, server) =>
          if negb (Js.truthy (Server.daily server)) then
            (createEmbed None "No server found with a daily problem.", db, false)
          else
            let dailyProblemId := default EmptyString (Server.daily server) in
            match hasSolvedProblem w (User.cfUsername user) dailyProblemId with
            | Thrown =>
                (createEmbed None "An error occurred while checking your solution.",
                 db, false)
            | Returned None =>
                (createEmbed None
                   "There was an error checking your submissions. Please try again later.",
                 db, false)
            | Returned (Some solved) =>
                let outcome :=
                  createEmbed None
                    (if solved
                     then "Congratulations! You have solved the daily problem and earned 1 point."
                     else "You have not solved the daily problem yet. Keep trying!") in
                match findOne (is_member_of db user) (Server.members server) with
                | Some (j, member) =>
                    if opt_eqb String.eqb (Server.lastSubmitted member) (Some dailyProblemId)
                    then
                      (createEmbed None
                         "You have already submitted your solution for this problem today.",
                       db, true)
                    else
                      let member' :=
                        Server.mkMember (Server.user member)
                          (Server.points member + 1) (Some dailyProblemId) in
                      (outcome,
                       save_server oid
                         (Server.set_members (<[j := member']> (Server.members server)) server)
                         db,
                       true)
                | None =>
                    let member' :=
                      Server.mkMember user_oid
                        (if solved then 1 else 0)
                        (if solved then Some dailyProblemId else None) in
                    (outcome,
                     save_server oid
                       (Server.set_members (Server.members server ++ [member']) server)
                       db,
                     true)
                end
            end
      end
  end.

(** The whole flow: the reply, and the leaderboard refresh the handler
    leaves running. *)
Definition check (w : World) (db : DB) (userId guildId : string)
  : list Action * DB :=
  let '(embed, db1, refresh) := check_handler w db userId guildId in
  if refresh then
    let '(_, db2, published) := updateLeaderboard w db1 guildId in
    (Reply embed true :: published, db2)
  else ([Reply embed true], db1).

(** *** setdailyproblem *)

Definition setdailyproblem (w : World) (db : DB)
    (manageGuild : bool) (problem_url : option string) (guildId : string)
  : list Action * DB :=
  if negb manageGuild then
    ([reply "You do not have permission to set the daily problem."], db)
  else if negb (Js.truthy problem_url) then
    ([reply "Please provide a valid Codeforces problem URL."], db)
  else
    let problemUrl := default EmptyString problem_url in
    match Regex.exec problem_url_regex problemUrl with
    | None =>
        ([reply "Invalid problem URL format. Please provide a valid Codeforces problem URL."],
         db)
    | Some m =>
        let contestId := default EmptyString (Regex.group 1 m) in
        let index := default EmptyString (Regex.group 2 m) in
        if negb (validateProblemUrl w contestId index) then
          ([reply "The provided problem URL is not valid. Please provide a valid Codeforces problem URL."],
           db)
        else
          let daily := contestId ++ "/" ++ index in
          let '(server, db1) :=
            match findOne (by_guild guildId) (servers db) with
            | None =>
                let server := Server.mk (Some daily) [] guildId None None None in
                (server, create_server server db)
            | Some (oid, server) =>
                let server := Server.set_daily (Some daily) server in
                (server, save_server oid server db)
            end in
          let warnings :=
            ((if negb (Js.truthy (Server.announcementChannelId server))
              then ["No announcement channel is set."] else [])
             ++ (if negb (Js.truthy (Server.channelId server))
                 then ["No leaderboard channel is set."] else []))%list in
          let '(announcementSuccess, sent) := announce w db1 guildId in
          let warnings :=
            (warnings ++ (if negb announcementSuccess
                          then ["Failed to send announcement."] else []))%list in
          let replyMsg := "Daily problem has been set to: " ++ problemUrl in
          let replyMsg :=
            match warnings with
            | [] => replyMsg
            | _ :: _ => replyMsg ++ Js.nl ++ "Warning: " ++ Js.join " " warnings
            end in
          ((sent ++ [reply replyMsg])%list, db1)
    end.

(** *** leaderboard *)

Definition leaderboard (db : DB) (guildId : string) : list Action :=
  let no_daily :=
    [Reply (createEmbed None "No daily problem is set for this server.") false] in
  match findOne (by_guild guildId) (servers db) with
  | None => no_daily
  | Some (_, server) =>
      if negb (Js.truthy (Server.daily server)) then no_daily
      else
        match Server.members server with
        | [] =>
            [Reply (createEmbed (Some "Leaderboard")
                      "No members have solved the daily problem yet.") false]
        | _ :: _ =>
            let members := sort_members (Server.members server) in
            [Reply (createEmbed (Some "Daily Problem Leaderboard")
                      (LeaderboardCommand.text db members)) false]
        end
  end.

(** * Notions used in the statements *)

(** ** Replies *)

(** The replies of the handlers, by name. *)
Definition invalid_format : Action :=
  reply "Invalid problem URL format. Please provide a valid Codeforces problem URL.".

Definition congratulations : Embed :=
  createEmbed None
    "Congratulations! You have solved the daily problem and earned 1 point.".
Definition keep_trying : Embed :=
  createEmbed None "You have not solved the daily problem yet. Keep trying!".
Definition already_submitted : Embed :=
  createEmbed None "You have already submitted your solution for this problem today.".
Definition submissions_error : Embed :=
  createEmbed None
    "There was an error checking your submissions. Please try again later.".
Definition check_error : Embed :=
  createEmbed None "An error occurred while checking your solution.".

Definition signed_in : Action := reply "You have now signed in!".
Definition invalid_username : Action := reply "Invalid Codeforces username.".
Definition could_not_retrieve : Action :=
  reply "Could not retrieve your last submission. Please try again later.".
Definition does_not_match : Action :=
  reply "Your last submission does not match the problem or it wasn't a compilation error. Please try again.".

(** The replies that turn a confirmation down. *)
Definition rejections : list Action :=
  [invalid_username; could_not_retrieve; does_not_match; unexpected_error].

(** ** Ranking *)

(** [a] may stand before [b] in a leaderboard. *)
Definition higher_first (a b : Server.member) : Prop :=
  Server.points b <= Server.points a.

(** The member is rendered (its user resolved) and has [p] points. *)
Definition rendered_with (db : DB) (p : Z) (m : Server.member) : bool :=
  match populate db m with
  | Some _ => Server.points m =? p
  | None => false
  end.

(** One plus the position, in the whole list, of the first rendered
    member that has [p] points. *)
Definition position_rank (db : DB) (members : list Server.member) (p : Z) : Z :=
  match findOne (rendered_with db p) members with
  | Some (i, _) => Z.of_nat i + 1
  | None => 0
  end.

(** The lines of the rendered members, in order, with ranks given by
    [rank]. *)
Fixpoint lines_with (db : DB) (rank : Z -> Z) (members : list Server.member)
  : string :=
  match members with
  | [] => EmptyString
  | m :: rest =>
      match populate db m with
      | Some u => board_line (rank (Server.points m)) u m ++ lines_with db rank rest
      | None => lines_with db rank rest
      end
  end.

(** The ranking in the words of the specification: members whose user
    does not resolve are skipped, and a rendered member's rank is one plus
    the number of already ranked members with strictly more points. *)
Module Spec.
Definition count_higher (p : Z) (ranked : list Server.member) : Z :=
  Z.of_nat (length (List.filter (fun r => p <? Server.points r) ranked)).

Fixpoint lines (db : DB) (ranked members : list Server.member) : string :=
  match members with
  | [] => EmptyString
  | m :: rest =>
      match populate db m with
      | Some u =>
          board_line (1 + count_higher (Server.points m) ranked) u m
            ++ lines db (ranked ++ [m]) rest
      | None => lines db ranked rest
      end
  end.

Definition leaderboard_text (db : DB) (members : list Server.member) : string :=
  leaderboardText board0 ++ lines db [] (sort_members members).
End Spec.

(** What the loop knows, after the members [pre] of the sorted list [l],
    about the rendered members so far. *)
Definition positional_inv (db : DB) (l pre : list Server.member) (b : board) : Prop :=
  (lastPoints b = -1 /\ forall m, m ∈ pre -> populate db m = None)
  \/ (exists r, r ∈ pre /\ is_Some (populate db r)
        /\ lastPoints b = Server.points r
        /\ currentRank b = position_rank db l (Server.points r)
        /\ forall m, m ∈ pre -> is_Some (populate db m) ->
                     Server.points r <= Server.points m).

(** The same, when every member before is rendered. *)
Definition competition_inv (pre : list Server.member) (b : board) : Prop :=
  (pre = [] /\ lastPoints b = -1)
  \/ (exists r, r ∈ pre
        /\ lastPoints b = Server.points r
        /\ currentRank b = 1 + Spec.count_higher (Server.points r) pre
        /\ forall m, m ∈ pre -> Server.points r <= Server.points m).

(** The embed both leaderboard paths build for a guild record. *)
Definition leaderboard_embed (db : DB) (server : Server.t) : Embed :=
  createEmbed (Some "Daily Problem Leaderboard")
    (UpdateLeaderboard.text db (sort_members (Server.members server))).

(** ** Stores and ids *)

(** Two versions of a guild record that differ at most in the message id
    and in the order of the member entries. *)
Definition same_scores (s s' : Server.t) : Prop :=
  Server.daily s' = Server.daily s
  /\ Server.guildId s' = Server.guildId s
  /\ Server.channelId s' = Server.channelId s
  /\ Server.announcementChannelId s' = Server.announcementChannelId s
  /\ Permutation (Server.members s) (Server.members s').

(** [x], at position [i], is the first document of [l] with the property
    [P]: the one a [findOne] with a filter for [P] gives. *)
Definition first_with {A : Type} (P : A -> Prop) (l : list A) (i : nat) (x : A)
  : Prop :=
  l !! i = Some x /\ P x /\ forall k y, (k < i)%nat -> l !! k = Some y -> ~ P y.

(** The member entry is one of the platform user [userId]: its reference
    resolves to a user record with that platform id. *)
Definition entry_of (db : DB) (userId : string) (m : Server.member) : Prop :=
  exists u, users db !! Server.user m = Some u /\ User.id u = userId.

(** The guard of [hasSolvedProblem]: the id has a numeric contest part and
    a non-empty index, so that the request is made. *)
Definition well_formed_problemId (problemId : string) : bool :=
  let parts := Js.split "/" problemId in
  match Js.parseInt (default EmptyString (parts !! 0%nat)), parts !! 1%nat with
  | Some _, Some index => negb (String.eqb index EmptyString)
  | _, _ => false
  end.

(** The store's daily problem ids all pass the guard of
    [hasSolvedProblem]. *)
Definition dailies_well_formed (db : DB) : Prop :=
  forall s d, s ∈ servers db -> Server.daily s = Some d ->
              well_formed_problemId d = true.

(** The stores reached from the empty one by the handlers above. *)
Inductive reachable : DB -> Prop :=
| reach_empty : reachable (mkDB [] [])
| reach_setdailyproblem w db manageGuild problem_url guildId :
    reachable db ->
    reachable (setdailyproblem w db manageGuild problem_url guildId).2
| reach_check w db userId guildId :
    reachable db -> reachable (check w db userId guildId).2
| reach_button w db customId userId guildId :
    reachable db -> reachable (button w db customId userId guildId).2.

(** The character occurs in the string. *)
Fixpoint has_char (c : ascii) (s : string) : bool :=
  match s with
  | EmptyString => false
  | String x s' => Ascii.eqb x c || has_char c s'
  end.

(** The class [[A-Z0-9]] of the pattern's second group. *)
Definition is_index_char (c : ascii) : bool := Js.is_upper c || Js.is_digit c.

(** Every character of the string is in the class. *)
Fixpoint all_chars (cls : ascii -> bool) (s : string) : bool :=
  match s with
  | EmptyString => true
  | String c s' => cls c && all_chars cls s'
  end.

(** ** Conditions of the statements *)

(** The check flow replies "already submitted" and leaves
    the store as it was. *)
Definition replies_already_and_keeps (w : World) (db : DB) (userId guildId : string)
  : Prop :=
  exists published,
    check w db userId guildId = (Reply already_submitted true :: published, db).

(** The handler's last message is its success reply. *)
Definition daily_set (sent : list Action) : Prop :=
  exists before rest,
    sent = (before ++ [reply ("Daily problem has been set to: " ++ rest)])%list.

(** The latest submission of [handle] is a compilation error on the
    problem [contestId]/[problemIndex]. *)
Definition confirmed (w : World) (handle contestId : string)
    (problemIndex : option string) : Prop :=
  exists sub c,
    lastcfSubmission w handle = Some sub
    /\ Judge.contestId (Judge.problem sub) = Some c
    /\ Js.toString c = contestId
    /\ Some (Judge.index (Judge.problem sub)) = problemIndex
    /\ Judge.verdict sub = Some "COMPILATION_ERROR".

(** ** Example stores and judges *)

(** A store with two users, for the examples. *)
Definition alice : User.t := User.mk "111" "alice_cf" "g".
Definition bob : User.t := User.mk "222" "bob_cf" "g".
Definition two_users : DB := mkDB [alice; bob] [].

(** A guild record with the daily problem 1500/A and a leaderboard
    channel; a judge that reports an accepted submission, and one that
    cannot be reached. *)
Definition daily_guild (members : list Server.member) : Server.t :=
  Server.mk (Some "1500/A") members "g" (Some "board") None None.

Definition accepted_1500A : Submission :=
  Judge.mkSubmission (Judge.mkProblem (Some 1500) "A") (Some "OK").

Definition judge_up : World :=
  mkWorld (fun _ => ApiOk [accepted_1500A]) (fun _ => ApiOk [accepted_1500A])
          (ApiOk [Judge.mkProblem (Some 1500) "A"])
          (fun _ => true) (fun _ _ => Some "m1") (fun _ _ => false)
          (fun _ _ _ => true).

Definition judge_down : World :=
  mkWorld (fun _ => HttpError) (fun _ => HttpError) HttpError
          (fun _ => true) (fun _ _ => Some "m1") (fun _ _ => false)
          (fun _ _ _ => true).

Definition submitted_guild : DB :=
  mkDB [alice] [daily_guild [Server.mkMember 0 1 (Some "1500/A")]].

Definition two_guilds : DB :=
  mkDB [alice]
       [Server.mk (Some "1/A") [] "other" None None None;
        Server.mk (Some "4/A") [Server.mkMember 0 3 (Some "4/A")] "g"
                  (Some "board") (Some "news") (Some "m0")].

Definition compile_error_100A : Submission :=
  Judge.mkSubmission (Judge.mkProblem (Some 100) "A") (Some "COMPILATION_ERROR").

Definition judge_abc : World :=
  mkWorld (fun _ => ApiOk [compile_error_100A]) (fun _ => ApiOk [compile_error_100A])
          (ApiOk [Judge.mkProblem (Some 100) "A"])
          (fun _ => true) (fun _ _ => Some "m1") (fun _ _ => false)
          (fun _ _ _ => true).

(** A judge on which the handle "victim" last submitted a compilation
    error on 1234/A, no other handle has a submission, and the problem
    list starts with 777/B. *)
Definition compile_error_1234A : Submission :=
  Judge.mkSubmission (Judge.mkProblem (Some 1234) "A") (Some "COMPILATION_ERROR").

Definition judge_victim : World :=
  mkWorld (fun _ => ApiFailed)
          (fun handle =>
             if String.eqb handle "victim" then ApiOk [compile_error_1234A]
             else ApiFailed)
          (ApiOk [Judge.mkProblem (Some 777) "B"])
          (fun _ => true) (fun _ _ => Some "m1") (fun _ _ => false)
          (fun _ _ _ => true).

(** * More of the bot

    The rest of the handlers that read or write the store, and the login
    prompt. *)

(** ** login *)

(** A possibly absent number inside a template literal. *)
Definition interpolate (o : option Z) : string :=
  match o with
  | Some z => Js.toString z
  | None => "undefined"
  end.

(** [getRandomProblemUrl]: the URL of the picked problem and its id.
    [randomIndex] is the value of
    [Math.floor(Math.random() * problems.length)]; taking apart an
    [undefined] element throws, which the function catches. *)
Definition getRandomProblemUrl (w : World) (randomIndex : nat)
  : option (string * string) :=
  match problemset_problems w with
  | ApiOk problems =>
      match problems !! randomIndex with
      | Some randomProblem =>
          let contestId := interpolate (Judge.contestId randomProblem) in
          let index := Judge.index randomProblem in
          let problemUrl :=
            "https://codeforces.com/contest/" ++ contestId ++ "/problem/" ++ index in
          Some (problemUrl, contestId ++ "/" ++ index)
      | None => None
      end
  | ApiFailed => None
  | HttpError => None
  end.

(** What [login] answers: a plain reply, or the prompt with its button. *)
Inductive login_result : Type :=
| LoginReply (a : Action)
| LoginPrompt (e : Embed) (customId : string).

Definition login (w : World) (randomIndex : nat) (handle : option string)
  : login_result :=
  if negb (Js.truthy handle) then
    LoginReply (reply "Please provide a Codeforces username.")
  else
    let cfUsername := default EmptyString handle in
    match getRandomProblemUrl w randomIndex with
    | None =>
        LoginReply (reply "Sorry, I could not fetch a random problem at the moment.")
    | Some (url, problemId) =>
        LoginPrompt
          (createEmbed None
             ("Please submit a compilation error to this problem: " ++ url ++ Js.nl
                ++ "When you are done, please press the **Done** button."))
          (done_customId cfUsername problemId)
    end.

(** ** setleaderboardchannel and setannouncementchannel *)

(** The channel option of a command: its id, and whether it has [send]. *)
Module Channel.
Record t : Type := mk {
  id : string;
  sendable : bool
}.
End Channel.

Definition set_channelId (c : option string) (s : Server.t) : Server.t :=
  Server.mk (Server.daily s) (Server.members s) (Server.guildId s) c
            (Server.announcementChannelId s) (Server.messageId s).

Definition set_announcementChannelId (c : option string) (s : Server.t) : Server.t :=
  Server.mk (Server.daily s) (Server.members s) (Server.guildId s)
            (Server.channelId s) c (Server.messageId s).

Definition setleaderboardchannel (db : DB) (manageGuild : bool)
    (channel : option Channel.t) (guildId : string) : list Action * DB :=
  if negb manageGuild then
    ([reply "You do not have permission to set the leaderboard channel."], db)
  else
    match channel with
    | Some channel =>
        if Channel.sendable channel then
          let db1 :=
            match findOne (by_guild guildId) (servers db) with
            | None =>
                let server :=
                  Server.mk None [] guildId (Some (Channel.id channel)) None None in
                save_server (length (servers db)) server (create_server server db)
            | Some (oid, server) =>
                save_server oid (set_channelId (Some (Channel.id channel)) server) db
            end in
          ([reply ("Leaderboard channel has been set to <#" ++ Channel.id channel ++ ">")],
           db1)
        else ([reply "Please provide a valid text channel."], db)
    | None => ([reply "Please provide a valid text channel."], db)
    end.

Definition setannouncementchannel (db : DB) (manageGuild : bool)
    (channel : option Channel.t) (guildId : string) : list Action * DB :=
  if negb manageGuild then
    ([reply "You do not have permission to set the announcement channel."], db)
  else
    match channel with
    | Some channel =>
        if Channel.sendable channel then
          let db1 :=
            match findOne (by_guild guildId) (servers db) with
            | None =>
                let server :=
                  Server.mk None [] guildId None (Some (Channel.id channel)) None in
                save_server (length (servers db)) server (create_server server db)
            | Some (oid, server) =>
                save_server oid
                  (set_announcementChannelId (Some (Channel.id channel)) server) db
            end in
          ([reply ("Announcement channel has been set to <#" ++ Channel.id channel ++ ">")],
           db1)
        else ([reply "Please provide a valid text channel."], db)
    | None => ([reply "Please provide a valid text channel."], db)
    end.

(** ** Notions used in the further statements *)

(** The stores the bot can get to from the empty one. *)
Inductive attainable : DB -> Prop :=
| attain_empty : attainable (mkDB [] [])
| attain_setdailyproblem w db manageGuild problem_url guildId :
    attainable db ->
    attainable (setdailyproblem w db manageGuild problem_url guildId).2
| attain_setleaderboardchannel db manageGuild channel guildId :
    attainable db ->
    attainable (setleaderboardchannel db manageGuild channel guildId).2
| attain_setannouncementchannel db manageGuild channel guildId :
    attainable db ->
    attainable (setannouncementchannel db manageGuild channel guildId).2
| attain_check w db userId guildId :
    attainable db -> attainable (check w db userId guildId).2
| attain_button w db customId userId guildId :
    attainable db -> attainable (button w db customId userId guildId).2.

(** At most one guild record per guild id. *)
Definition guilds_unique (db : DB) : Prop :=
  NoDup (Server.guildId <$> servers db).

(** The platform ids of the users a member list refers to. *)
Definition member_ids (us : list User.t) (ms : list Server.member) : list string :=
  omap (fun m => User.id <$> us !! Server.user m) ms.

(** The points of a member list, and of a store. *)
Definition sum_points (ms : list Server.member) : Z :=
  foldr (fun m acc => Server.points m + acc) 0 ms.

Definition total_points (db : DB) : Z :=
  foldr (fun s acc => sum_points (Server.members s) + acc) 0 (servers db).

(** The replies among the messages a handler sent. *)
Definition replies (sent : list Action) : list Action :=
  List.filter (fun a => match a with Reply _ _ => true | _ => false end) sent.

(** The problem id is a non-empty run of digits, a slash and a non-empty
    run of capitals and digits. *)
Definition plain_problemId (problemId : string) : Prop :=
  exists contestId index,
    problemId = contestId ++ "/" ++ index
    /\ contestId <> "" /\ all_chars Js.is_digit contestId = true
    /\ index <> "" /\ all_chars is_index_char index = true.

(** The URL that announce posts for a daily problem id, and the URL that
    getRandomProblemUrl builds. *)
Definition problemset_url (problemId : string) : string :=
  "https://codeforces.com/problemset/problem/" ++ problemId.

Definition contest_url (contestId index : string) : string :=
  "https://codeforces.com/contest/" ++ contestId ++ "/problem/" ++ index.

(** The write that the three setting commands share: the guild's record
    is changed by [f], or [new] is created when the guild has none. *)
Definition upsert (guildId : string) (new : Server.t) (f : Server.t -> Server.t)
    (db : DB) : DB :=
  match findOne (by_guild guildId) (servers db) with
  | None => create_server new db
  | Some (oid, server) => save_server oid (f server) db
  end.

(** The channel id a channel command writes, when it writes. *)
Definition channel_write (channel : option Channel.t) (manageGuild : bool)
  : option string :=
  match channel with
  | Some c => if manageGuild && Channel.sendable c then Some (Channel.id c) else None
  | None => None
  end.

(** A member entry refers to a user record and has no negative points. *)
Definition member_kept (us : list User.t) (m : Server.member) : Prop :=
  (Server.user m < length us)%nat /\ 0 <= Server.points m.

(** A guild record whose entries are such, with at most one entry for a
    platform user, and with a plain daily problem id if it has one. *)
Definition record_kept (us : list User.t) (s : Server.t) : Prop :=
  Forall (member_kept us) (Server.members s)
  /\ NoDup (member_ids us (Server.members s))
  /\ forall d, Server.daily s = Some d -> plain_problemId d.

Definition consistent (db : DB) : Prop :=
  guilds_unique db /\ Forall (record_kept (users db)) (servers db).

(** A store the bot gets to: a user signs in, the guild's daily problem
    and leaderboard channel are set, and the user checks a solution. *)
Definition signed_up : DB :=
  (setleaderboardchannel
     (setdailyproblem judge_up
        (button judge_abc (mkDB [] []) (done_customId "abc" "100/A") "333" "g").2
        true (Some "https://codeforces.com/problemset/problem/1500/A") "g").2
     true (Some (Channel.mk "board" true)) "g").2.

Definition played : DB := (check judge_up signed_up "333" "g").2.

Definition played_guild : Server.t :=
  Server.mk (Some "1500/A") [Server.mkMember 0 1 (Some "1500/A")] "g"
            (Some "board") None (Some "m1").

(** * Properties *)

(** ** String helpers *)

Lemma append_assoc (a b c : string) : (a ++ b) ++ c = a ++ (b ++ c).
Proof. induction a as [|x a IH]; simpl; [reflexivity | now rewrite IH]. Qed.

Lemma append_nil_r (a : string) : a ++ "" = a.
Proof. induction a as [|x a IH]; simpl; [reflexivity | now rewrite IH]. Qed.

Lemma append_inv_head (a b c : string) : a ++ b = a ++ c -> b = c.
Proof. induction a as [|x a IH]; simpl; [tauto | intros [= H]; auto]. Qed.

(** ** Uptime *)

(** C9: an uptime of 90061 seconds is rendered as "1d, 1h, 1m, 1s", in
    the format "{d}d, {h}h, {m}m, {s}s". *)
Theorem formatUptime_90061 : formatUptime 90061 = "1d, 1h, 1m, 1s".
Proof. vm_compute. reflexivity. Qed.

(** X1: for a whole number of seconds from 0 to below 2^53 (the
    arguments on which the source's arithmetic on doubles is exact), the
    four numbers that formatUptime prints are the mixed-radix digits of
    the input: days, hours below 24, minutes below 60 and seconds below
    60, adding up to the input. *)
Lemma formatUptime_digits (seconds : Z) :
  0 <= seconds < 2 ^ 53 ->
  exists d h m s,
    formatUptime seconds
      = Js.toString d ++ "d, " ++ Js.toString h ++ "h, "
          ++ Js.toString m ++ "m, " ++ Js.toString s ++ "s"
    /\ seconds = 86400 * d + 3600 * h + 60 * m + s
    /\ 0 <= d /\ 0 <= h < 24 /\ 0 <= m < 60 /\ 0 <= s < 60.
Proof.
  intros [Hs _].
  exists (seconds / 86400), (Z.rem seconds 86400 / 3600),
    (Z.rem (Z.rem seconds 86400) 3600 / 60),
    (Z.rem (Z.rem (Z.rem seconds 86400) 3600) 60).
  split; [reflexivity|].
  pose proof (Z.rem_mod_nonneg seconds 86400 ltac:(lia) ltac:(lia)) as E1.
  pose proof (Z.div_mod seconds 86400 ltac:(lia)) as H1.
  pose proof (Z.mod_pos_bound seconds 86400 ltac:(lia)) as B1.
  rewrite E1. set (r1 := seconds mod 86400) in *.
  pose proof (Z.rem_mod_nonneg r1 3600 ltac:(lia) ltac:(lia)) as E2.
  pose proof (Z.div_mod r1 3600 ltac:(lia)) as H2.
  pose proof (Z.mod_pos_bound r1 3600 ltac:(lia)) as B2.
  rewrite E2. set (r2 := r1 mod 3600) in *.
  pose proof (Z.rem_mod_nonneg r2 60 ltac:(lia) ltac:(lia)) as E3.
  pose proof (Z.div_mod r2 60 ltac:(lia)) as H3.
  pose proof (Z.mod_pos_bound r2 60 ltac:(lia)) as B3.
  rewrite E3.
  assert (0 <= seconds / 86400) by (apply Z.div_pos; lia).
  assert (0 <= r1 / 3600 < 24)
    by (split; [apply Z.div_pos | apply Z.div_lt_upper_bound]; lia).
  assert (0 <= r2 / 60 < 60)
    by (split; [apply Z.div_pos | apply Z.div_lt_upper_bound]; lia).
  lia.
Qed.

(** ** URL validation of setdailyproblem *)

(** C1: the URL form of the command's own description,
    "https://codeforces.com/contest/1500/problem/A", does not match the
    handler's pattern: the handler answers "Invalid problem URL format"
    and leaves the store alone, exactly as it does for
    "https://example.com/foo".  The pattern accepts the problemset form,
    from which it extracts "1500" and "A". *)
Theorem setdailyproblem_contest_url (w : World) (db : DB) (guildId : string) :
  Regex.exec problem_url_regex "https://codeforces.com/contest/1500/problem/A" = None
  /\ setdailyproblem w db true
       (Some "https://codeforces.com/contest/1500/problem/A") guildId
     = ([invalid_format], db)
  /\ setdailyproblem w db true (Some "https://example.com/foo") guildId
     = ([invalid_format], db)
  /\ (Regex.group 1 <$> Regex.exec problem_url_regex
                           "https://codeforces.com/problemset/problem/1500/A")
     = Some (Some "1500")
  /\ (Regex.group 2 <$> Regex.exec problem_url_regex
                           "https://codeforces.com/problemset/problem/1500/A")
     = Some (Some "A").
Proof. repeat split; vm_compute; reflexivity. Qed.

(** ** The two rendering loops *)

Lemma loops_agree (db : DB) (members : list Server.member) :
  forall i b,
    LeaderboardCommand.loop db i members b = UpdateLeaderboard.loop db i members b.
Proof.
  induction members as [|m rest IH]; intros i b; simpl; [reflexivity|].
  apply IH.
Qed.

Lemma leaderboard_texts_agree_aux (db : DB) (members : list Server.member) :
  LeaderboardCommand.text db members = UpdateLeaderboard.text db members.
Proof.
  unfold LeaderboardCommand.text, UpdateLeaderboard.text.
  now rewrite loops_agree.
Qed.

(** C10: on every member list the text built by the leaderboard command
    is equal, character for character, to the text built by
    updateLeaderboard. *)
Theorem leaderboard_texts_equal (db : DB) (members : list Server.member) :
  LeaderboardCommand.text db members = UpdateLeaderboard.text db members.
Proof.
  unfold LeaderboardCommand.text, UpdateLeaderboard.text.
  now rewrite loops_agree.
Qed.

(** ** The sort *)

Lemma or0_id (x : Z) : or0 x = x.
Proof. unfold or0. destruct (Z.eqb_spec x 0); congruence. Qed.

Lemma by_points_desc_le (a b : Server.member) :
  (by_points_desc a b <=? 0) = true <-> higher_first a b.
Proof.
  unfold by_points_desc, higher_first. rewrite !or0_id, Z.leb_le. lia.
Qed.

Lemma insert_perm {A : Type} (cmp : A -> A -> Z) (x : A) (l : list A) :
  Permutation (JsArray.insert cmp x l) (x :: l).
Proof.
  induction l as [|y l IH]; simpl; [reflexivity|].
  destruct (cmp x y <=? 0); [reflexivity|].
  rewrite IH. apply perm_swap.
Qed.

Lemma sort_perm {A : Type} (cmp : A -> A -> Z) (l : list A) :
  Permutation (JsArray.sort cmp l) l.
Proof.
  induction l as [|x l IH]; simpl; [reflexivity|].
  rewrite insert_perm. now constructor.
Qed.

Lemma insert_sorted (x : Server.member) (l : list Server.member) :
  StronglySorted higher_first l ->
  StronglySorted higher_first (JsArray.insert by_points_desc x l).
Proof.
  induction l as [|y l IH]; simpl; intros Hl.
  - repeat constructor.
  - apply StronglySorted_cons in Hl as [Hy Hl].
    destruct (by_points_desc x y <=? 0) eqn:E.
    + apply by_points_desc_le in E.
      apply StronglySorted_cons. split; [|now apply StronglySorted_cons].
      constructor; [exact E|].
      eapply Forall_impl; [exact Hy|]. unfold higher_first in *. intros; lia.
    + assert (Hxy : higher_first y x).
      { unfold higher_first.
        destruct (Z.le_gt_cases (Server.points y) (Server.points x)) as [H|H]; [|lia].
        apply by_points_desc_le in H. congruence. }
      apply StronglySorted_cons. split; [|auto].
      rewrite insert_perm. now constructor.
Qed.

Lemma sort_members_sorted (ms : list Server.member) :
  StronglySorted higher_first (sort_members ms).
Proof.
  unfold sort_members, JsArray.sort.
  induction ms as [|x ms IH]; simpl; [constructor | now apply insert_sorted].
Qed.

Lemma sort_members_perm (ms : list Server.member) :
  Permutation (sort_members ms) ms.
Proof. apply sort_perm. Qed.

(** ** Ranks *)

Lemma position_rank_first (db : DB) (pre rest : list Server.member)
    (m : Server.member) :
  is_Some (populate db m) ->
  (forall x, x ∈ pre -> is_Some (populate db x) -> Server.points x <> Server.points m) ->
  position_rank db (pre ++ m :: rest) (Server.points m) = Z.of_nat (length pre) + 1.
Proof.
  intros [u Hu] Hpre. unfold position_rank, findOne.
  rewrite list_find_app_r.
  - simpl. rewrite decide_True; [reflexivity|].
    unfold rendered_with. rewrite Hu, Z.eqb_refl. exact I.
  - apply list_find_None, Forall_forall. intros x Hx HP.
    unfold rendered_with in HP. destruct (populate db x) eqn:E; [|exact HP].
    apply Is_true_true, Z.eqb_eq in HP. eapply Hpre; eauto.
Qed.

Lemma loop_positional (db : DB) (l : list Server.member) :
  StronglySorted higher_first l ->
  (forall m, m ∈ l -> 0 <= Server.points m) ->
  forall suf pre b,
    l = (pre ++ suf)%list ->
    positional_inv db l pre b ->
    leaderboardText (UpdateLeaderboard.loop db (length pre) suf b)
    = leaderboardText b ++ lines_with db (position_rank db l) suf.
Proof.
  intros Hsorted Hnonneg.
  induction suf as [|m rest IH]; intros pre b Hl Hinv; simpl.
  - now rewrite append_nil_r.
  - assert (Hl' : l = ((pre ++ [m]) ++ rest)%list) by (now rewrite <- app_assoc).
    assert (Hlen : length (pre ++ [m]) = S (length pre))
      by (rewrite length_app; simpl; lia).
    assert (Hm : 0 <= Server.points m)
      by (apply Hnonneg; rewrite Hl; apply elem_of_app; right; left).
    assert (Hbefore : forall x, x ∈ pre -> Server.points m <= Server.points x).
    { intros x Hx. rewrite Hl in Hsorted.
      apply (StronglySorted_app_1_elem_of higher_first pre (m :: rest) x m Hsorted Hx).
      left. }
    destruct (populate db m) as [u|] eqn:Hu.
    + destruct (Z.eqb_spec (Server.points m) (lastPoints b)) as [Heq|Hne]; simpl.
      * (* same points as the last rendered member: the rank is kept *)
        destruct Hinv as [[Hlast _]|(r & Hr & Hres & Hlast & Hrank & Hmin)]; [lia|].
        rewrite <- Hlen, (IH (pre ++ [m])%list); simpl; trivial.
        -- rewrite append_assoc. do 2 f_equal. rewrite Hrank. congruence.
        -- right. exists r. split_and!; trivial.
           ++ apply elem_of_app; now left.
           ++ intros x [Hx|Hx%list_elem_of_singleton]%elem_of_app Hxres; [auto|].
              subst x. lia.
      * (* new points value: the rank is the position *)
        assert (Hpos : position_rank db l (Server.points m)
                       = Z.of_nat (length pre) + 1).
        { rewrite Hl. apply position_rank_first; [rewrite Hu; eauto|].
          intros x Hx Hxres Hxm.
          destruct Hinv as [[_ Hnone]|(r & Hr & Hres & Hlast & Hrank & Hmin)].
          - rewrite (Hnone x Hx) in Hxres. now destruct Hxres.
          - specialize (Hmin x Hx Hxres). specialize (Hbefore r Hr). lia. }
        rewrite <- Hlen, (IH (pre ++ [m])%list); simpl; trivial.
        -- rewrite append_assoc. do 2 f_equal. now rewrite Hpos.
        -- right. exists m. split_and!.
           ++ apply elem_of_app; right; left.
           ++ rewrite Hu; eauto.
           ++ reflexivity.
           ++ now rewrite Hpos.
           ++ intros x [Hx|Hx%list_elem_of_singleton]%elem_of_app _; [auto|].
              subst x. lia.
    + rewrite <- Hlen, (IH (pre ++ [m])%list); trivial.
      destruct Hinv as [[Hlast Hnone]|(r & Hr & Hres & Hlast & Hrank & Hmin)].
      * left. split; [trivial|].
        intros x [Hx|Hx%list_elem_of_singleton]%elem_of_app; [auto | now subst x].
      * right. exists r. split_and!; trivial.
        -- apply elem_of_app; now left.
        -- intros x [Hx|Hx%list_elem_of_singleton]%elem_of_app Hxres; [auto|].
           subst x. rewrite Hu in Hxres. now destruct Hxres.
Qed.

Lemma count_higher_app (p : Z) (a b : list Server.member) :
  Spec.count_higher p (a ++ b) = Spec.count_higher p a + Spec.count_higher p b.
Proof.
  unfold Spec.count_higher. rewrite List.filter_app, length_app. lia.
Qed.

Lemma count_higher_all (p : Z) (l : list Server.member) :
  (forall x, x ∈ l -> p < Server.points x) ->
  Spec.count_higher p l = Z.of_nat (length l).
Proof.
  unfold Spec.count_higher. induction l as [|y l IH]; intros H; simpl; [reflexivity|].
  assert (Hy : p < Server.points y) by (apply H; left).
  apply Z.ltb_lt in Hy. rewrite Hy. simpl.
  f_equal. f_equal. apply Nat2Z.inj, IH. intros x Hx. apply H. now right.
Qed.

Lemma count_higher_self (m : Server.member) :
  Spec.count_higher (Server.points m) [m] = 0.
Proof. unfold Spec.count_higher. simpl. now rewrite Z.ltb_irrefl. Qed.

Lemma loop_competition (db : DB) (l : list Server.member) :
  StronglySorted higher_first l ->
  (forall m, m ∈ l -> 0 <= Server.points m) ->
  (forall m, m ∈ l -> is_Some (populate db m)) ->
  forall suf pre b,
    l = (pre ++ suf)%list ->
    competition_inv pre b ->
    leaderboardText (UpdateLeaderboard.loop db (length pre) suf b)
    = leaderboardText b ++ Spec.lines db pre suf.
Proof.
  intros Hsorted Hnonneg Hall.
  induction suf as [|m rest IH]; intros pre b Hl Hinv; simpl.
  - now rewrite append_nil_r.
  - assert (Hl' : l = ((pre ++ [m]) ++ rest)%list) by (now rewrite <- app_assoc).
    assert (Hlen : length (pre ++ [m]) = S (length pre))
      by (rewrite length_app; simpl; lia).
    assert (Hin : m ∈ l) by (rewrite Hl; apply elem_of_app; right; left).
    pose proof (Hnonneg m Hin) as Hm.
    destruct (Hall m Hin) as [u Hu]. rewrite Hu.
    assert (Hbefore : forall x, x ∈ pre -> Server.points m <= Server.points x).
    { intros x Hx. rewrite Hl in Hsorted.
      apply (StronglySorted_app_1_elem_of higher_first pre (m :: rest) x m Hsorted Hx).
      left. }
    assert (Hrank :
      currentRank (if negb (Server.points m =? lastPoints b)
                   then mkBoard (leaderboardText b) (Z.of_nat (length pre) + 1)
                                (Server.points m)
                   else b)
      = 1 + Spec.count_higher (Server.points m) pre).
    { destruct (Z.eqb_spec (Server.points m) (lastPoints b)) as [Heq|Hne]; simpl.
      - destruct Hinv as [[_ Hlast]|(r & Hr & Hlast & Hrank & Hmin)]; [lia|].
        rewrite Hrank. congruence.
      - destruct Hinv as [[-> _]|(r & Hr & Hlast & Hrank & Hmin)]; [reflexivity|].
        rewrite count_higher_all; [lia|].
        intros x Hx. specialize (Hmin x Hx). specialize (Hbefore r Hr). lia. }
    rewrite <- Hlen, (IH (pre ++ [m])%list); trivial.
    + cbn [leaderboardText]. rewrite Hrank, append_assoc.
      now destruct (negb (Server.points m =? lastPoints b)).
    + right. exists m. split_and!.
      * apply elem_of_app; right; left.
      * cbn [lastPoints].
        destruct (Z.eqb_spec (Server.points m) (lastPoints b)); simpl; congruence.
      * cbn [currentRank]. rewrite Hrank, count_higher_app, count_higher_self. lia.
      * intros x [Hx|Hx%list_elem_of_singleton]%elem_of_app; [auto|]. subst x. lia.
Qed.

Lemma sorted_nonneg (ms : list Server.member) (P : Server.member -> Prop) :
  (forall m, m ∈ ms -> P m) -> forall m, m ∈ sort_members ms -> P m.
Proof.
  intros H m Hm. apply H. now rewrite <- (sort_members_perm ms).
Qed.

(** C2, amended: with non-negative points, both renderings list exactly the
    members whose user resolves, in sorted order, each with the rank
    1 + (the position, among all members of the sorted list, skipped ones
    included, of the first rendered member with the same points).  When
    every user resolves, that is the rank of the specification: 1 + the
    number of already ranked members with strictly more points. *)
Theorem leaderboard_ranks (db : DB) (ms : list Server.member) :
  (forall m, m ∈ ms -> 0 <= Server.points m) ->
  let sorted := sort_members ms in
  UpdateLeaderboard.text db sorted
    = leaderboardText board0 ++ lines_with db (position_rank db sorted) sorted
  /\ LeaderboardCommand.text db sorted
    = leaderboardText board0 ++ lines_with db (position_rank db sorted) sorted
  /\ ((forall m, m ∈ ms -> is_Some (populate db m)) ->
      UpdateLeaderboard.text db sorted = Spec.leaderboard_text db ms
      /\ LeaderboardCommand.text db sorted = Spec.leaderboard_text db ms).
Proof.
  intros Hnonneg sorted.
  assert (H1 : UpdateLeaderboard.text db sorted
    = leaderboardText board0 ++ lines_with db (position_rank db sorted) sorted).
  { unfold UpdateLeaderboard.text.
    apply (loop_positional db sorted (sort_members_sorted ms)
             (sorted_nonneg ms _ Hnonneg) sorted [] board0 eq_refl).
    left. split; [reflexivity|]. intros m Hm. inversion Hm. }
  split; [exact H1|]. split; [now rewrite leaderboard_texts_agree_aux|].
  intros Hall.
  assert (H2 : UpdateLeaderboard.text db sorted = Spec.leaderboard_text db ms).
  { unfold UpdateLeaderboard.text, Spec.leaderboard_text.
    apply (loop_competition db sorted (sort_members_sorted ms)
             (sorted_nonneg ms _ Hnonneg) (sorted_nonneg ms _ Hall)
             sorted [] board0 eq_refl).
    left. split; reflexivity. }
  split; [exact H2|]. now rewrite leaderboard_texts_agree_aux.
Qed.

Lemma leaderboard_ranks_witness :
  let ms := [Server.mkMember 1 5 None; Server.mkMember 0 10 None;
             Server.mkMember 1 10 None] in
  UpdateLeaderboard.text two_users (sort_members ms)
    = Spec.leaderboard_text two_users ms
  /\ LeaderboardCommand.text two_users (sort_members ms)
    = Spec.leaderboard_text two_users ms.
Proof.
  intros ms.
  refine (proj2 (proj2 (leaderboard_ranks two_users ms _)) _).
  - intros m Hm. unfold ms in Hm.
    repeat (apply elem_of_cons in Hm as [->|Hm]); simpl; try lia.
    inversion Hm.
  - intros m Hm. unfold ms in Hm.
    repeat (apply elem_of_cons in Hm as [->|Hm]); simpl; eauto.
    inversion Hm.
Defined.

(** C2 as stated fails: a member whose user does not resolve is skipped
    but still takes a position, so the member rendered after it gets rank
    2, where the specification's ranking gives rank 1, the rank the same
    member has when nothing precedes it. *)
Lemma leaderboard_ranks_skipped_counterexample :
  let skipped := Server.mkMember 7 10 None in
  let shown := Server.mkMember 0 5 None in
  UpdateLeaderboard.text two_users (sort_members [skipped; shown])
    = leaderboardText board0 ++ board_line 2 alice shown
  /\ LeaderboardCommand.text two_users (sort_members [skipped; shown])
    = leaderboardText board0 ++ board_line 2 alice shown
  /\ Spec.leaderboard_text two_users [skipped; shown]
    = leaderboardText board0 ++ board_line 1 alice shown
  /\ UpdateLeaderboard.text two_users (sort_members [shown])
    = leaderboardText board0 ++ board_line 1 alice shown
  /\ UpdateLeaderboard.text two_users (sort_members [skipped; shown])
     <> Spec.leaderboard_text two_users [skipped; shown]
  /\ LeaderboardCommand.text two_users (sort_members [skipped; shown])
     <> Spec.leaderboard_text two_users [skipped; shown].
Proof.
  cbv zeta. split_and!; try (vm_compute; reflexivity); vm_compute; discriminate.
Qed.

(** C6: three members with 10, 10 and 5 points, all users resolved, are
    rendered with the ranks 1, 1, 3 by both renderings; the text is
    neither the one with ranks 1, 1, 2 nor the one with ranks 1, 2, 3. *)
Theorem tie_ranks (db : DB) (a b c : Server.member) (ua ub uc : User.t) :
  Server.points a = 10 -> Server.points b = 10 -> Server.points c = 5 ->
  populate db a = Some ua -> populate db b = Some ub -> populate db c = Some uc ->
  let ranked r1 r2 r3 :=
    leaderboardText board0
      ++ board_line r1 ua a ++ board_line r2 ub b ++ board_line r3 uc c in
  UpdateLeaderboard.text db (sort_members [a; b; c]) = ranked 1 1 3
  /\ LeaderboardCommand.text db (sort_members [a; b; c]) = ranked 1 1 3
  /\ ranked 1 1 3 <> ranked 1 1 2
  /\ ranked 1 1 3 <> ranked 1 2 3.
Proof.
  intros Ha Hb Hc Hua Hub Huc ranked.
  destruct a as [ra pa la], b as [rb pb lb], c as [rc pc lc].
  simpl in Ha, Hb, Hc. subst pa pb pc.
  assert (Hsort : sort_members [Server.mkMember ra 10 la; Server.mkMember rb 10 lb;
                                Server.mkMember rc 5 lc]
                  = [Server.mkMember ra 10 la; Server.mkMember rb 10 lb;
                     Server.mkMember rc 5 lc]) by reflexivity.
  assert (H : UpdateLeaderboard.text db
                (sort_members [Server.mkMember ra 10 la; Server.mkMember rb 10 lb;
                               Server.mkMember rc 5 lc]) = ranked 1 1 3).
  { rewrite Hsort. unfold UpdateLeaderboard.text, ranked.
    cbn [UpdateLeaderboard.loop]. rewrite Hua, Hub, Huc.
    cbn [Server.points lastPoints currentRank leaderboardText board0].
    change (10 =? -1) with false. cbn [negb lastPoints currentRank leaderboardText].
    change (10 =? 10) with true. cbn [negb lastPoints currentRank leaderboardText].
    change (5 =? 10) with false. cbn [negb lastPoints currentRank leaderboardText].
    rewrite !append_assoc. reflexivity. }
  split; [exact H|]. split; [now rewrite leaderboard_texts_agree_aux|].
  unfold ranked. split; intros E.
  - do 3 apply append_inv_head in E. discriminate E.
  - do 2 apply append_inv_head in E. discriminate E.
Qed.

Lemma tie_ranks_witness :
  let a := Server.mkMember 0 10 None in
  let b := Server.mkMember 1 10 (Some "1500/A") in
  let c := Server.mkMember 0 5 None in
  UpdateLeaderboard.text two_users (sort_members [a; b; c])
  = leaderboardText board0
      ++ board_line 1 alice a ++ board_line 1 bob b ++ board_line 3 alice c.
Proof.
  intros a b c.
  exact (proj1 (tie_ranks two_users a b c alice bob alice
                  eq_refl eq_refl eq_refl eq_refl eq_refl eq_refl)).
Defined.

(** ** The check flow *)

Lemma opt_eqb_string (a b : option string) :
  opt_eqb String.eqb a b = true <-> a = b.
Proof.
  destruct a as [x|], b as [y|]; simpl; try (split; congruence).
  rewrite String.eqb_eq. split; congruence.
Qed.

Lemma truthy_Some (s : string) : s <> "" -> Js.truthy (Some s) = true.
Proof.
  intros H. simpl. destruct (String.eqb_spec s ""); [contradiction | reflexivity].
Qed.

Lemma findOne_lookup {A : Type} (f : A -> bool) (l : list A) (i : nat) (x : A) :
  findOne f l = Some (i, x) -> l !! i = Some x /\ f x = true.
Proof.
  unfold findOne. intros (H1 & H2 & _)%list_find_Some.
  split; [exact H1 | now apply Is_true_true].
Qed.

Lemma findOne_None {A : Type} (f : A -> bool) (l : list A) :
  findOne f l = None <-> forall x, x ∈ l -> f x = false.
Proof.
  unfold findOne. rewrite list_find_None, Forall_forall.
  split; intros H x Hx; specialize (H x Hx).
  - destruct (f x); [now destruct H|reflexivity].
  - now rewrite H.
Qed.

Lemma findOne_first {A : Type} (f : A -> bool) (P : A -> Prop) (l : list A)
    (i : nat) (x : A) :
  (forall y, f y = true <-> P y) -> first_with P l i x -> findOne f l = Some (i, x).
Proof.
  intros Hf (Hl & Hx & Hfirst). unfold findOne. apply list_find_Some. split_and!.
  - exact Hl.
  - apply Is_true_true, Hf, Hx.
  - intros k y Hk Hlt Hy. apply (Hfirst k y Hlt Hk). now apply Hf, Is_true_true.
Qed.

Lemma findOne_none_with {A : Type} (f : A -> bool) (P : A -> Prop) (l : list A) :
  (forall y, f y = true <-> P y) -> (forall y, y ∈ l -> ~ P y) -> findOne f l = None.
Proof.
  intros Hf Hnone. apply findOne_None. intros y Hy.
  destruct (f y) eqn:E; [|reflexivity]. now destruct (Hnone y Hy); apply Hf.
Qed.

Lemma by_user_id_spec (userId : string) (u : User.t) :
  by_user_id userId u = true <-> User.id u = userId.
Proof. apply String.eqb_eq. Qed.

Lemma by_guild_with_daily_spec (g : string) (s : Server.t) :
  by_guild_with_daily g s = true <-> Server.guildId s = g /\ Server.daily s <> None.
Proof.
  unfold by_guild_with_daily. destruct (Server.daily s).
  - rewrite String.eqb_eq. split; [now split|tauto].
  - split; [discriminate|]. now intros [_ H].
Qed.

Lemma is_member_of_spec (db : DB) (u : User.t) (m : Server.member) :
  is_member_of db u m = true <-> entry_of db (User.id u) m.
Proof.
  unfold is_member_of, entry_of, populate, ObjectId.
  destruct (@lookup nat User.t (list User.t) _ (Server.user m) (users db)) as [mu|].
  - rewrite String.eqb_eq. split.
    + intros H. now exists mu.
    + now intros (u' & [= <-] & H).
  - split; [discriminate|]. now intros (u' & H & _).
Qed.

Lemma same_scores_refl (s : Server.t) : same_scores s s.
Proof. repeat split; reflexivity. Qed.

Lemma same_scores_trans (a b c : Server.t) :
  same_scores a b -> same_scores b c -> same_scores a c.
Proof.
  intros (A1 & A2 & A3 & A4 & A5) (B1 & B2 & B3 & B4 & B5).
  repeat split; try congruence. now rewrite A5.
Qed.

Lemma same_scores_all_refl (l : list Server.t) : Forall2 same_scores l l.
Proof.
  apply Forall_Forall2_diag, Forall_forall. intros; apply same_scores_refl.
Qed.

Lemma same_scores_all_trans (a b c : list Server.t) :
  Forall2 same_scores a b -> Forall2 same_scores b c -> Forall2 same_scores a c.
Proof.
  intros Hab. revert c. induction Hab as [|x y l k Hxy Hlk IH]; intros c Hbc.
  - inversion Hbc. constructor.
  - inversion Hbc as [|y' z k' m Hyz Hkm]; subst.
    constructor; [eapply same_scores_trans; eauto | auto].
Qed.

(** The leaderboard refresh changes no user, no score and no setting. *)
Lemma updateLeaderboard_frame (w : World) (db : DB) (guildId : string) :
  users (updateLeaderboard w db guildId).1.2 = users db
  /\ Forall2 same_scores (servers db) (servers (updateLeaderboard w db guildId).1.2).
Proof.
  assert (Hsame : users db = users db /\ Forall2 same_scores (servers db) (servers db))
    by (split; [reflexivity | apply same_scores_all_refl]).
  unfold updateLeaderboard.
  destruct (findOne (by_guild guildId) (servers db)) as [[oid server]|] eqn:Hfind;
    [|exact Hsame].
  destruct (Server.members server) as [|m0 ms] eqn:Hms; [exact Hsame|].
  destruct (Js.truthy _); [|exact Hsame].
  destruct (text_channel w _); [|exact Hsame].
  assert (Hsend : forall e chan,
    users (match channel_send w chan e with
           | Some mid =>
               (true,
                save_server oid
                  (Server.set_messageId (Some mid)
                     (Server.set_members (sort_members (m0 :: ms)) server)) db,
                [Send chan e])
           | None => (false, db, [])
           end).1.2 = users db
    /\ Forall2 same_scores (servers db)
         (servers (match channel_send w chan e with
                   | Some mid =>
                       (true,
                        save_server oid
                          (Server.set_messageId (Some mid)
                             (Server.set_members (sort_members (m0 :: ms)) server)) db,
                        [Send chan e])
                   | None => (false, db, [])
                   end).1.2)).
  { intros e chan. destruct (channel_send w chan e) as [mid|]; [|exact Hsame].
    simpl. split; [reflexivity|].
    apply findOne_lookup in Hfind as [Hlook _].
    rewrite <- (list_insert_id (servers db) oid server Hlook) at 1.
    apply Forall2_insert; [apply same_scores_all_refl|].
    repeat split; simpl. rewrite Hms. symmetry.
    exact (sort_members_perm (m0 :: ms)). }
  destruct (Js.truthy _); [|apply Hsend].
  destruct (message_fetch w _ _); [|apply Hsend].
  destruct (message_edit w _ _ _); exact Hsame.
Qed.

(** The refresh that follows the handler keeps users, scores and
    settings. *)
Lemma check_frame (w : World) (db : DB) (userId guildId : string) :
  users (check w db userId guildId).2 = users (check_handler w db userId guildId).1.2
  /\ Forall2 same_scores (servers (check_handler w db userId guildId).1.2)
                         (servers (check w db userId guildId).2).
Proof.
  unfold check.
  destruct (check_handler w db userId guildId) as [[embed db1] refresh]. simpl.
  destruct refresh.
  - pose proof (updateLeaderboard_frame w db1 guildId) as H.
    destruct (updateLeaderboard w db1 guildId) as [[ok db2] published]. exact H.
  - simpl. split; [reflexivity | apply same_scores_all_refl].
Qed.

(** What the handler writes, in terms of what its three lookups gave. *)
Lemma check_handler_scores (w : World) (db : DB) (userId guildId : string)
    (user_oid oid : ObjectId) (user : User.t) (server : Server.t)
    (dailyProblemId : string) (solved : bool) :
  findOne (by_user_id userId) (users db) = Some (user_oid, user) ->
  findOne (by_guild_with_daily guildId) (servers db) = Some (oid, server) ->
  Server.daily server = Some dailyProblemId ->
  dailyProblemId <> "" ->
  hasSolvedProblem w (User.cfUsername user) dailyProblemId = Returned (Some solved) ->
  let outcome := if solved then congratulations else keep_trying in
  (findOne (is_member_of db user) (Server.members server) = None ->
   let inserted :=
     Server.mkMember user_oid (if solved then 1 else 0)
       (if solved then Some dailyProblemId else None) in
   check_handler w db userId guildId
   = (outcome,
      save_server oid
        (Server.set_members (Server.members server ++ [inserted]) server) db,
      true))
  /\ (forall j member,
        findOne (is_member_of db user) (Server.members server) = Some (j, member) ->
        Server.lastSubmitted member <> Some dailyProblemId ->
        let updated :=
          Server.mkMember (Server.user member) (Server.points member + 1)
            (Some dailyProblemId) in
        check_handler w db userId guildId
        = (outcome,
           save_server oid
             (Server.set_members (<[j := updated]> (Server.members server)) server) db,
           true))
  /\ users (check w db userId guildId).2
     = users (check_handler w db userId guildId).1.2
  /\ Forall2 same_scores (servers (check_handler w db userId guildId).1.2)
                         (servers (check w db userId guildId).2).
Proof.
  intros Huser Hserver Hdaily Hne Hsolved outcome.
  split_and!; [| |apply check_frame..].
  - intros Hmember inserted. unfold check_handler.
    rewrite Huser, Hserver, Hdaily, (truthy_Some _ Hne). simpl.
    rewrite Hsolved, Hmember. subst outcome inserted. now destruct solved.
  - intros j member Hmember Hlast updated. unfold check_handler.
    rewrite Huser, Hserver, Hdaily, (truthy_Some _ Hne). simpl.
    rewrite Hsolved, Hmember.
    destruct (opt_eqb String.eqb (Server.lastSubmitted member) (Some dailyProblemId))
      eqn:E.
    + apply opt_eqb_string in E. contradiction.
    + subst outcome updated. now destruct solved.
Qed.

(** C3: in the check flow with the submissions fetched, a caller without
    a member entry in the guild's record gets a new entry with 1 point and
    the daily problem as lastSubmitted if solved, and with 0 points and no
    lastSubmitted otherwise; a caller who has an entry, with another
    lastSubmitted, gets 1 more point on that entry and the daily problem
    as its lastSubmitted, solved or not.  The caller's record is the first
    user record with the caller's platform id, the guild's record the
    first one of the guild that has a daily problem, and the caller's
    entry the first entry whose user reference resolves to a record with
    the caller's platform id.  The leaderboard refresh that follows
    changes no entry. *)
Theorem check_points (w : World) (db : DB) (userId guildId : string)
    (user_oid oid : ObjectId) (user : User.t) (server : Server.t)
    (dailyProblemId : string) (solved : bool) :
  first_with (fun u => User.id u = userId) (users db) user_oid user ->
  first_with (fun s => Server.guildId s = guildId /\ Server.daily s <> None)
             (servers db) oid server ->
  Server.daily server = Some dailyProblemId ->
  dailyProblemId <> "" ->
  hasSolvedProblem w (User.cfUsername user) dailyProblemId = Returned (Some solved) ->
  let outcome := if solved then congratulations else keep_trying in
  ((forall m, m ∈ Server.members server -> ~ entry_of db userId m) ->
   let inserted :=
     Server.mkMember user_oid (if solved then 1 else 0)
       (if solved then Some dailyProblemId else None) in
   check_handler w db userId guildId
   = (outcome,
      save_server oid
        (Server.set_members (Server.members server ++ [inserted]) server) db,
      true))
  /\ (forall j member,
        first_with (entry_of db userId) (Server.members server) j member ->
        Server.lastSubmitted member <> Some dailyProblemId ->
        let updated :=
          Server.mkMember (Server.user member) (Server.points member + 1)
            (Some dailyProblemId) in
        check_handler w db userId guildId
        = (outcome,
           save_server oid
             (Server.set_members (<[j := updated]> (Server.members server)) server) db,
           true))
  /\ users (check w db userId guildId).2
     = users (check_handler w db userId guildId).1.2
  /\ Forall2 same_scores (servers (check_handler w db userId guildId).1.2)
                         (servers (check w db userId guildId).2).
Proof.
  intros Huser Hserver Hdaily Hne Hsolved outcome.
  assert (Hid : User.id user = userId) by now destruct Huser as (_ & H & _).
  apply (findOne_first (by_user_id userId) _ _ _ _ (by_user_id_spec userId))
    in Huser.
  apply (findOne_first (by_guild_with_daily guildId) _ _ _ _
           (by_guild_with_daily_spec guildId)) in Hserver.
  assert (Hentry : forall m, is_member_of db user m = true <-> entry_of db userId m)
    by (intros m; rewrite <- Hid; apply is_member_of_spec).
  destruct (check_handler_scores w db userId guildId user_oid oid user server
              dailyProblemId solved Huser Hserver Hdaily Hne Hsolved)
    as (Habsent & Hpresent & Husers & Hscores).
  split_and!; [| |exact Husers|exact Hscores].
  - intros Hnone. apply Habsent.
    now apply (findOne_none_with _ _ _ Hentry).
  - intros j member Hfirst Hlast. apply Hpresent; [|exact Hlast].
    now apply (findOne_first _ _ _ _ _ Hentry).
Qed.

Lemma check_points_witness :
  check_handler judge_abc
    (mkDB [alice; bob]
          [daily_guild [Server.mkMember 1 7 None; Server.mkMember 0 3 (Some "4/A")]])
    "111" "g"
  = (keep_trying,
     mkDB [alice; bob]
          [daily_guild [Server.mkMember 1 7 None;
                        Server.mkMember 0 4 (Some "1500/A")]],
     true)
  /\ check_handler judge_up (mkDB [alice] [daily_guild []]) "111" "g"
     = (congratulations,
        mkDB [alice] [daily_guild [Server.mkMember 0 1 (Some "1500/A")]],
        true).
Proof.
  split.
  - refine (proj1 (proj2
              (check_points judge_abc
                 (mkDB [alice; bob]
                       [daily_guild [Server.mkMember 1 7 None;
                                     Server.mkMember 0 3 (Some "4/A")]])
                 "111" "g" 0%nat 0%nat alice
                 (daily_guild [Server.mkMember 1 7 None;
                               Server.mkMember 0 3 (Some "4/A")])
                 "1500/A" false _ _ eq_refl _ eq_refl))
              1%nat (Server.mkMember 0 3 (Some "4/A")) _ _).
    + repeat split; try reflexivity; try discriminate; intros k y Hk; lia.
    + repeat split; try reflexivity; try discriminate; intros k y Hk; lia.
    + discriminate.
    + split; [reflexivity|]. split; [exists alice; split; reflexivity|].
      intros [|k] y Hk Hy; [|lia]. injection Hy as <-.
      intros (u & Hu & Hid). injection Hu as <-. discriminate Hid.
    + discriminate.
  - refine (proj1 (check_points judge_up (mkDB [alice] [daily_guild []]) "111" "g"
                     0%nat 0%nat alice (daily_guild []) "1500/A" true
                     _ _ eq_refl _ eq_refl) _).
    + repeat split; try reflexivity; try discriminate; intros k y Hk; lia.
    + repeat split; try reflexivity; try discriminate; intros k y Hk; lia.
    + discriminate.
    + intros m Hm. inversion Hm.
Defined.

Lemma by_guild_with_daily_same (g : string) (s s' : Server.t) :
  same_scores s s' -> by_guild_with_daily g s' = by_guild_with_daily g s.
Proof.
  intros (H1 & H2 & _). unfold by_guild_with_daily. now rewrite H1, H2.
Qed.

Lemma findOne_same_scores (g : string) (l l' : list Server.t) (i : nat)
    (s : Server.t) :
  Forall2 same_scores l l' ->
  findOne (by_guild_with_daily g) l = Some (i, s) ->
  exists s', findOne (by_guild_with_daily g) l' = Some (i, s') /\ same_scores s s'.
Proof.
  unfold findOne. intros Hall (Hlook & HP & Hmin)%list_find_Some.
  destruct (Forall2_lookup_l _ _ _ _ _ Hall Hlook) as (s' & Hlook' & Hss).
  exists s'. split; [|exact Hss].
  apply list_find_Some. split_and!; [exact Hlook'| |].
  - now rewrite (by_guild_with_daily_same g s s' Hss).
  - intros j y Hy Hlt Hc.
    destruct (Forall2_lookup_r _ _ _ _ _ Hall Hy) as (x & Hx & Hxy).
    apply (Hmin j x Hx Hlt). now rewrite <- (by_guild_with_daily_same g x y Hxy).
Qed.

Lemma findOne_perm {A : Type} (f : A -> bool) (l l' : list A) (j : nat) (m : A) :
  Permutation l l' ->
  findOne f l = Some (j, m) ->
  (forall x, x ∈ l -> f x = true -> x = m) ->
  exists j', findOne f l' = Some (j', m).
Proof.
  intros Hperm Hfind Huniq.
  apply findOne_lookup in Hfind as [Hlook Hf].
  assert (Hin : m ∈ l') by (rewrite <- Hperm; eapply list_elem_of_lookup_2; eauto).
  destruct (list_find_elem_of (fun d => Is_true (f d)) l' m Hin) as [[j' x] Hx].
  { now apply Is_true_true. }
  exists j'. unfold findOne. rewrite Hx.
  apply list_find_Some in Hx as (Hx1 & Hx2 & _).
  f_equal. f_equal. apply Huniq.
  - rewrite Hperm. eapply list_elem_of_lookup_2; eauto.
  - now apply Is_true_true.
Qed.

Lemma findOne_member_users (db db' : DB) (u : User.t) (l : list Server.member) :
  users db' = users db ->
  findOne (is_member_of db' u) l = findOne (is_member_of db u) l.
Proof.
  intros H. unfold findOne. apply list_find_ext. intros m.
  unfold is_member_of, populate. now rewrite H.
Qed.

(** What the handler does for a caller whose entry already has the daily
    problem as lastSubmitted, by the outcome of the submissions fetch. *)
Lemma check_handler_already (w : World) (db : DB) (userId guildId : string)
    (user_oid oid j : nat) (user : User.t) (server : Server.t)
    (member : Server.member) (dailyProblemId : string) :
  findOne (by_user_id userId) (users db) = Some (user_oid, user) ->
  findOne (by_guild_with_daily guildId) (servers db) = Some (oid, server) ->
  Server.daily server = Some dailyProblemId ->
  dailyProblemId <> "" ->
  findOne (is_member_of db user) (Server.members server) = Some (j, member) ->
  Server.lastSubmitted member = Some dailyProblemId ->
  check_handler w db userId guildId
  = match hasSolvedProblem w (User.cfUsername user) dailyProblemId with
    | Returned (Some _) => (already_submitted, db, true)
    | Returned None => (submissions_error, db, false)
    | Thrown => (check_error, db, false)
    end.
Proof.
  intros Huser Hserver Hdaily Hne Hmember Hlast. unfold check_handler.
  rewrite Huser, Hserver, Hdaily, (truthy_Some _ Hne). simpl.
  destruct (hasSolvedProblem w (User.cfUsername user) dailyProblemId)
    as [[solved|]|]; try reflexivity.
  rewrite Hmember.
  now rewrite (proj2 (opt_eqb_string _ _) Hlast).
Qed.

(** C4, amended: for a caller whose member entry already has the daily
    problem as lastSubmitted, the handler writes nothing to the store;
    it replies "already submitted" when the submissions fetch succeeds
    (the fetch comes first, and its failure is what gets reported
    otherwise); the leaderboard refresh that follows keeps every user, and
    every guild record up to its message id and the order of its member
    entries, so no points change.  When the caller has a single entry, a
    second check again writes nothing and changes no points. *)
Theorem check_already_submitted (w : World) (db : DB) (userId guildId : string)
    (user_oid oid j : nat) (user : User.t) (server : Server.t)
    (member : Server.member) (dailyProblemId : string) :
  findOne (by_user_id userId) (users db) = Some (user_oid, user) ->
  findOne (by_guild_with_daily guildId) (servers db) = Some (oid, server) ->
  Server.daily server = Some dailyProblemId ->
  dailyProblemId <> "" ->
  findOne (is_member_of db user) (Server.members server) = Some (j, member) ->
  Server.lastSubmitted member = Some dailyProblemId ->
  (check_handler w db userId guildId).1.2 = db
  /\ (forall solved,
        hasSolvedProblem w (User.cfUsername user) dailyProblemId
          = Returned (Some solved) ->
        exists published,
          (check w db userId guildId).1 = Reply already_submitted true :: published)
  /\ users (check w db userId guildId).2 = users db
  /\ Forall2 same_scores (servers db) (servers (check w db userId guildId).2)
  /\ ((forall m, m ∈ Server.members server -> is_member_of db user m = true ->
                 m = member) ->
      forall w',
        let db1 := (check w db userId guildId).2 in
        (check_handler w' db1 userId guildId).1.2 = db1
        /\ Forall2 same_scores (servers db) (servers (check w' db1 userId guildId).2)).
Proof.
  intros Huser Hserver Hdaily Hne Hmember Hlast.
  pose proof (check_handler_already w db userId guildId user_oid oid j user server
                member dailyProblemId Huser Hserver Hdaily Hne Hmember Hlast) as H.
  assert (H1 : (check_handler w db userId guildId).1.2 = db).
  { rewrite H. destruct (hasSolvedProblem w _ _) as [[?|]|]; reflexivity. }
  destruct (check_frame w db userId guildId) as [Hu Hs]. rewrite H1 in Hu, Hs.
  split_and!; trivial.
  - intros solved Hsolved. unfold check. rewrite H, Hsolved.
    destruct (updateLeaderboard w db guildId) as [[ok db2] published].
    now exists published.
  - intros Huniq w' db1.
    destruct (findOne_same_scores guildId _ _ oid server Hs Hserver)
      as (server1 & Hserver1 & Hss).
    pose proof Hss as (Hd & _ & _ & _ & Hperm).
    destruct (findOne_perm (is_member_of db user) _ _ j member Hperm Hmember Huniq)
      as [j1 Hmember1].
    rewrite <- (findOne_member_users db db1 user _ Hu) in Hmember1.
    rewrite <- Hu in Huser. rewrite <- Hd in Hdaily.
    pose proof (check_handler_already w' db1 userId guildId user_oid oid j1 user
                  server1 member dailyProblemId Huser Hserver1 Hdaily Hne
                  Hmember1 Hlast) as H'.
    assert (H1' : (check_handler w' db1 userId guildId).1.2 = db1).
    { rewrite H'. destruct (hasSolvedProblem w' _ _) as [[?|]|]; reflexivity. }
    split; [exact H1'|].
    destruct (check_frame w' db1 userId guildId) as [_ Hs']. rewrite H1' in Hs'.
    eapply same_scores_all_trans; eauto.
Qed.

Lemma check_already_submitted_witness :
  (check_handler judge_up submitted_guild "111" "g").1.2 = submitted_guild
  /\ Forall2 same_scores (servers submitted_guild)
       (servers (check judge_up (check judge_up submitted_guild "111" "g").2
                   "111" "g").2).
Proof.
  pose proof (check_already_submitted judge_up submitted_guild "111" "g"
                0%nat 0%nat 0%nat alice
                (daily_guild [Server.mkMember 0 1 (Some "1500/A")])
                (Server.mkMember 0 1 (Some "1500/A")) "1500/A"
                eq_refl eq_refl eq_refl ltac:(discriminate) eq_refl eq_refl)
    as (H1 & _ & _ & _ & H5).
  split; [exact H1|].
  refine (proj2 (H5 _ judge_up)).
  intros m Hm _. apply list_elem_of_singleton in Hm. exact Hm.
Defined.

(** C4 as stated fails in two ways on a guild whose only member has
    already submitted: when the judge cannot be reached the reply is the
    fetch error, and when it can, the refresh that follows posts a new
    leaderboard message and records its id in the guild record. *)
Lemma check_already_submitted_counterexample :
  check judge_down submitted_guild "111" "g"
    = ([Reply submissions_error true], submitted_guild)
  /\ ~ replies_already_and_keeps judge_down submitted_guild "111" "g"
  /\ Server.messageId <$> servers (check judge_up submitted_guild "111" "g").2
     = [Some "m1"]
  /\ ~ replies_already_and_keeps judge_up submitted_guild "111" "g".
Proof.
  split_and!.
  - vm_compute. reflexivity.
  - intros [published H]. vm_compute in H. discriminate H.
  - vm_compute. reflexivity.
  - intros [published H]. vm_compute in H. discriminate H.
Qed.

(** ** Fetch failure in the check flow *)

Lemma hasSolvedProblem_fetch_failure (w : World) (handle problemId : string) :
  user_status w handle = HttpError \/ user_status w handle = ApiFailed ->
  hasSolvedProblem w handle problemId
  = if well_formed_problemId problemId then Returned None else Thrown.
Proof.
  intros Hfail. unfold hasSolvedProblem, well_formed_problemId.
  destruct (Js.parseInt _) as [contestId|]; [|reflexivity].
  destruct (Js.split "/" problemId !! 1%nat) as [index|]; [|reflexivity].
  destruct (String.eqb index ""); simpl; [reflexivity|].
  destruct Hfail as [-> | ->]; reflexivity.
Qed.

(** C7: in the check flow, when the submissions request fails (the HTTP
    call fails or the status is not "OK"), hasSolvedProblem returns null
    and does not throw, the caller gets the error reply, and the store is
    left as it was; nothing else is sent.  (For a daily problem id that
    hasSolvedProblem refuses, no request is made; the reply is the check
    error then, and the store is left as it was all the same.) *)
Theorem check_fetch_failure (w : World) (db : DB) (userId guildId : string)
    (user_oid oid : ObjectId) (user : User.t) (server : Server.t)
    (dailyProblemId : string) :
  findOne (by_user_id userId) (users db) = Some (user_oid, user) ->
  findOne (by_guild_with_daily guildId) (servers db) = Some (oid, server) ->
  Server.daily server = Some dailyProblemId ->
  dailyProblemId <> "" ->
  user_status w (User.cfUsername user) = HttpError
    \/ user_status w (User.cfUsername user) = ApiFailed ->
  (well_formed_problemId dailyProblemId = true ->
   hasSolvedProblem w (User.cfUsername user) dailyProblemId = Returned None
   /\ check w db userId guildId = ([Reply submissions_error true], db))
  /\ (well_formed_problemId dailyProblemId = false ->
      check w db userId guildId = ([Reply check_error true], db)).
Proof.
  intros Huser Hserver Hdaily Hne Hfail.
  pose proof (hasSolvedProblem_fetch_failure w (User.cfUsername user)
                dailyProblemId Hfail) as H.
  split; intros Hwf; rewrite Hwf in H; [split; [exact H|]|];
    unfold check, check_handler;
    rewrite Huser, Hserver, Hdaily, (truthy_Some _ Hne); simpl;
    rewrite H; reflexivity.
Qed.

Lemma check_fetch_failure_witness :
  hasSolvedProblem judge_down "alice_cf" "1500/A" = Returned None
  /\ check judge_down submitted_guild "111" "g"
     = ([Reply submissions_error true], submitted_guild).
Proof.
  refine (proj1 (check_fetch_failure judge_down submitted_guild "111" "g"
                   0%nat 0%nat alice
                   (daily_guild [Server.mkMember 0 1 (Some "1500/A")]) "1500/A"
                   eq_refl eq_refl eq_refl _ (or_introl eq_refl)) eq_refl).
  discriminate.
Defined.

(** ** What setdailyproblem changes *)

Ltac not_daily_set H :=
  let before := fresh "before" in
  let rest := fresh "rest" in
  destruct H as (before & rest & H);
  apply (app_inj_tail [] before) in H as [_ H];
  unfold reply, createEmbed in H; simpl in H; discriminate H.

(** C8: a successful setdailyproblem on an existing guild record writes
    that record back with a new daily problem id and nothing else changed:
    the member entries (points and lastSubmitted), both channel ids, the
    message id and the guild id are the same, and so is every other
    document. *)
Theorem setdailyproblem_frame (w : World) (db : DB) (manageGuild : bool)
    (problem_url : option string) (guildId : string)
    (oid : ObjectId) (server : Server.t) :
  findOne (by_guild guildId) (servers db) = Some (oid, server) ->
  daily_set (setdailyproblem w db manageGuild problem_url guildId).1 ->
  let db' := (setdailyproblem w db manageGuild problem_url guildId).2 in
  users db' = users db
  /\ (exists contestId index server',
        servers db' = <[oid := server']> (servers db)
        /\ servers db' !! oid = Some server'
        /\ Server.daily server' = Some (contestId ++ "/" ++ index)
        /\ Server.members server' = Server.members server
        /\ Server.guildId server' = Server.guildId server
        /\ Server.channelId server' = Server.channelId server
        /\ Server.announcementChannelId server' = Server.announcementChannelId server
        /\ Server.messageId server' = Server.messageId server)
  /\ (forall k, k <> oid -> servers db' !! k = servers db !! k).
Proof.
  intros Hfind Hset db'. subst db'. revert Hset. unfold setdailyproblem.
  destruct manageGuild; simpl; [|intros H; not_daily_set H].
  destruct (Js.truthy problem_url); simpl; [|intros H; not_daily_set H].
  destruct (Regex.exec _ _) as [m|]; [|intros H; not_daily_set H].
  destruct (validateProblemUrl w _ _); simpl; [|intros H; not_daily_set H].
  rewrite Hfind.
  destruct (announce w _ guildId) as [announcementSuccess sent]. simpl. intros _.
  apply findOne_lookup in Hfind as [Hlook _].
  split; [reflexivity|]. split.
  - eexists _, _, _. split; [reflexivity|]. split.
    + apply list_lookup_insert_eq. eapply lookup_lt_Some; eauto.
    + simpl. repeat split; reflexivity.
  - intros k Hk. now apply list_lookup_insert_ne.
Qed.

Lemma setdailyproblem_frame_witness :
  let url := "https://codeforces.com/problemset/problem/1500/A" in
  let db' := (setdailyproblem judge_up two_guilds true (Some url) "g").2 in
  users db' = users two_guilds
  /\ (exists contestId index server',
        servers db' = <[1%nat := server']> (servers two_guilds)
        /\ servers db' !! 1%nat = Some server'
        /\ Server.daily server' = Some (contestId ++ "/" ++ index)
        /\ Server.members server' = [Server.mkMember 0 3 (Some "4/A")]
        /\ Server.guildId server' = "g"
        /\ Server.channelId server' = Some "board"
        /\ Server.announcementChannelId server' = Some "news"
        /\ Server.messageId server' = Some "m0")
  /\ (forall k, k <> 1%nat -> servers db' !! k = servers two_guilds !! k).
Proof.
  intros url.
  apply (setdailyproblem_frame judge_up two_guilds true (Some url) "g" 1%nat
           (Server.mk (Some "4/A") [Server.mkMember 0 3 (Some "4/A")] "g"
                      (Some "board") (Some "news") (Some "m0"))
           eq_refl).
  exists [Send "news"
            (createEmbed (Some "Daily Problem Announcement")
               "New Daily Problem: https://codeforces.com/problemset/problem/1500/A")].
  exists url. vm_compute. reflexivity.
Defined.

(** ** The login confirmation gate *)

Ltac is_rejection :=
  unfold rejections;
  repeat first [apply list_elem_of_here | apply list_elem_of_further].

Lemma submission_confirms_true (sub : Submission) (contestId : string)
    (problemIndex : option string) :
  submission_confirms sub contestId problemIndex = Returned true
  <-> exists c,
        Judge.contestId (Judge.problem sub) = Some c
        /\ Js.toString c = contestId
        /\ Some (Judge.index (Judge.problem sub)) = problemIndex
        /\ Judge.verdict sub = Some "COMPILATION_ERROR".
Proof.
  unfold submission_confirms.
  destruct (Judge.contestId (Judge.problem sub)) as [c|].
  - split.
    + intros [= H]. apply andb_prop in H as [H H3]. apply andb_prop in H as [H1 H2].
      exists c. split_and!; trivial.
      * now apply String.eqb_eq.
      * now apply opt_eqb_string.
      * now apply opt_eqb_string.
    + intros (c' & [= <-] & H1 & H2 & H3). f_equal.
      apply String.eqb_eq in H1. apply opt_eqb_string in H2, H3.
      now rewrite H1, H2, H3.
  - split; [discriminate | intros (c & H & _); discriminate].
Qed.

(** The handler, once the custom id is taken apart. *)
Lemma button_decoded (w : World) (db : DB) (customId userId guildId : string)
    (handle problemId : string) :
  Js.startsWith "done|" customId = true ->
  Js.split "|" customId !! 1%nat = Some handle ->
  handle <> "" ->
  Js.split "|" customId !! 2%nat = Some problemId ->
  button w db customId userId guildId
  = match lastcfSubmission w handle with
    | None => ([could_not_retrieve], db)
    | Some sub =>
        match submission_confirms sub
                (default "" (Js.split "/" problemId !! 0%nat))
                (Js.split "/" problemId !! 1%nat) with
        | Thrown => ([unexpected_error], db)
        | Returned true => ([signed_in], create_user (User.mk userId handle guildId) db)
        | Returned false => ([does_not_match], db)
        end
    end.
Proof.
  intros Hstart Hhandle Hne Hproblem. unfold button.
  rewrite Hstart, Hproblem, Hhandle, (truthy_Some _ Hne). reflexivity.
Qed.

(** The two ways the handler can go once the custom id is taken apart. *)
Lemma button_cases (w : World) (db : DB) (customId userId guildId : string)
    (handle problemId : string) :
  Js.startsWith "done|" customId = true ->
  Js.split "|" customId !! 1%nat = Some handle ->
  handle <> "" ->
  Js.split "|" customId !! 2%nat = Some problemId ->
  let contestId := default "" (Js.split "/" problemId !! 0%nat) in
  let problemIndex := Js.split "/" problemId !! 1%nat in
  let result := button w db customId userId guildId in
  (confirmed w handle contestId problemIndex
   /\ result = ([signed_in], create_user (User.mk userId handle guildId) db))
  \/ (~ confirmed w handle contestId problemIndex
      /\ result.2 = db /\ exists r, result.1 = [r] /\ r ∈ rejections).
Proof.
  intros Hstart Hhandle Hne Hproblem contestId problemIndex result.
  subst result.
  rewrite (button_decoded w db customId userId guildId handle problemId
             Hstart Hhandle Hne Hproblem).
  fold contestId problemIndex. unfold confirmed.
  destruct (lastcfSubmission w handle) as [sub|].
  - pose proof (submission_confirms_true sub contestId problemIndex) as Hc.
    destruct (submission_confirms sub contestId problemIndex) as [[|]|].
    + left. split; [|reflexivity].
      destruct (proj1 Hc eq_refl) as (c & H). exists sub, c. tauto.
    + right. split; [intros (sub' & c & [= <-] & H)|].
      * assert (Returned false = Returned true) by (apply Hc; eauto). discriminate.
      * split; [reflexivity|]. exists does_not_match. split; [reflexivity|].
        is_rejection.
    + right. split; [intros (sub' & c & [= <-] & H)|].
      * assert (@Thrown bool = Returned true) by (apply Hc; eauto). discriminate.
      * split; [reflexivity|]. exists unexpected_error. split; [reflexivity|].
        is_rejection.
  - right. split; [intros (sub' & c & H & _); discriminate|].
    split; [reflexivity|]. exists could_not_retrieve. split; [reflexivity|].
    is_rejection.
Qed.

Lemma create_user_grows (u : User.t) (db : DB) : users (create_user u db) <> users db.
Proof.
  intros H. apply (f_equal length) in H. simpl in H.
  rewrite length_app in H. simpl in H. lia.
Qed.

(** The gate on the handle and the problem id that the handler reads from
    the custom id (the second and third part of its split at '|'): a user
    record is created if and only if the latest submission fetched for
    that handle has the contest id and index of that problem id and the
    verdict COMPILATION_ERROR; otherwise the reply is a rejection and the
    store is left as it was. *)
Lemma button_gate (w : World) (db : DB) (customId userId guildId : string)
    (handle problemId : string) :
  Js.startsWith "done|" customId = true ->
  Js.split "|" customId !! 1%nat = Some handle ->
  handle <> "" ->
  Js.split "|" customId !! 2%nat = Some problemId ->
  let contestId := default "" (Js.split "/" problemId !! 0%nat) in
  let problemIndex := Js.split "/" problemId !! 1%nat in
  let result := button w db customId userId guildId in
  (users result.2 <> users db <-> confirmed w handle contestId problemIndex)
  /\ (confirmed w handle contestId problemIndex ->
      result = ([signed_in], create_user (User.mk userId handle guildId) db))
  /\ (~ confirmed w handle contestId problemIndex ->
      result.2 = db /\ exists r, result.1 = [r] /\ r ∈ rejections).
Proof.
  intros Hstart Hhandle Hne Hproblem contestId problemIndex result.
  destruct (button_cases w db customId userId guildId handle problemId
              Hstart Hhandle Hne Hproblem) as [[Hc Hr]|(Hc & Hr & Hrej)];
    fold contestId problemIndex result in Hc, Hr.
  - split_and!; [|tauto|tauto]. rewrite Hr. simpl. split; [tauto|].
    intros _. apply create_user_grows.
  - fold result in Hrej. split_and!; [|tauto|tauto]. rewrite Hr. tauto.
Qed.

Lemma button_gate_witness :
  button judge_abc two_users (done_customId "abc" "100/A") "333" "g"
  = ([signed_in], mkDB [alice; bob; User.mk "333" "abc" "g"] []).
Proof.
  refine (proj1 (proj2 (button_gate judge_abc two_users (done_customId "abc" "100/A")
                          "333" "g" "abc" "100/A" eq_refl eq_refl _ eq_refl)) _).
  - discriminate.
  - exists compile_error_100A, 100. repeat split; reflexivity.
Defined.

(** *** The custom id written by login *)

Lemma split_until (c : ascii) (a b : string) :
  has_char c a = false ->
  Js.split c (a ++ String c b) = a :: Js.split c b.
Proof.
  induction a as [|x a IH]; simpl; intros H.
  - now rewrite Ascii.eqb_refl.
  - apply orb_false_elim in H as [Hx Ha]. rewrite Hx, (IH Ha). reflexivity.
Qed.

Lemma split_none (c : ascii) (a : string) :
  has_char c a = false -> Js.split c a = [a].
Proof.
  induction a as [|x a IH]; simpl; intros H; [reflexivity|].
  apply orb_false_elim in H as [Hx Ha]. rewrite Hx, (IH Ha). reflexivity.
Qed.

(** The handler reads back what [login] wrote, as long as neither part
    contains the separator. *)
Lemma done_customId_split (handle problemId : string) :
  has_char "|" handle = false ->
  has_char "|" problemId = false ->
  Js.split "|" (done_customId handle problemId) = ["done"; handle; problemId].
Proof.
  intros Hh Hp. unfold done_customId.
  change ("done|" ++ handle ++ "|" ++ problemId)
    with ("done" ++ String "|" (handle ++ String "|" problemId)).
  rewrite (split_until "|" "done" _ eq_refl), (split_until "|" handle _ Hh).
  now rewrite (split_none "|" problemId Hp).
Qed.

Lemma done_customId_starts (handle problemId : string) :
  Js.startsWith "done|" (done_customId handle problemId) = true.
Proof. unfold Js.startsWith, done_customId. now destruct handle. Qed.

(** The gate, on the custom id [login] builds for a handle and a problem
    id that do not contain the separator. *)
Corollary button_gate_encoded (w : World) (db : DB) (userId guildId : string)
    (handle problemId : string) :
  handle <> "" ->
  has_char "|" handle = false ->
  has_char "|" problemId = false ->
  let contestId := default "" (Js.split "/" problemId !! 0%nat) in
  let problemIndex := Js.split "/" problemId !! 1%nat in
  let result := button w db (done_customId handle problemId) userId guildId in
  (users result.2 <> users db <-> confirmed w handle contestId problemIndex)
  /\ (confirmed w handle contestId problemIndex ->
      result = ([signed_in], create_user (User.mk userId handle guildId) db))
  /\ (~ confirmed w handle contestId problemIndex ->
      result.2 = db /\ exists r, result.1 = [r] /\ r ∈ rejections).
Proof.
  intros Hne Hh Hp contestId problemIndex result.
  assert (Hsplit := done_customId_split handle problemId Hh Hp).
  destruct (button_cases w db (done_customId handle problemId) userId guildId
              handle problemId (done_customId_starts handle problemId)
              ltac:(now rewrite Hsplit) Hne ltac:(now rewrite Hsplit))
    as [[Hc Hr]|(Hc & Hr & Hrej)];
    fold contestId problemIndex result in Hc, Hr.
  - split_and!; [|tauto|tauto]. rewrite Hr. simpl. split; [tauto|].
    intros _. apply create_user_grows.
  - fold result in Hrej. split_and!; [|tauto|tauto]. rewrite Hr. tauto.
Qed.

(** A handle that contains the separator is read back cut short. *)
Remark done_customId_separator :
  Js.split "|" (done_customId "a|1/A" "200/B") = ["done"; "a"; "1/A"; "200/B"].
Proof. reflexivity. Qed.

(** In general: what follows the first '|' of the handle is read as the
    problem id, and the problem that login picked is not read at all. *)
Lemma button_separator (w : World) (db : DB) (userId guildId : string)
    (handle injected problemId : string) :
  has_char "|" handle = false ->
  has_char "|" injected = false ->
  button w db (done_customId (handle ++ "|" ++ injected) problemId) userId guildId
  = button w db (done_customId handle injected) userId guildId.
Proof.
  intros Hh Hi.
  assert (Hparts : forall rest,
            Js.split "|" ("done|" ++ handle ++ "|" ++ injected ++ rest)
            = "done" :: handle :: match Js.split "|" (injected ++ rest) with
                                  | p :: t => p :: t
                                  | [] => []
                                  end).
  { intros rest.
    change ("done|" ++ handle ++ "|" ++ injected ++ rest)
      with ("done" ++ String "|" (handle ++ String "|" (injected ++ rest))).
    rewrite (split_until "|" "done") by reflexivity.
    rewrite (split_until "|" handle) by exact Hh.
    now destruct (Js.split "|" (injected ++ rest)). }
  assert (Hsplit : Js.split "|" (injected ++ String "|" problemId)
                   = injected :: Js.split "|" problemId)
    by now apply split_until.
  unfold button. rewrite !done_customId_starts.
  rewrite (done_customId_split handle injected Hh Hi).
  unfold done_customId.
  replace ("done|" ++ (handle ++ "|" ++ injected) ++ "|" ++ problemId)
    with ("done|" ++ handle ++ "|" ++ injected ++ String "|" problemId)
    by (cbn [String.append]; f_equal; f_equal; f_equal; f_equal; f_equal;
        rewrite !append_assoc; reflexivity).
  rewrite (Hparts (String "|" problemId)), Hsplit. reflexivity.
Qed.

(** C5: the handler reads the handle and the problem id back by splitting
    the custom id at '|', and login takes any handle.  For the handle
    "victim|1234/A" and the picked problem 777/B, login builds the custom
    id "done|victim|1234/A|777/B"; the press on it fetches the latest
    submission of "victim", compares it with 1234/A, and creates a user
    record for "victim", although no submission on the encoded problem
    777/B was fetched and the handle given has no submission at all: the
    record is created where the condition of the confirmation gate does
    not hold. *)
Theorem button_gate_separator :
  (exists e,
     login judge_victim 0 (Some "victim|1234/A")
     = LoginPrompt e (done_customId "victim|1234/A" "777/B"))
  /\ done_customId "victim|1234/A" "777/B" = "done|victim|1234/A|777/B"
  /\ lastcfSubmission judge_victim "victim|1234/A" = None
  /\ ~ confirmed judge_victim "victim|1234/A" "777" (Some "B")
  /\ ~ confirmed judge_victim "victim" "777" (Some "B")
  /\ button judge_victim (mkDB [] []) (done_customId "victim|1234/A" "777/B")
            "999" "g"
     = ([signed_in], mkDB [User.mk "999" "victim" "g"] []).
Proof.
  split_and!.
  - eexists. reflexivity.
  - reflexivity.
  - reflexivity.
  - intros (sub & c & H & _). discriminate H.
  - intros (sub & c & H & Hc & Hs & _). injection H as <-.
    injection Hc as <-. discriminate Hs.
  - reflexivity.
Qed.

(** ** The ids stored by setdailyproblem *)

Lemma star_inv {R : Type} (cls : ascii -> bool) (s : string)
    (k : string -> option R) (r : R) :
  Regex.star cls s k = Some r ->
  exists pre rest, s = pre ++ rest /\ all_chars cls pre = true /\ k rest = Some r.
Proof.
  induction s as [|c s IH]; simpl; intros H.
  - now exists "", "".
  - destruct (cls c) eqn:Hc; [|now exists "", (String c s)].
    destruct (Regex.star cls s k) as [r'|] eqn:Hs; [|now exists "", (String c s)].
    destruct (IH H) as (pre & rest & -> & Hpre & Hk).
    exists (String c pre), rest. simpl. rewrite Hc, Hpre. now split_and!.
Qed.

Lemma length_append (a b : string) :
  String.length (a ++ b) = (String.length a + String.length b)%nat.
Proof. induction a as [|x a IH]; simpl; [reflexivity | now rewrite IH]. Qed.

Lemma substring_prefix (a b : string) : substring 0 (String.length a) (a ++ b) = a.
Proof.
  induction a as [|x a IH]; simpl; [now destruct b | now rewrite IH].
Qed.

Lemma consumed_append (pre rest : string) : Regex.consumed (pre ++ rest) rest = pre.
Proof.
  unfold Regex.consumed. rewrite length_append.
  replace (String.length pre + String.length rest - String.length rest)%nat
    with (String.length pre) by lia.
  apply substring_prefix.
Qed.

(** A match of [cls+] from the start of [s], recorded as group [n]. *)
Lemma plus_group_inv (n : nat) (cls : ascii -> bool) (s : string)
    (caps : Regex.captures) (k : string -> Regex.captures -> option Regex.captures)
    (m : Regex.captures) :
  Regex.run (Regex.Group n (Regex.Plus cls)) s caps k = Some m ->
  exists found rest,
    s = found ++ rest /\ found <> "" /\ all_chars cls found = true
    /\ k rest ((n, found) :: caps) = Some m.
Proof.
  simpl. destruct s as [|c s]; [discriminate|].
  destruct (cls c) eqn:Hc; [|discriminate].
  intros (pre & rest & -> & Hpre & Hk)%star_inv.
  exists (String c pre), rest. simpl. rewrite Hc, Hpre.
  split_and!; [reflexivity | discriminate | reflexivity |].
  now rewrite <- (consumed_append (String c pre) rest).
Qed.

Lemma run_seq {R : Type} (r1 r2 : Regex.regex) (s : string) (caps : Regex.captures)
    (k : string -> Regex.captures -> option R) :
  Regex.run (Regex.Seq r1 r2) s caps k
  = Regex.run r1 s caps (fun rest caps' => Regex.run r2 rest caps' k).
Proof. reflexivity. Qed.

Lemma run_lit {R : Type} (p s : string) (caps : Regex.captures)
    (k : string -> Regex.captures -> option R) :
  Regex.run (Regex.Lit p) s caps k
  = match Regex.strip_prefix p s with
    | Some rest => k rest caps
    | None => None
    end.
Proof. reflexivity. Qed.

Lemma run_alt {R : Type} (r1 r2 : Regex.regex) (s : string) (caps : Regex.captures)
    (k : string -> Regex.captures -> option R) :
  Regex.run (Regex.Alt r1 r2) s caps k
  = match Regex.run r1 s caps k with
    | Some x => Some x
    | None => Regex.run r2 s caps k
    end.
Proof. reflexivity. Qed.

Lemma problem_url_run_groups (s : string) (m : Regex.captures) :
  Regex.run problem_url_regex s [] (fun _ caps => Some caps) = Some m ->
  exists contestId index,
    m = [(2%nat, index); (1%nat, contestId)]
    /\ contestId <> "" /\ all_chars Js.is_digit contestId = true
    /\ index <> "" /\ all_chars is_index_char index = true.
Proof.
  unfold problem_url_regex.
  set (tail := Regex.Seq (Regex.Lit "/problem/") _).
  assert (Htail : forall rest (caps : Regex.captures),
    Regex.run tail rest caps (fun _ caps' => Some caps') = Some m ->
    exists contestId index,
      m = (2%nat, index) :: (1%nat, contestId) :: caps
      /\ contestId <> "" /\ all_chars Js.is_digit contestId = true
      /\ index <> "" /\ all_chars is_index_char index = true).
  { intros rest caps. subst tail. rewrite run_seq, run_lit.
    destruct (Regex.strip_prefix "/problem/" rest) as [r1|]; [|discriminate].
    rewrite run_seq.
    intros (contestId & r2 & -> & Hc1 & Hc2 & H)%plus_group_inv.
    rewrite run_seq, run_lit in H.
    destruct (Regex.strip_prefix "/" r2) as [r3|]; [|discriminate].
    apply plus_group_inv in H as (index & r4 & -> & Hi1 & Hi2 & [= <-]).
    now exists contestId, index. }
  rewrite run_seq, run_lit.
  destruct (Regex.strip_prefix "/" s) as [r0|]; [|discriminate].
  rewrite run_seq, run_alt, !run_lit.
  destruct (Regex.strip_prefix "contest" r0) as [r1|].
  - destruct (Regex.run tail r1 [] _) as [m'|] eqn:H1.
    + intros [= <-]. exact (Htail r1 [] H1).
    + destruct (Regex.strip_prefix "problemset" r0) as [r2|]; [|discriminate].
      apply Htail.
  - destruct (Regex.strip_prefix "problemset" r0) as [r2|]; [|discriminate].
    apply Htail.
Qed.

Lemma problem_url_groups (url : string) (m : Regex.captures) :
  Regex.exec problem_url_regex url = Some m ->
  exists contestId index,
    m = [(2%nat, index); (1%nat, contestId)]
    /\ contestId <> "" /\ all_chars Js.is_digit contestId = true
    /\ index <> "" /\ all_chars is_index_char index = true.
Proof.
  induction url as [|c url IH]; cbn [Regex.exec].
  - destruct (Regex.run problem_url_regex "" [] _) as [m'|] eqn:H; [|discriminate].
    intros [= <-]. now apply problem_url_run_groups in H.
  - destruct (Regex.run problem_url_regex (String c url) [] _) as [m'|] eqn:H;
      [|exact IH].
    intros [= <-]. now apply problem_url_run_groups in H.
Qed.

Lemma all_chars_has_char (cls : ascii -> bool) (c : ascii) (s : string) :
  cls c = false -> all_chars cls s = true -> has_char c s = false.
Proof.
  intros Hc. induction s as [|x s IH]; simpl; [reflexivity|].
  intros [Hx Hs]%andb_prop. rewrite (IH Hs), orb_false_r.
  destruct (Ascii.eqb_spec x c); [congruence | reflexivity].
Qed.

Lemma read_digits_Some (x : Z) (s : string) :
  exists y, Js.read_digits (Some x) s = Some y.
Proof.
  revert x. induction s as [|c s IH]; intros x; simpl; [eauto|].
  destruct (Js.is_digit c); eauto.
Qed.

Lemma parseInt_digits (s : string) :
  s <> "" -> all_chars Js.is_digit s = true -> exists z, Js.parseInt s = Some z.
Proof.
  destruct s as [|c s]; [congruence|]. simpl. intros _ [Hc _]%andb_prop.
  assert (H : Js.parseInt (String c s)
              = Js.read_digits (Some (10 * 0 + Js.digit_val c)) s).
  { unfold Js.parseInt.
    destruct c as [[] [] [] [] [] [] [] []]; try discriminate Hc; reflexivity. }
  rewrite H. apply read_digits_Some.
Qed.

(** An id built from the two groups of the pattern passes the guard of
    hasSolvedProblem. *)
Lemma built_id_well_formed (contestId index : string) :
  contestId <> "" -> all_chars Js.is_digit contestId = true ->
  index <> "" -> all_chars is_index_char index = true ->
  well_formed_problemId (contestId ++ "/" ++ index) = true.
Proof.
  intros Hc1 Hc2 Hi1 Hi2. unfold well_formed_problemId.
  change (contestId ++ "/" ++ index) with (contestId ++ String "/" index).
  rewrite (split_until "/" contestId index
             (all_chars_has_char Js.is_digit "/" contestId eq_refl Hc2)).
  rewrite (split_none "/" index
             (all_chars_has_char is_index_char "/" index eq_refl Hi2)).
  simpl. destruct (parseInt_digits contestId Hc1 Hc2) as [z ->].
  destruct (String.eqb_spec index ""); [contradiction | reflexivity].
Qed.

(** setdailyproblem only ever stores ids that hasSolvedProblem accepts, so
    in a store filled by it a failed submissions request always ends in
    the "error checking your submissions" reply. *)
Lemma setdailyproblem_dailies_well_formed (w : World) (db : DB)
    (manageGuild : bool) (problem_url : option string) (guildId : string) :
  dailies_well_formed db ->
  dailies_well_formed (setdailyproblem w db manageGuild problem_url guildId).2.
Proof.
  intros Hdb. unfold setdailyproblem.
  destruct manageGuild; simpl; [|exact Hdb].
  destruct (Js.truthy problem_url); simpl; [|exact Hdb].
  destruct (Regex.exec _ _) as [m|] eqn:Hm; [|exact Hdb].
  destruct (validateProblemUrl w _ _); simpl; [|exact Hdb].
  apply problem_url_groups in Hm as (contestId & index & -> & Hc1 & Hc2 & Hi1 & Hi2).
  pose proof (built_id_well_formed contestId index Hc1 Hc2 Hi1 Hi2) as Hwf.
  cbn [Regex.group Nat.eqb default].
  destruct (findOne (by_guild guildId) (servers db)) as [[oid server]|] eqn:Hfind;
    destruct (announce w _ guildId) as [ok sent]; simpl; intros s d Hs Hd.
  - apply list_elem_of_lookup_1 in Hs as [k Hk].
    apply list_lookup_insert_Some in Hk as [(_ & <- & _)|[_ Hk]].
    + simpl in Hd. now injection Hd as <-.
    + eapply Hdb; [eapply list_elem_of_lookup_2|]; eauto.
  - apply elem_of_app in Hs as [Hs|Hs%list_elem_of_singleton].
    + eapply Hdb; eauto.
    + subst s. simpl in Hd. now injection Hd as <-.
Qed.

(** *** The other handlers keep the ids *)

Lemma same_daily_insert (l : list Server.t) (oid : nat) (server : Server.t)
    (ms : list Server.member) :
  l !! oid = Some server ->
  Forall2 (fun s s' => Server.daily s' = Server.daily s) l
          (<[oid := Server.set_members ms server]> l).
Proof.
  intros Hlook. rewrite <- (list_insert_id l oid server Hlook) at 1.
  apply Forall2_insert; [|reflexivity].
  apply Forall_Forall2_diag, Forall_forall. reflexivity.
Qed.

Lemma check_handler_dailies (w : World) (db : DB) (userId guildId : string) :
  Forall2 (fun s s' => Server.daily s' = Server.daily s)
          (servers db) (servers (check_handler w db userId guildId).1.2).
Proof.
  assert (Hsame : Forall2 (fun s s' => Server.daily s' = Server.daily s)
                          (servers db) (servers db))
    by (apply Forall_Forall2_diag, Forall_forall; reflexivity).
  unfold check_handler.
  destruct (findOne (by_user_id userId) (users db)) as [[user_oid user]|];
    [|exact Hsame].
  destruct (findOne (by_guild_with_daily guildId) (servers db))
    as [[oid server]|] eqn:Hserver; [|exact Hsame].
  apply findOne_lookup in Hserver as [Hlook _].
  destruct (Js.truthy (Server.daily server)); simpl; [|exact Hsame].
  destruct (hasSolvedProblem w _ _) as [[solved|]|]; try exact Hsame.
  destruct (findOne (is_member_of db user) (Server.members server)) as [[j member]|].
  - destruct (opt_eqb String.eqb _ _); [exact Hsame|].
    simpl. now apply same_daily_insert.
  - simpl. now apply same_daily_insert.
Qed.

Lemma dailies_preserved (db db' : DB) :
  Forall2 (fun s s' => Server.daily s' = Server.daily s) (servers db) (servers db') ->
  dailies_well_formed db -> dailies_well_formed db'.
Proof.
  intros Hall Hdb s' d Hs' Hd.
  apply list_elem_of_lookup_1 in Hs' as [k Hk].
  destruct (Forall2_lookup_r _ _ _ _ _ Hall Hk) as (s & Hs & Hss).
  apply (Hdb s d); [eapply list_elem_of_lookup_2; eauto | congruence].
Qed.

Lemma check_dailies_well_formed (w : World) (db : DB) (userId guildId : string) :
  dailies_well_formed db -> dailies_well_formed (check w db userId guildId).2.
Proof.
  intros Hdb.
  apply (dailies_preserved (check_handler w db userId guildId).1.2).
  - eapply Forall2_impl; [apply check_frame|]. now intros s s' (H & _).
  - now apply (dailies_preserved db); [apply check_handler_dailies|].
Qed.

Lemma button_servers (w : World) (db : DB) (customId userId guildId : string) :
  servers (button w db customId userId guildId).2 = servers db.
Proof.
  unfold button.
  destruct (Js.startsWith _ _); [|reflexivity].
  destruct (Js.split "|" customId !! 2%nat); [|reflexivity].
  destruct (negb _); [reflexivity|].
  destruct (lastcfSubmission w _); [|reflexivity].
  now destruct (submission_confirms _ _ _) as [[|]|].
Qed.

(** In every store reached from the empty one by the modelled handlers,
    the daily problem ids pass the guard of hasSolvedProblem. *)
Lemma reachable_dailies_well_formed (db : DB) :
  reachable db -> dailies_well_formed db.
Proof.
  induction 1 as [|w db ? ? ? _ IH|w db ? ? _ IH|w db ? ? ? _ IH].
  - intros s d Hs. inversion Hs.
  - now apply setdailyproblem_dailies_well_formed.
  - now apply check_dailies_well_formed.
  - intros s d Hs. rewrite button_servers in Hs. now apply IH.
Qed.

(** So in a reachable store a failed submissions request is always
    reported as such, and nothing is written. *)
Corollary reachable_fetch_failure (w : World) (db : DB) (userId guildId : string)
    (user_oid oid : ObjectId) (user : User.t) (server : Server.t)
    (dailyProblemId : string) :
  reachable db ->
  findOne (by_user_id userId) (users db) = Some (user_oid, user) ->
  findOne (by_guild_with_daily guildId) (servers db) = Some (oid, server) ->
  Server.daily server = Some dailyProblemId ->
  dailyProblemId <> "" ->
  user_status w (User.cfUsername user) = HttpError
    \/ user_status w (User.cfUsername user) = ApiFailed ->
  hasSolvedProblem w (User.cfUsername user) dailyProblemId = Returned None
  /\ check w db userId guildId = ([Reply submissions_error true], db).
Proof.
  intros Hreach Huser Hserver Hdaily Hne Hfail.
  assert (Hwf : well_formed_problemId dailyProblemId = true).
  { apply (reachable_dailies_well_formed db Hreach server); [|exact Hdaily].
    apply findOne_lookup in Hserver as [Hlook _].
    eapply list_elem_of_lookup_2; eauto. }
  pose proof (hasSolvedProblem_fetch_failure w (User.cfUsername user)
                dailyProblemId Hfail) as H.
  rewrite Hwf in H. split; [exact H|].
  unfold check, check_handler.
  rewrite Huser, Hserver, Hdaily, (truthy_Some _ Hne). simpl.
  now rewrite H.
Qed.

(** ** The embeds the two leaderboard paths send *)

Lemma updateLeaderboard_published (w : World) (db : DB) (guildId : string)
    (a : Action) :
  a ∈ (updateLeaderboard w db guildId).2 ->
  exists oid server chan,
    findOne (by_guild guildId) (servers db) = Some (oid, server)
    /\ (a = Send chan (leaderboard_embed db server)
        \/ exists mid, a = Edit chan mid (leaderboard_embed db server)).
Proof.
  unfold updateLeaderboard.
  destruct (findOne (by_guild guildId) (servers db)) as [[oid server]|];
    [|intros H; inversion H].
  destruct (Server.members server) as [|m0 ms] eqn:Hms; [intros H; inversion H|].
  destruct (Js.truthy _); [|intros H; inversion H].
  destruct (text_channel w _); [|intros H; inversion H].
  set (chan := default "" _). set (e := createEmbed _ _).
  assert (He : e = leaderboard_embed db server)
    by (unfold e, leaderboard_embed; now rewrite Hms).
  assert (Hsend : a ∈ (match channel_send w chan e with
                       | Some mid =>
                           (true,
                            save_server oid
                              (Server.set_messageId (Some mid)
                                 (Server.set_members (sort_members (m0 :: ms)) server))
                              db,
                            [Send chan e])
                       | None => (false, db, [])
                       end).2 ->
          exists oid' server' chan',
            Some (oid, server) = Some (oid', server')
            /\ (a = Send chan' (leaderboard_embed db server')
                \/ exists mid, a = Edit chan' mid (leaderboard_embed db server'))).
  { destruct (channel_send w chan e); simpl; [|intros H; inversion H].
    intros ->%list_elem_of_singleton. exists oid, server, chan. rewrite He. eauto. }
  destruct (Js.truthy _); [|exact Hsend].
  destruct (message_fetch w _ _); [|exact Hsend].
  destruct (message_edit w _ _ _); simpl; [|intros H; inversion H].
  intros ->%list_elem_of_singleton. exists oid, server, chan. rewrite He. eauto.
Qed.

(** X25: whatever updateLeaderboard posts for a guild with a daily problem
    is the embed the leaderboard command replies with. *)
Lemma leaderboard_paths_agree (w : World) (db : DB) (guildId : string)
    (oid : ObjectId) (server : Server.t) (a : Action) :
  findOne (by_guild guildId) (servers db) = Some (oid, server) ->
  Js.truthy (Server.daily server) = true ->
  a ∈ (updateLeaderboard w db guildId).2 ->
  exists e chan,
    (a = Send chan e \/ exists mid, a = Edit chan mid e)
    /\ leaderboard db guildId = [Reply e false].
Proof.
  intros Hfind Hdaily Ha.
  assert (Hms : Server.members server <> []).
  { intros Hms. unfold updateLeaderboard in Ha. rewrite Hfind, Hms in Ha.
    inversion Ha. }
  apply updateLeaderboard_published in Ha as (oid' & server' & chan & Hf & Ha).
  rewrite Hfind in Hf. injection Hf as <- <-.
  exists (leaderboard_embed db server), chan. split; [exact Ha|].
  unfold leaderboard. rewrite Hfind, Hdaily. simpl.
  destruct (Server.members server) as [|m0 ms] eqn:E; [contradiction|].
  unfold leaderboard_embed. now rewrite leaderboard_texts_agree_aux, E.
Qed.

(** * Further properties *)

(** ** Uptime and sorting *)

Lemma formatUptime_digits_witness :
  exists d h m s,
    formatUptime 90061
      = Js.toString d ++ "d, " ++ Js.toString h ++ "h, "
          ++ Js.toString m ++ "m, " ++ Js.toString s ++ "s"
    /\ 90061 = 86400 * d + 3600 * h + 60 * m + s
    /\ 0 <= d /\ 0 <= h < 24 /\ 0 <= m < 60 /\ 0 <= s < 60.
Proof. apply (formatUptime_digits 90061). split; [lia|reflexivity]. Defined.

(** X2: the sort of the two leaderboard paths keeps every member entry
    and puts them in order of points, highest first. *)
Theorem sort_members_orders (ms : list Server.member) :
  Permutation (sort_members ms) ms
  /\ StronglySorted higher_first (sort_members ms)
  /\ forall i j a b,
       (i < j)%nat -> sort_members ms !! i = Some a -> sort_members ms !! j = Some b ->
       Server.points b <= Server.points a.
Proof.
  split; [apply sort_members_perm|]. split; [apply sort_members_sorted|].
  intros i j a b Hij Ha Hb.
  pose proof (sort_members_sorted ms) as Hs.
  assert (Hsplit : sort_members ms
                   = (take j (sort_members ms) ++ drop j (sort_members ms))%list)
    by (now rewrite take_drop).
  rewrite Hsplit in Hs.
  apply (StronglySorted_app_1_elem_of higher_first _ _ a b Hs).
  - apply list_elem_of_lookup_2 with i. rewrite lookup_take_lt; trivial.
  - apply list_elem_of_lookup_2 with 0%nat. rewrite lookup_drop.
    now rewrite Nat.add_0_r.
Qed.

(** ** hasSolvedProblem and validateProblemUrl *)

(** When the model of hasSolvedProblem answers true, in terms of what it
    parsed from the problem id. *)
Lemma hasSolvedProblem_true_parsed (w : World) (handle problemId : string) :
  hasSolvedProblem w handle problemId = Returned (Some true)
  <-> exists contestId index submissions sub,
        Js.parseInt (default "" (Js.split "/" problemId !! 0%nat)) = Some contestId
        /\ Js.split "/" problemId !! 1%nat = Some index
        /\ index <> ""
        /\ user_status w handle = ApiOk submissions
        /\ sub ∈ submissions
        /\ Judge.contestId (Judge.problem sub) = Some contestId
        /\ Judge.index (Judge.problem sub) = index
        /\ Judge.verdict sub = Some "OK".
Proof.
  unfold hasSolvedProblem.
  destruct (Js.parseInt _) as [contestId|];
    [|split; [discriminate | intros (? & ? & ? & ? & [=] & _)]].
  destruct (Js.split "/" problemId !! 1%nat) as [index|];
    [|split; [discriminate | intros (? & ? & ? & ? & _ & [=] & _)]].
  destruct (String.eqb_spec index "") as [->|Hne].
  { split; [discriminate | intros (? & ? & ? & ? & _ & [= <-] & H & _); congruence]. }
  destruct (user_status w handle) as [| |submissions];
    try (split; [discriminate | intros (? & ? & ? & ? & _ & _ & _ & [=] & _)]).
  split.
  - intros [= H]. apply existsb_exists in H as (sub & Hin & Hsub).
    unfold is_accepted_for in Hsub.
    apply andb_prop in Hsub as [Hsub H3]. apply andb_prop in Hsub as [H1 H2].
    exists contestId, index, submissions, sub.
    split_and!; trivial.
    + now apply list_elem_of_In.
    + destruct (Judge.contestId (Judge.problem sub)) as [c|]; [|discriminate].
      simpl in H1. apply Z.eqb_eq in H1. now subst.
    + now apply String.eqb_eq.
    + now apply opt_eqb_string.
  - intros (c & i & subs & sub & [= <-] & [= <-] & _ & [= <-] & Hin & H1 & H2 & H3).
    do 2 f_equal. apply existsb_exists. exists sub.
    split; [now apply list_elem_of_In|].
    unfold is_accepted_for. rewrite H1, H2, H3. simpl.
    now rewrite Z.eqb_refl, String.eqb_refl.
Qed.

(** The test of [problems.some] in validateProblemUrl, on a problem that
    has a contest id. *)
Lemma some_problem_first (contestId index : string) (problems : list Problem) :
  some_problem contestId index problems = Returned true
  <-> exists before p rest c,
        problems = (before ++ p :: rest)%list
        /\ Forall (fun q => exists d,
                     Judge.contestId q = Some d
                     /\ ~ (Js.toString d = contestId /\ Judge.index q = index))
                  before
        /\ Judge.contestId p = Some c
        /\ Js.toString c = contestId
        /\ Judge.index p = index.
Proof.
  induction problems as [|q problems IH]; simpl.
  - split; [discriminate|]. intros (before & p & rest & c & H & _).
    now destruct before.
  - destruct (Judge.contestId q) as [d|] eqn:Hd.
    + destruct (String.eqb_spec (Js.toString d) contestId) as [H1|H1]; simpl.
      * destruct (String.eqb_spec (Judge.index q) index) as [H2|H2].
        -- split; [intros _|reflexivity].
           exists [], q, problems, d. split_and!; trivial.
        -- rewrite IH. split.
           ++ intros (before & p & rest & c & -> & Hb & Hp).
              exists (q :: before), p, rest, c. split_and!; try tauto.
              constructor; [|exact Hb]. exists d. tauto.
           ++ intros (before & p & rest & c & Heq & Hb & Hc & Hp).
              destruct before as [|q' before]; simpl in Heq; injection Heq as <- ->.
              { rewrite Hd in Hc. injection Hc as <-. tauto. }
              apply Forall_cons in Hb as [_ Hb]. exists before, p, rest, c. tauto.
      * rewrite IH. split.
        -- intros (before & p & rest & c & -> & Hb & Hp).
           exists (q :: before), p, rest, c. split_and!; try tauto.
           constructor; [|exact Hb]. exists d. tauto.
        -- intros (before & p & rest & c & Heq & Hb & Hc & Hp).
           destruct before as [|q' before]; simpl in Heq; injection Heq as <- ->.
           { rewrite Hd in Hc. injection Hc as <-. tauto. }
           apply Forall_cons in Hb as [_ Hb]. exists before, p, rest, c. tauto.
    + split; [discriminate|].
      intros (before & p & rest & c & Heq & Hb & Hc & Hp).
      destruct before as [|q' before]; simpl in Heq; injection Heq as <- ->.
      * congruence.
      * apply Forall_cons in Hb as [(d & Hd' & _) _]. congruence.
Qed.

(** X5: validateProblemUrl answers true exactly when the judge's answer
    has status OK and lists a problem with that contest id and index
    before any problem that has no contest id; a failed request, another
    status, or an id-less problem met first give false. *)
Theorem validateProblemUrl_true_iff (w : World) (contestId index : string) :
  validateProblemUrl w contestId index = true
  <-> exists before p rest c,
        problemset_problems w = ApiOk (before ++ p :: rest)%list
        /\ Forall (fun q => exists d,
                     Judge.contestId q = Some d
                     /\ ~ (Js.toString d = contestId /\ Judge.index q = index))
                  before
        /\ Judge.contestId p = Some c
        /\ Js.toString c = contestId
        /\ Judge.index p = index.
Proof.
  unfold validateProblemUrl.
  destruct (problemset_problems w) as [| |problems];
    try (split; [discriminate | intros (? & ? & ? & ? & [=] & _)]).
  pose proof (some_problem_first contestId index problems) as H.
  destruct (some_problem contestId index problems) as [[|]|].
  - split; [intros _|reflexivity].
    destruct (proj1 H eq_refl) as (before & p & rest & c & -> & Hrest).
    now exists before, p, rest, c.
  - split; [discriminate|].
    intros (before & p & rest & c & [= ->] & Hrest).
    assert (Returned false = Returned true) by (apply H; eauto 10). discriminate.
  - split; [discriminate|].
    intros (before & p & rest & c & [= ->] & Hrest).
    assert (@Thrown bool = Returned true) by (apply H; eauto 10). discriminate.
Qed.

(** ** Numbers as strings *)

Ltac digit_value :=
  match goal with
  | |- context [Z.of_nat (nat_of_ascii ?c) - 48] =>
      let v := eval vm_compute in (Z.of_nat (nat_of_ascii c) - 48) in
      change (Z.of_nat (nat_of_ascii c) - 48) with v
  end.

Lemma uint_digits (d : Decimal.uint) :
  all_chars Js.is_digit (NilEmpty.string_of_uint d) = true.
Proof. induction d; simpl; trivial. Qed.

Lemma toString_pos (p : positive) :
  Js.toString (Z.pos p) = NilEmpty.string_of_uint (Pos.to_uint p).
Proof.
  unfold Js.toString. simpl.
  pose proof (Unsigned.to_uint_nonnil p) as H.
  now destruct (Pos.to_uint p).
Qed.

Lemma toString_nonneg (z : Z) :
  0 <= z -> Js.toString z <> "" /\ all_chars Js.is_digit (Js.toString z) = true.
Proof.
  destruct z as [|p|p]; [now split| |lia]. intros _.
  rewrite toString_pos. split; [|apply uint_digits].
  pose proof (Unsigned.to_uint_nonnil p) as H.
  now destruct (Pos.to_uint p).
Qed.

Lemma toString_digits (z : Z) :
  all_chars Js.is_digit (Js.toString z) = true -> 0 <= z.
Proof. destruct z as [|p|p]; [lia | lia | discriminate]. Qed.

Lemma toString_inj (a b : Z) : Js.toString a = Js.toString b -> a = b.
Proof.
  unfold Js.toString. intros H.
  assert (Hnorm : forall z, Z.to_int z <> Decimal.Pos Decimal.Nil
                            /\ Z.to_int z <> Decimal.Neg Decimal.Nil).
  { intros [|p|p]; simpl; split; try discriminate;
      intros [= E]; now apply (Unsigned.to_uint_nonnil p). }
  destruct (Hnorm a) as [Ha1 Ha2], (Hnorm b) as [Hb1 Hb2].
  pose proof (NilZero.isi _ Ha1 Ha2) as Ea. pose proof (NilZero.isi _ Hb1 Hb2) as Eb.
  rewrite H, Eb in Ea. injection Ea as Ea.
  rewrite <- (DecimalZ.of_to a), <- (DecimalZ.of_to b). now rewrite Ea.
Qed.

Lemma read_digits_acc (d : Decimal.uint) (acc : positive) :
  Js.read_digits (Some (Z.pos acc)) (NilEmpty.string_of_uint d)
  = Some (Z.pos (Pos.of_uint_acc d acc)).
Proof.
  revert acc. induction d; intros acc; simpl; trivial;
    unfold Js.digit_val; digit_value;
    match goal with
    | |- Js.read_digits (Some ?x) _ = Some (Z.pos (Pos.of_uint_acc _ ?y)) =>
        replace x with (Z.pos y) by lia; apply IHd
    end.
Qed.

Lemma read_digits_uint (d : Decimal.uint) :
  Js.read_digits (Some 0) (NilEmpty.string_of_uint d) = Some (Z.of_N (Pos.of_uint d)).
Proof.
  induction d; simpl; trivial; unfold Js.digit_val; digit_value;
    first [exact IHd | apply (read_digits_acc d)].
Qed.

Lemma parseInt_from_digit (c : ascii) (s : string) :
  Js.is_digit c = true ->
  Js.parseInt (String c s) = Js.read_digits (Some 0) (String c s).
Proof.
  intros Hc. unfold Js.parseInt.
  destruct c as [[] [] [] [] [] [] [] []]; try discriminate Hc; reflexivity.
Qed.

(** [parseInt] reads back what [toString] wrote. *)
Lemma parseInt_toString (z : Z) : 0 <= z -> Js.parseInt (Js.toString z) = Some z.
Proof.
  destruct z as [|p|p]; [reflexivity| |lia]. intros _.
  rewrite toString_pos.
  pose proof (Unsigned.to_uint_nonnil p) as Hnil.
  pose proof (uint_digits (Pos.to_uint p)) as Hd.
  pose proof (read_digits_uint (Pos.to_uint p)) as Hr.
  rewrite Unsigned.of_to in Hr.
  destruct (NilEmpty.string_of_uint (Pos.to_uint p)) as [|c s] eqn:E.
  - now destruct (Pos.to_uint p).
  - simpl in Hd. apply andb_prop in Hd as [Hc _].
    now rewrite (parseInt_from_digit c s Hc).
Qed.

(** ** URLs the bot writes, read by its own pattern *)

Lemma star_greedy {R : Type} (cls : ascii -> bool) (pre rest : string)
    (k : string -> option R) (r : R) :
  all_chars cls pre = true ->
  (forall c rest', rest = String c rest' -> cls c = false) ->
  k rest = Some r ->
  Regex.star cls (pre ++ rest) k = Some r.
Proof.
  intros Hpre Hrest Hk. induction pre as [|c pre IH]; simpl.
  - destruct rest as [|c rest']; simpl; [exact Hk|].
    now rewrite (Hrest c rest' eq_refl).
  - simpl in Hpre. apply andb_prop in Hpre as [Hc Hpre].
    now rewrite Hc, (IH Hpre).
Qed.

Lemma plus_group_run (n : nat) (cls : ascii -> bool) (found rest : string)
    (caps : Regex.captures) (k : string -> Regex.captures -> option Regex.captures)
    (m : Regex.captures) :
  found <> "" -> all_chars cls found = true ->
  (forall c rest', rest = String c rest' -> cls c = false) ->
  k rest ((n, found) :: caps) = Some m ->
  Regex.run (Regex.Group n (Regex.Plus cls)) (found ++ rest) caps k = Some m.
Proof.
  intros Hne Hfound Hrest Hk. destruct found as [|c found]; [congruence|].
  simpl in Hfound. apply andb_prop in Hfound as [Hc Hfound].
  cbn [Regex.run String.append]. rewrite Hc.
  apply star_greedy; trivial.
  change (String c (found ++ rest)) with (String c found ++ rest).
  now rewrite consumed_append.
Qed.

Lemma run_not_slash (c : ascii) (s : string)
    (k : string -> Regex.captures -> option Regex.captures) :
  Ascii.eqb c "/" = false ->
  Regex.run problem_url_regex (String c s) [] k = None.
Proof.
  intros Hc. unfold problem_url_regex. rewrite run_seq, run_lit.
  cbn [Regex.strip_prefix]. rewrite Ascii.eqb_sym in Hc. now rewrite Hc.
Qed.

Lemma run_slash_fail (s : string)
    (k : string -> Regex.captures -> option Regex.captures) :
  Regex.strip_prefix "contest" s = None ->
  Regex.strip_prefix "problemset" s = None ->
  Regex.run problem_url_regex (String "/" s) [] k = None.
Proof.
  intros H1 H2. unfold problem_url_regex.
  rewrite run_seq, run_lit. cbn [Regex.strip_prefix].
  rewrite Ascii.eqb_refl, run_seq, run_alt, !run_lit. now rewrite H1, H2.
Qed.

Lemma exec_next (c : ascii) (s : string) :
  Regex.run problem_url_regex (String c s) [] (fun _ caps => Some caps) = None ->
  Regex.exec problem_url_regex (String c s) = Regex.exec problem_url_regex s.
Proof. intros H. cbn [Regex.exec]. now rewrite H. Qed.

Lemma exec_skip (s rest : string) :
  has_char "/" s = false ->
  Regex.exec problem_url_regex (s ++ rest) = Regex.exec problem_url_regex rest.
Proof.
  induction s as [|c s IH]; cbn [String.append has_char]; [reflexivity|].
  intros [Hc Hs]%orb_false_elim.
  rewrite exec_next; [auto | now apply run_not_slash].
Qed.

Lemma exec_slash (s : string) :
  Regex.strip_prefix "contest" s = None ->
  Regex.strip_prefix "problemset" s = None ->
  Regex.exec problem_url_regex (String "/" s) = Regex.exec problem_url_regex s.
Proof. intros H1 H2. apply exec_next. now apply run_slash_fail. Qed.

Lemma strip_prefix_other (a c : ascii) (p s : string) :
  Ascii.eqb a c = false -> Regex.strip_prefix (String a p) (String c s) = None.
Proof. intros H. cbn [Regex.strip_prefix]. now rewrite H. Qed.

Lemma digit_not (a c : ascii) :
  Js.is_digit a = false -> Js.is_digit c = true -> Ascii.eqb a c = false.
Proof. intros Ha Hc. destruct (Ascii.eqb_spec a c); congruence. Qed.

Lemma index_char_not (a c : ascii) :
  is_index_char a = false -> is_index_char c = true -> Ascii.eqb a c = false.
Proof. intros Ha Hc. destruct (Ascii.eqb_spec a c); congruence. Qed.

(** A string that starts with a digit, or with a capital or digit, or is
    empty, starts with neither word of the pattern. *)
Lemma strip_words_digits (s rest : string) :
  s <> "" -> all_chars Js.is_digit s = true ->
  Regex.strip_prefix "contest" (s ++ rest) = None
  /\ Regex.strip_prefix "problemset" (s ++ rest) = None
  /\ Regex.strip_prefix "problem/" (s ++ rest) = None.
Proof.
  destruct s as [|c s]; [congruence|]. intros _ [Hc _]%andb_prop.
  cbn [String.append]. split_and!; apply strip_prefix_other;
    now apply digit_not.
Qed.

Lemma strip_words_index (s : string) :
  all_chars is_index_char s = true ->
  Regex.strip_prefix "contest" s = None
  /\ Regex.strip_prefix "problemset" s = None.
Proof.
  destruct s as [|c s]; [now split|]. intros [Hc _]%andb_prop.
  split; apply strip_prefix_other; now apply index_char_not.
Qed.

Lemma strip_prefix_app (p s : string) : Regex.strip_prefix p (p ++ s) = Some s.
Proof.
  induction p as [|a p IH]; cbn [Regex.strip_prefix String.append].
  - now destruct s.
  - now rewrite Ascii.eqb_refl.
Qed.

Lemma run_problemset (contestId index : string) :
  contestId <> "" -> all_chars Js.is_digit contestId = true ->
  index <> "" -> all_chars is_index_char index = true ->
  Regex.run problem_url_regex ("/problemset/problem/" ++ contestId ++ "/" ++ index)
            [] (fun _ caps => Some caps)
  = Some [(2%nat, index); (1%nat, contestId)].
Proof.
  intros Hc1 Hc2 Hi1 Hi2. unfold problem_url_regex.
  change ("/problemset/problem/" ++ contestId ++ "/" ++ index)
    with ("/" ++ ("problemset" ++ ("/problem/" ++ (contestId ++ ("/" ++ index))))).
  rewrite run_seq, run_lit, strip_prefix_app.
  rewrite run_seq, run_alt, !run_lit.
  assert (E : forall s, Regex.strip_prefix "contest" ("problemset" ++ s) = None)
    by reflexivity.
  rewrite E, strip_prefix_app.
  rewrite run_seq, run_lit, strip_prefix_app, run_seq.
  apply plus_group_run; trivial.
  { intros c rest' [= <- _]. reflexivity. }
  rewrite run_seq, run_lit, strip_prefix_app.
  rewrite <- (append_nil_r index) at 1.
  apply plus_group_run; trivial.
  intros c rest' [=].
Qed.

(** The problem-set URL of an id made of digits, a slash and capitals or
    digits is accepted by the pattern, which reads the id back. *)
Lemma problemset_url_accepted (contestId index : string) :
  contestId <> "" -> all_chars Js.is_digit contestId = true ->
  index <> "" -> all_chars is_index_char index = true ->
  Regex.exec problem_url_regex (problemset_url (contestId ++ "/" ++ index))
  = Some [(2%nat, index); (1%nat, contestId)].
Proof.
  intros Hc1 Hc2 Hi1 Hi2.
  change (problemset_url (contestId ++ "/" ++ index))
    with ("https:"
            ++ String "/" (String "/"
                 ("codeforces.com"
                    ++ ("/problemset/problem/" ++ contestId ++ "/" ++ index)))).
  rewrite exec_skip by reflexivity.
  rewrite exec_slash by reflexivity.
  rewrite exec_slash by reflexivity.
  rewrite exec_skip by reflexivity.
  change ("/problemset/problem/" ++ contestId ++ "/" ++ index)
    with (String "/" ("problemset/problem/" ++ contestId ++ "/" ++ index)).
  cbn [Regex.exec].
  change (String "/" ("problemset/problem/" ++ contestId ++ "/" ++ index))
    with ("/problemset/problem/" ++ contestId ++ "/" ++ index).
  now rewrite run_problemset.
Qed.

Lemma exec_contest_url (contestId index : string) :
  contestId <> "" -> all_chars Js.is_digit contestId = true ->
  all_chars is_index_char index = true ->
  Regex.exec problem_url_regex (contest_url contestId index) = None.
Proof.
  intros Hc1 Hc2 Hi.
  destruct (strip_words_digits contestId ("/problem/" ++ index) Hc1 Hc2)
    as (Hd1 & Hd2 & Hd3).
  destruct (strip_words_index index Hi) as [Hx1 Hx2].
  change (contest_url contestId index)
    with ("https:"
            ++ String "/" (String "/"
                 ("codeforces.com"
                    ++ String "/"
                         ("contest"
                            ++ String "/" (contestId ++ "/problem/" ++ index))))).
  rewrite exec_skip by reflexivity.
  rewrite exec_slash by reflexivity.
  rewrite exec_slash by reflexivity.
  rewrite exec_skip by reflexivity.
  rewrite exec_next.
  2:{ unfold problem_url_regex.
      change (String "/" ("contest" ++ String "/" (contestId ++ "/problem/" ++ index)))
        with ("/" ++ ("contest" ++ ("/" ++ (contestId ++ "/problem/" ++ index)))).
      rewrite run_seq, run_lit, strip_prefix_app.
      rewrite run_seq, run_alt, !run_lit, strip_prefix_app.
      assert (E : forall s, Regex.strip_prefix "problemset" ("contest" ++ s) = None)
        by reflexivity.
      rewrite E, run_seq, run_lit.
      change (Regex.strip_prefix "/problem/"
                ("/" ++ contestId ++ "/problem/" ++ index))
        with (Regex.strip_prefix "problem/" (contestId ++ "/problem/" ++ index)).
      now rewrite Hd3. }
  rewrite exec_skip by reflexivity.
  rewrite exec_slash by trivial.
  rewrite exec_skip by (now apply (all_chars_has_char Js.is_digit)).
  change ("/problem/" ++ index) with (String "/" ("problem" ++ String "/" index)).
  rewrite exec_slash by reflexivity.
  rewrite exec_skip by reflexivity.
  rewrite exec_slash by trivial.
  rewrite <- (append_nil_r index).
  rewrite exec_skip by (now apply (all_chars_has_char is_index_char)).
  reflexivity.
Qed.

Lemma setdailyproblem_no_match (w : World) (db : DB) (url guildId : string) :
  url <> "" ->
  Regex.exec problem_url_regex url = None ->
  setdailyproblem w db true (Some url) guildId = ([invalid_format], db).
Proof.
  intros Hne Hexec. unfold setdailyproblem.
  rewrite (truthy_Some url Hne). cbn -[Regex.exec]. now rewrite Hexec.
Qed.

(** X7: the URL that getRandomProblemUrl builds for a judge problem with a
    non-negative contest id and an index of capitals and digits (the URL
    login shows) is never accepted by setdailyproblem: the pattern does
    not match it and the handler answers "Invalid problem URL format"
    without touching the store. *)
Theorem random_problem_url_rejected (w w' : World) (randomIndex : nat)
    (problems : list Problem) (p : Problem) (z : Z) (db : DB) (guildId : string) :
  problemset_problems w = ApiOk problems ->
  problems !! randomIndex = Some p ->
  Judge.contestId p = Some z ->
  0 <= z ->
  all_chars is_index_char (Judge.index p) = true ->
  exists url,
    getRandomProblemUrl w randomIndex
      = Some (url, Js.toString z ++ "/" ++ Judge.index p)
    /\ Regex.exec problem_url_regex url = None
    /\ setdailyproblem w' db true (Some url) guildId = ([invalid_format], db).
Proof.
  intros Hw Hp Hz Hnonneg Hi.
  exists (contest_url (Js.toString z) (Judge.index p)).
  destruct (toString_nonneg z Hnonneg) as [Hz1 Hz2].
  pose proof (exec_contest_url _ _ Hz1 Hz2 Hi) as Hexec.
  split_and!; trivial.
  - unfold getRandomProblemUrl. now rewrite Hw, Hp, Hz.
  - apply setdailyproblem_no_match; [discriminate | exact Hexec].
Qed.

Lemma random_problem_url_rejected_witness :
  exists url,
    getRandomProblemUrl judge_up 0 = Some (url, "1500/A")
    /\ Regex.exec problem_url_regex url = None
    /\ setdailyproblem judge_down two_guilds true (Some url) "g"
       = ([invalid_format], two_guilds).
Proof.
  apply (random_problem_url_rejected judge_up judge_down 0
           [Judge.mkProblem (Some 1500) "A"] (Judge.mkProblem (Some 1500) "A") 1500
           two_guilds "g" eq_refl eq_refl eq_refl);
    [lia | reflexivity].
Defined.

(** ** What setdailyproblem stores *)



(** X9: when setdailyproblem succeeds, the id it stores in the guild's
    record is the contest id and index of a problem the judge listed,
    written as digits, a slash and capitals or digits. *)
Theorem setdailyproblem_stores_listed (w : World) (db : DB) (manageGuild : bool)
    (problem_url : option string) (guildId : string) :
  daily_set (setdailyproblem w db manageGuild problem_url guildId).1 ->
  exists (p : Problem) (c : Z) (oid : ObjectId) (server' : Server.t),
    (exists problems, problemset_problems w = ApiOk problems /\ p ∈ problems)
    /\ Judge.contestId p = Some c
    /\ 0 <= c
    /\ Judge.index p <> ""
    /\ all_chars is_index_char (Judge.index p) = true
    /\ servers (setdailyproblem w db manageGuild problem_url guildId).2 !! oid
       = Some server'
    /\ Server.guildId server' = guildId
    /\ Server.daily server' = Some (Js.toString c ++ "/" ++ Judge.index p).
Proof.
  unfold setdailyproblem.
  destruct manageGuild; simpl; [|intros H; not_daily_set H].
  destruct (Js.truthy problem_url); simpl; [|intros H; not_daily_set H].
  destruct (Regex.exec _ _) as [m|] eqn:Hm; [|intros H; not_daily_set H].
  apply problem_url_groups in Hm as (contestId & index & -> & Hc1 & Hc2 & Hi1 & Hi2).
  cbn [Regex.group Nat.eqb from_option id].
  destruct (validateProblemUrl w contestId index) eqn:Hv; cbn [negb];
    [|intros H; not_daily_set H].
  intros _.
  unfold validateProblemUrl in Hv.
  destruct (problemset_problems w) as [| |problems] eqn:Hw; try discriminate.
  destruct (some_problem contestId index problems) as [[|]|] eqn:Hsome;
    try discriminate.
  apply some_problem_first in Hsome
    as (before & p & rest & c & -> & _ & Hpc & <- & <-).
  assert (Hin : p ∈ (before ++ p :: rest)%list)
    by (apply elem_of_app; right; left).
  assert (Hnonneg : 0 <= c) by now apply toString_digits.
  destruct (findOne (by_guild guildId) (servers db)) as [[oid server]|] eqn:Hfind;
    destruct (announce w _ guildId) as [ok sent]; simpl.
  - apply findOne_lookup in Hfind as [Hlook Hg].
    exists p, c, oid, (Server.set_daily (Some (Js.toString c ++ "/" ++ Judge.index p))
                                       server).
    split_and!; eauto.
    + apply list_lookup_insert_eq. eapply lookup_lt_Some; eauto.
    + simpl. now apply String.eqb_eq.
  - exists p, c, (length (servers db)),
      (Server.mk (Some (Js.toString c ++ "/" ++ Judge.index p)) [] guildId
                 None None None).
    split_and!; eauto.
    rewrite lookup_app_r by lia. now rewrite Nat.sub_diag.
Qed.

Lemma setdailyproblem_stores_listed_witness :
  exists (p : Problem) (c : Z) (oid : ObjectId) (server' : Server.t),
    (exists problems, problemset_problems judge_up = ApiOk problems /\ p ∈ problems)
    /\ Judge.contestId p = Some c
    /\ 0 <= c
    /\ Judge.index p <> ""
    /\ all_chars is_index_char (Judge.index p) = true
    /\ servers (setdailyproblem judge_up two_guilds true
                  (Some "https://codeforces.com/problemset/problem/1500/A") "g").2
         !! oid = Some server'
    /\ Server.guildId server' = "g"
    /\ Server.daily server' = Some (Js.toString c ++ "/" ++ Judge.index p).
Proof.
  apply (setdailyproblem_stores_listed judge_up two_guilds true
           (Some "https://codeforces.com/problemset/problem/1500/A") "g").
  exists [Send "news"
            (createEmbed (Some "Daily Problem Announcement")
               "New Daily Problem: https://codeforces.com/problemset/problem/1500/A")].
  exists "https://codeforces.com/problemset/problem/1500/A".
  vm_compute. reflexivity.
Defined.

Lemma plain_id_split (c : Z) (index : string) :
  0 <= c -> has_char "/" index = false ->
  Js.split "/" (Js.toString c ++ "/" ++ index) = [Js.toString c; index].
Proof.
  intros Hc Hi. destruct (toString_nonneg c Hc) as [Hs1 Hs2].
  change (Js.toString c ++ "/" ++ index) with (Js.toString c ++ String "/" index).
  rewrite (split_until "/" (Js.toString c) index
             (all_chars_has_char Js.is_digit "/" _ eq_refl Hs2)).
  now rewrite (split_none "/" index Hi).
Qed.

(** X10: an id written as the decimal contest id, below 2^53, a slash and
    an index without a slash is read back by hasSolvedProblem as that
    contest id and that index: it makes the request, and answers whether
    some listed submission is an accepted one on exactly that problem. *)
Theorem daily_id_read_back (w : World) (handle : string) (c : Z) (index : string) :
  0 <= c < 2 ^ 53 -> index <> "" -> has_char "/" index = false ->
  hasSolvedProblem w handle (Js.toString c ++ "/" ++ index)
  = match user_status w handle with
    | ApiOk submissions =>
        Returned (Some (existsb (is_accepted_for c index) submissions))
    | ApiFailed => Returned None
    | HttpError => Returned None
    end.
Proof.
  intros [Hc _] Hi1 Hi2. unfold hasSolvedProblem.
  destruct (toString_nonneg c Hc) as [Hs1 Hs2].
  change (Js.toString c ++ "/" ++ index) with (Js.toString c ++ String "/" index).
  rewrite (split_until "/" (Js.toString c) index
             (all_chars_has_char Js.is_digit "/" _ eq_refl Hs2)).
  rewrite (split_none "/" index Hi2). simpl.
  rewrite (parseInt_toString c Hc).
  destruct (String.eqb_spec index ""); [contradiction | reflexivity].
Qed.

Lemma daily_id_read_back_witness :
  hasSolvedProblem judge_up "alice_cf" (Js.toString 1500 ++ "/" ++ "A")
  = Returned (Some true).
Proof.
  apply (daily_id_read_back judge_up "alice_cf" 1500 "A");
    [split; [lia | reflexivity] | discriminate | reflexivity].
Defined.

(** X4: for such an id (contest id below 2^53, index without a slash),
    hasSolvedProblem answers true exactly when the judge's answer has
    status OK and lists a submission with that contest id, that index and
    the verdict OK. *)
Theorem hasSolvedProblem_true_iff (w : World) (handle : string) (c : Z)
    (index : string) :
  0 <= c < 2 ^ 53 -> index <> "" -> has_char "/" index = false ->
  hasSolvedProblem w handle (Js.toString c ++ "/" ++ index) = Returned (Some true)
  <-> exists submissions sub,
        user_status w handle = ApiOk submissions
        /\ sub ∈ submissions
        /\ Judge.contestId (Judge.problem sub) = Some c
        /\ Judge.index (Judge.problem sub) = index
        /\ Judge.verdict sub = Some "OK".
Proof.
  intros [Hc _] Hi1 Hi2.
  rewrite hasSolvedProblem_true_parsed, (plain_id_split c index Hc Hi2).
  cbn [lookup list_lookup default from_option id].
  rewrite (parseInt_toString c Hc). split.
  - intros (c' & i' & subs & sub & [= <-] & [= <-] & _ & Hst & Hin & H).
    now exists subs, sub.
  - intros (subs & sub & Hst & Hin & H). now exists c, index, subs, sub.
Qed.

Lemma hasSolvedProblem_true_iff_witness :
  hasSolvedProblem judge_up "alice_cf" (Js.toString 1500 ++ "/" ++ "A")
    = Returned (Some true)
  <-> exists submissions sub,
        user_status judge_up "alice_cf" = ApiOk submissions
        /\ sub ∈ submissions
        /\ Judge.contestId (Judge.problem sub) = Some 1500
        /\ Judge.index (Judge.problem sub) = "A"
        /\ Judge.verdict sub = Some "OK".
Proof.
  apply (hasSolvedProblem_true_iff judge_up "alice_cf" 1500 "A");
    [split; [lia | reflexivity] | discriminate | reflexivity].
Defined.

(** ** login and its button *)

Lemma has_char_app (c : ascii) (a b : string) :
  has_char c (a ++ b) = has_char c a || has_char c b.
Proof.
  induction a as [|x a IH]; simpl; [reflexivity|].
  now rewrite IH, orb_assoc.
Qed.

Lemma digits_no_char (c : ascii) (s : string) :
  Js.is_digit c = false -> all_chars Js.is_digit s = true -> has_char c s = false.
Proof. apply all_chars_has_char. Qed.

(** X11: the button that login puts under its prompt, for a handle
    without the separator and a judge problem with a non-negative contest
    id and an index without separator or slash, signs the presser in as
    that handle exactly when the latest submission fetched for the handle
    is a compilation error on the problem login picked; otherwise the
    press is turned down and the store is left as it was. *)
Theorem login_then_button (w w' : World) (randomIndex : nat) (handle : string)
    (problems : list Problem) (p : Problem) (z : Z)
    (db : DB) (userId guildId : string) :
  handle <> "" -> has_char "|" handle = false ->
  problemset_problems w = ApiOk problems ->
  problems !! randomIndex = Some p ->
  Judge.contestId p = Some z -> 0 <= z ->
  has_char "|" (Judge.index p) = false -> has_char "/" (Judge.index p) = false ->
  exists e customId,
    login w randomIndex (Some handle) = LoginPrompt e customId
    /\ let result := button w' db customId userId guildId in
       let accepted :=
         exists sub,
           lastcfSubmission w' handle = Some sub
           /\ Judge.contestId (Judge.problem sub) = Some z
           /\ Judge.index (Judge.problem sub) = Judge.index p
           /\ Judge.verdict sub = Some "COMPILATION_ERROR" in
       (accepted ->
        result = ([signed_in], create_user (User.mk userId handle guildId) db))
       /\ (~ accepted ->
           result.2 = db /\ exists r, result.1 = [r] /\ r ∈ rejections).
Proof.
  intros Hne Hh Hw Hp Hz Hnonneg Hi1 Hi2.
  destruct (toString_nonneg z Hnonneg) as [Hs1 Hs2].
  set (problemId := Js.toString z ++ "/" ++ Judge.index p).
  assert (Hpid : has_char "|" problemId = false).
  { unfold problemId. rewrite !has_char_app, Hi1.
    now rewrite (digits_no_char "|" _ eq_refl Hs2). }
  assert (Hparts : Js.split "/" problemId = [Js.toString z; Judge.index p]).
  { unfold problemId.
    change (Js.toString z ++ "/" ++ Judge.index p)
      with (Js.toString z ++ String "/" (Judge.index p)).
    rewrite (split_until "/" _ _ (digits_no_char "/" _ eq_refl Hs2)).
    now rewrite (split_none "/" _ Hi2). }
  eexists _, (done_customId handle problemId). split.
  { unfold login, getRandomProblemUrl.
    rewrite (truthy_Some handle Hne), Hw, Hp, Hz. reflexivity. }
  intros result accepted.
  assert (Hsplit := done_customId_split handle problemId Hh Hpid).
  pose proof (button_cases w' db (done_customId handle problemId) userId guildId
                handle problemId (done_customId_starts handle problemId)
                ltac:(now rewrite Hsplit) Hne ltac:(now rewrite Hsplit)) as Hcases.
  rewrite Hparts in Hcases. cbn [lookup list_lookup default from_option id] in Hcases.
  fold result in Hcases.
  assert (Hiff : confirmed w' handle (Js.toString z) (Some (Judge.index p))
                 <-> accepted).
  { unfold confirmed, accepted. split.
    - intros (sub & c & H1 & H2 & H3 & [= H4] & H5).
      apply toString_inj in H3. subst c. now exists sub.
    - intros (sub & H1 & H2 & H3 & H4). exists sub, z.
      split_and!; trivial. now rewrite H3. }
  destruct Hcases as [[Hc Hr]|(Hc & Hr)]; split; tauto.
Qed.

Lemma login_then_button_witness :
  exists e customId,
    login judge_abc 0 (Some "abc") = LoginPrompt e customId
    /\ button judge_abc two_users customId "333" "g"
       = ([signed_in], create_user (User.mk "333" "abc" "g") two_users).
Proof.
  destruct (login_then_button judge_abc judge_abc 0 "abc"
              [Judge.mkProblem (Some 100) "A"] (Judge.mkProblem (Some 100) "A") 100
              two_users "333" "g")
    as (e & customId & Hlogin & Hyes & _);
    try reflexivity; try discriminate; try lia.
  exists e, customId. split; [exact Hlogin|].
  apply Hyes. exists compile_error_100A. repeat split; reflexivity.
Defined.

(** X12: a button press never touches a guild record, and adds at most
    one user record, for the presser and the guild of the press; a
    custom id that does not start with "done|" gives no reply and
    changes nothing. *)
Theorem button_only_adds_user (w : World) (db : DB) (customId userId guildId : string) :
  servers (button w db customId userId guildId).2 = servers db
  /\ (users (button w db customId userId guildId).2 = users db
      \/ exists handle,
           users (button w db customId userId guildId).2
           = (users db ++ [User.mk userId handle guildId])%list)
  /\ (Js.startsWith "done|" customId = true
      \/ button w db customId userId guildId = ([], db)).
Proof.
  unfold button.
  destruct (Js.startsWith _ _); [|now split_and!; eauto].
  destruct (Js.split "|" customId !! 2%nat); [|now split_and!; eauto].
  destruct (negb _); [now split_and!; eauto|].
  destruct (lastcfSubmission w _); [|now split_and!; eauto].
  destruct (submission_confirms _ _ _) as [[|]|]; simpl; split_and!; eauto.
Qed.

(** ** The leaderboard refresh *)



(** ** Points *)

Lemma sum_points_app (a b : list Server.member) :
  sum_points (a ++ b) = sum_points a + sum_points b.
Proof. induction a as [|m a IH]; simpl; lia. Qed.

Lemma sum_points_perm (a b : list Server.member) :
  Permutation a b -> sum_points a = sum_points b.
Proof. induction 1; simpl; lia. Qed.

Lemma sum_points_insert (l : list Server.member) (j : nat) (m m' : Server.member) :
  l !! j = Some m ->
  sum_points (<[j := m']> l) = sum_points l - Server.points m + Server.points m'.
Proof.
  revert j. induction l as [|x l IH]; intros [|j] H; simpl in *; try discriminate.
  - injection H as ->. lia.
  - rewrite (IH j H). lia.
Qed.

Lemma total_points_save (db : DB) (oid : nat) (s s' : Server.t) :
  servers db !! oid = Some s ->
  total_points (save_server oid s' db)
  = total_points db - sum_points (Server.members s) + sum_points (Server.members s').
Proof.
  unfold total_points, save_server, ObjectId. cbn [servers].
  generalize (servers db) as l. intros l. revert oid.
  induction l as [|x l IH]; intros [|i] H; try discriminate.
  - injection H as ->. simpl. lia.
  - change (<[S i := s']> (x :: l)) with (x :: <[i := s']> l).
    cbn [foldr]. rewrite (IH i H). lia.
Qed.

Lemma total_points_same_scores (db db' : DB) :
  Forall2 same_scores (servers db) (servers db') ->
  total_points db = total_points db'.
Proof.
  unfold total_points.
  induction 1 as [|s s' l l' (_ & _ & _ & _ & Hperm) _ IH]; simpl; [reflexivity|].
  now rewrite (sum_points_perm _ _ Hperm), IH.
Qed.

Lemma check_handler_points (w : World) (db : DB) (userId guildId : string) :
  users (check_handler w db userId guildId).1.2 = users db
  /\ total_points db <= total_points (check_handler w db userId guildId).1.2
     <= total_points db + 1.
Proof.
  assert (Hsame : users db = users db /\ total_points db <= total_points db
                                         <= total_points db + 1)
    by (split; [reflexivity | lia]).
  unfold check_handler.
  destruct (findOne (by_user_id userId) (users db)) as [[user_oid user]|];
    [|exact Hsame].
  destruct (findOne (by_guild_with_daily guildId) (servers db))
    as [[oid server]|] eqn:Hserver; [|exact Hsame].
  apply findOne_lookup in Hserver as [Hlook _].
  destruct (Js.truthy (Server.daily server)); cbn [negb]; [|exact Hsame].
  destruct (hasSolvedProblem w _ _) as [[solved|]|]; try exact Hsame.
  destruct (findOne (is_member_of db user) (Server.members server))
    as [[j member]|] eqn:Hmember.
  - destruct (opt_eqb String.eqb _ _); [exact Hsame|].
    apply findOne_lookup in Hmember as [Hj _].
    cbn [fst snd]. split; [reflexivity|].
    rewrite (total_points_save db oid server _ Hlook).
    cbn [Server.members Server.set_members].
    rewrite (sum_points_insert _ j member _ Hj). simpl. lia.
  - cbn [fst snd]. split; [reflexivity|].
    rewrite (total_points_save db oid server _ Hlook).
    cbn [Server.members Server.set_members].
    rewrite sum_points_app. destruct solved; simpl; lia.
Qed.

(** X14: one check, with the leaderboard refresh it starts, changes no
    user record and raises the points held in the store by at most 1; it
    never lowers them. *)
Theorem check_total_points (w : World) (db : DB) (userId guildId : string) :
  users (check w db userId guildId).2 = users db
  /\ total_points db <= total_points (check w db userId guildId).2
     <= total_points db + 1.
Proof.
  destruct (check_frame w db userId guildId) as [Hu Hs].
  destruct (check_handler_points w db userId guildId) as [Hu' Hp].
  split; [congruence|].
  now rewrite <- (total_points_same_scores _ _ Hs).
Qed.

(** ** The channel commands *)

Lemma save_created (s : Server.t) (db : DB) :
  save_server (length (servers db)) s (create_server s db) = create_server s db.
Proof.
  unfold save_server, create_server. cbn [users servers]. f_equal.
  rewrite insert_app_r_alt by lia. now rewrite Nat.sub_diag.
Qed.

Lemma setleaderboardchannel_upsert (db : DB) (manageGuild : bool)
    (channel : option Channel.t) (guildId : string) :
  (setleaderboardchannel db manageGuild channel guildId).2
  = match channel_write channel manageGuild with
    | Some c =>
        upsert guildId (Server.mk None [] guildId (Some c) None None)
               (set_channelId (Some c)) db
    | None => db
    end.
Proof.
  unfold setleaderboardchannel, channel_write, upsert.
  destruct manageGuild; [|now destruct channel].
  destruct channel as [c|]; [|reflexivity].
  destruct (Channel.sendable c); [|reflexivity]. cbn [negb andb snd].
  destruct (findOne _ _) as [[oid s]|]; [reflexivity|]. apply save_created.
Qed.

Lemma setannouncementchannel_upsert (db : DB) (manageGuild : bool)
    (channel : option Channel.t) (guildId : string) :
  (setannouncementchannel db manageGuild channel guildId).2
  = match channel_write channel manageGuild with
    | Some c =>
        upsert guildId (Server.mk None [] guildId None (Some c) None)
               (set_announcementChannelId (Some c)) db
    | None => db
    end.
Proof.
  unfold setannouncementchannel, channel_write, upsert.
  destruct manageGuild; [|now destruct channel].
  destruct channel as [c|]; [|reflexivity].
  destruct (Channel.sendable c); [|reflexivity]. cbn [negb andb snd].
  destruct (findOne _ _) as [[oid s]|]; [reflexivity|]. apply save_created.
Qed.

Lemma findOne_created {A : Type} (f : A -> bool) (l : list A) (x : A) :
  findOne f l = None -> f x = true -> findOne f (l ++ [x]) = Some (length l, x).
Proof.
  intros Hnone Hx. unfold findOne in *. rewrite list_find_app_r by exact Hnone.
  cbn. rewrite decide_True by now rewrite Hx. cbn. now rewrite ?Nat.add_0_r.
Qed.

Lemma findOne_saved {A : Type} (f : A -> bool) (l : list A) (i : nat) (x y : A) :
  findOne f l = Some (i, x) -> f y = true -> findOne f (<[i := y]> l) = Some (i, y).
Proof.
  unfold findOne. intros (Hl & Hx & Hbefore)%list_find_Some Hy.
  apply list_find_Some. split_and!.
  - apply list_lookup_insert_eq. eapply lookup_lt_Some; eauto.
  - now rewrite Hy.
  - intros j z Hj Hlt. rewrite list_lookup_insert_ne in Hj by lia. eauto.
Qed.

Section Upsert.
Variables (guildId : string) (new1 new2 : Server.t) (f1 f2 : Server.t -> Server.t).
Hypothesis new1_guild : Server.guildId new1 = guildId.
Hypothesis new2_guild : Server.guildId new2 = guildId.
Hypothesis f1_guild : forall s, Server.guildId (f1 s) = Server.guildId s.
Hypothesis f2_guild : forall s, Server.guildId (f2 s) = Server.guildId s.

Lemma upsert_upsert (db : DB) :
  upsert guildId new1 f1 (upsert guildId new2 f2 db)
  = upsert guildId (f1 new2) (fun s => f1 (f2 s)) db.
Proof.
  unfold upsert.
  destruct (findOne (by_guild guildId) (servers db)) as [[oid s]|] eqn:Hfind.
  - pose proof Hfind as [_ Hg]%findOne_lookup.
    cbn [save_server servers users]. unfold ObjectId in *.
    rewrite (findOne_saved _ _ _ _ (f2 s) Hfind)
      by (unfold by_guild in *; now rewrite f2_guild).
    unfold save_server. cbn [servers users]. now rewrite list_insert_insert_eq.
  - cbn [create_server servers users].
    rewrite (findOne_created _ _ new2 Hfind)
      by (unfold by_guild; rewrite new2_guild; apply String.eqb_refl).
    unfold save_server, create_server, ObjectId. cbn [servers users]. f_equal.
    rewrite insert_app_r_alt by lia. now rewrite Nat.sub_diag.
Qed.
End Upsert.

(** X15: setleaderboardchannel and setannouncementchannel on the same
    guild commute: whatever the permissions and channels given, both
    orders leave the same store. *)
Theorem channel_commands_commute (db : DB) (guildId : string)
    (manageGuild manageGuild' : bool) (channel channel' : option Channel.t) :
  (setannouncementchannel
     (setleaderboardchannel db manageGuild channel guildId).2
     manageGuild' channel' guildId).2
  = (setleaderboardchannel
       (setannouncementchannel db manageGuild' channel' guildId).2
       manageGuild channel guildId).2.
Proof.
  rewrite !setannouncementchannel_upsert, !setleaderboardchannel_upsert.
  destruct (channel_write channel manageGuild) as [c|],
           (channel_write channel' manageGuild') as [c'|]; try reflexivity.
  now rewrite !upsert_upsert.
Qed.

(** X16: a permitted channel command with a text channel overrides an
    earlier one of the same kind on the same guild: the store is the one
    the later command alone would have left. *)
Theorem channel_command_last_wins (db : DB) (guildId : string)
    (manageGuild : bool) (earlier : option Channel.t) (later : Channel.t) :
  Channel.sendable later = true ->
  (setleaderboardchannel
     (setleaderboardchannel db manageGuild earlier guildId).2
     true (Some later) guildId).2
  = (setleaderboardchannel db true (Some later) guildId).2
  /\ (setannouncementchannel
        (setannouncementchannel db manageGuild earlier guildId).2
        true (Some later) guildId).2
     = (setannouncementchannel db true (Some later) guildId).2.
Proof.
  intros Hs.
  rewrite !setannouncementchannel_upsert, !setleaderboardchannel_upsert.
  assert (Hw : channel_write (Some later) true = Some (Channel.id later))
    by (unfold channel_write; now rewrite Hs).
  rewrite !Hw.
  destruct (channel_write earlier manageGuild) as [c|]; [|now split].
  now rewrite !upsert_upsert.
Qed.

(** ** The stores the bot can get to *)

Lemma guild_ids_insert (l : list Server.t) (i : nat) (s s' : Server.t) :
  l !! i = Some s -> Server.guildId s' = Server.guildId s ->
  Server.guildId <$> <[i := s']> l = Server.guildId <$> l.
Proof.
  intros Hl Hg. rewrite list_fmap_insert, Hg. apply list_insert_id.
  now rewrite list_lookup_fmap, Hl.
Qed.

Lemma consistent_save (db : DB) (oid : nat) (s s' : Server.t) :
  consistent db -> servers db !! oid = Some s ->
  Server.guildId s' = Server.guildId s -> record_kept (users db) s' ->
  consistent (save_server oid s' db).
Proof.
  intros [Hg Hr] Hl Hs Hk. split.
  - unfold guilds_unique, save_server, ObjectId in *. cbn [servers].
    now rewrite (guild_ids_insert _ _ s).
  - unfold save_server, ObjectId. cbn [servers users]. now apply Forall_insert.
Qed.

Lemma consistent_create (db : DB) (g : string) (s : Server.t) :
  consistent db -> findOne (by_guild g) (servers db) = None ->
  Server.guildId s = g -> record_kept (users db) s ->
  consistent (create_server s db).
Proof.
  intros [Hg Hr] Hnone Hs Hk. split.
  - unfold guilds_unique, create_server in *. cbn [servers].
    rewrite fmap_app. apply NoDup_app. split_and!; [exact Hg| |apply NoDup_singleton].
    intros x Hx Hx'. apply list_elem_of_fmap in Hx as (s0 & Hx0 & Hs0).
    cbn in Hx'. apply list_elem_of_singleton in Hx'.
    pose proof (proj1 (findOne_None _ _) Hnone s0 Hs0) as Hno.
    unfold by_guild in Hno.
    assert (Heq : Server.guildId s0 = g) by congruence.
    rewrite Heq, String.eqb_refl in Hno. discriminate.
  - unfold create_server. cbn [servers users]. apply Forall_app. split; [exact Hr|].
    now apply Forall_singleton.
Qed.

Section UpsertKeeps.
Variables (guildId : string) (new : Server.t) (f : Server.t -> Server.t).
Hypothesis new_guild : Server.guildId new = guildId.
Hypothesis new_kept : forall us, record_kept us new.
Hypothesis f_guild : forall s, Server.guildId (f s) = Server.guildId s.
Hypothesis f_kept : forall us s, record_kept us s -> record_kept us (f s).

Lemma upsert_consistent (db : DB) : consistent db -> consistent (upsert guildId new f db).
Proof.
  intros Hc. unfold upsert.
  destruct (findOne (by_guild guildId) (servers db)) as [[oid s]|] eqn:Hfind.
  - pose proof Hfind as [Hl _]%findOne_lookup.
    apply (consistent_save db oid s); auto.
    apply f_kept. destruct Hc as [_ Hr].
    now apply (proj1 (Forall_lookup _ _) Hr oid).
  - now apply (consistent_create db guildId).
Qed.
End UpsertKeeps.

Lemma empty_record_kept (us : list User.t) (g : string) (c a : option string) :
  record_kept us (Server.mk None [] g c a None).
Proof.
  split_and!; cbn.
  - constructor.
  - constructor.
  - discriminate.
Qed.

Lemma setleaderboardchannel_consistent (db : DB) (manageGuild : bool)
    (channel : option Channel.t) (guildId : string) :
  consistent db -> consistent (setleaderboardchannel db manageGuild channel guildId).2.
Proof.
  intros Hc. rewrite setleaderboardchannel_upsert.
  destruct (channel_write channel manageGuild); [|exact Hc].
  apply upsert_consistent; auto using empty_record_kept.
Qed.

Lemma setannouncementchannel_consistent (db : DB) (manageGuild : bool)
    (channel : option Channel.t) (guildId : string) :
  consistent db -> consistent (setannouncementchannel db manageGuild channel guildId).2.
Proof.
  intros Hc. rewrite setannouncementchannel_upsert.
  destruct (channel_write channel manageGuild); [|exact Hc].
  apply upsert_consistent; auto using empty_record_kept.
Qed.

Lemma setdailyproblem_upsert (w : World) (db : DB) (manageGuild : bool)
    (problem_url : option string) (guildId : string) :
  (setdailyproblem w db manageGuild problem_url guildId).2 = db
  \/ exists d,
       plain_problemId d
       /\ (setdailyproblem w db manageGuild problem_url guildId).2
          = upsert guildId (Server.mk (Some d) [] guildId None None None)
                   (Server.set_daily (Some d)) db.
Proof.
  unfold setdailyproblem.
  destruct manageGuild; simpl; [|now left].
  destruct (Js.truthy problem_url); simpl; [|now left].
  destruct (Regex.exec _ _) as [m|] eqn:Hm; [|now left].
  apply problem_url_groups in Hm as (contestId & index & -> & Hc1 & Hc2 & Hi1 & Hi2).
  cbn [Regex.group Nat.eqb from_option id].
  destruct (validateProblemUrl w contestId index); cbn [negb]; [|now left].
  right. exists (contestId ++ "/" ++ index). split; [now exists contestId, index|].
  unfold upsert.
  destruct (findOne (by_guild guildId) (servers db)) as [[oid server]|];
    destruct (announce w _ guildId) as [ok sent]; reflexivity.
Qed.

Lemma setdailyproblem_consistent (w : World) (db : DB) (manageGuild : bool)
    (problem_url : option string) (guildId : string) :
  consistent db -> consistent (setdailyproblem w db manageGuild problem_url guildId).2.
Proof.
  intros Hc.
  destruct (setdailyproblem_upsert w db manageGuild problem_url guildId)
    as [->|(d & Hd & ->)]; [exact Hc|].
  apply upsert_consistent; auto.
  - intros us. split_and!; cbn; [constructor|constructor|now intros ? [= <-]].
  - intros us s (Hm & Hn & _). split_and!; cbn; [exact Hm|exact Hn|now intros ? [= <-]].
Qed.

Lemma member_ids_grow (us : list User.t) (u : User.t) (ms : list Server.member) :
  Forall (member_kept us) ms -> member_ids (us ++ [u]) ms = member_ids us ms.
Proof.
  unfold member_ids. induction 1 as [|m ms [Hm _] _ IH]; [reflexivity|].
  cbn [omap list_omap]. now rewrite IH, lookup_app_l.
Qed.

Lemma record_kept_grow (us : list User.t) (u : User.t) (s : Server.t) :
  record_kept us s -> record_kept (us ++ [u]) s.
Proof.
  intros (Hm & Hn & Hd). split_and!; [|now rewrite member_ids_grow|exact Hd].
  eapply Forall_impl; [exact Hm|]. intros m [H1 H2]. split; [|exact H2].
  rewrite length_app. lia.
Qed.

Lemma button_consistent (w : World) (db : DB) (customId userId guildId : string) :
  consistent db -> consistent (button w db customId userId guildId).2.
Proof.
  intros Hc.
  assert (Hgrow : forall u, consistent (create_user u db)).
  { intros u. destruct Hc as [Hg Hr]. split; [exact Hg|].
    unfold create_user. cbn [users servers].
    eapply Forall_impl; [exact Hr|]. intros s. apply record_kept_grow. }
  unfold button.
  destruct (Js.startsWith _ _); [|exact Hc].
  destruct (_ !! 2%nat); [|exact Hc].
  destruct (negb _); [exact Hc|].
  destruct (lastcfSubmission w _); [|exact Hc].
  destruct (submission_confirms _ _ _) as [[|]|]; cbn [snd];
    [apply Hgrow | exact Hc | exact Hc].
Qed.

Lemma same_scores_kept (us : list User.t) (s s' : Server.t) :
  same_scores s s' -> record_kept us s -> record_kept us s'.
Proof.
  intros (Hd & _ & _ & _ & Hp) (Hm & Hn & Hdaily). split_and!.
  - now rewrite <- Hp.
  - unfold member_ids. now rewrite <- Hp.
  - now rewrite Hd.
Qed.

Lemma consistent_same_scores (db db' : DB) :
  users db' = users db -> Forall2 same_scores (servers db) (servers db') ->
  consistent db -> consistent db'.
Proof.
  intros Hu Hs [Hg Hr]. split.
  - unfold guilds_unique in *.
    replace (Server.guildId <$> servers db') with (Server.guildId <$> servers db);
      [exact Hg|].
    clear Hg Hr. induction Hs as [|s s' l l' (_ & Hgs & _) _ IH]; [reflexivity|].
    cbn. now rewrite IH, Hgs.
  - rewrite Hu. clear Hg. induction Hs as [|s s' l l' Hss _ IH]; [constructor|].
    apply Forall_cons in Hr as [Hr1 Hr2]. constructor; [|now apply IH].
    now apply (same_scores_kept _ s).
Qed.

Lemma member_ids_insert (us : list User.t) (ms : list Server.member) (j : nat)
    (m m' : Server.member) :
  ms !! j = Some m -> Server.user m' = Server.user m ->
  member_ids us (<[j := m']> ms) = member_ids us ms.
Proof.
  intros Hj Hu. unfold member_ids. revert j Hj.
  induction ms as [|x ms IH]; intros [|j] Hj; try discriminate.
  - injection Hj as ->.
    change (<[0%nat := m']> (m :: ms)) with (m' :: ms).
    cbn [omap list_omap]. now rewrite Hu.
  - change (<[S j := m']> (x :: ms)) with (x :: <[j := m']> ms).
    cbn [omap list_omap]. now rewrite (IH j Hj).
Qed.

Lemma check_handler_consistent (w : World) (db : DB) (userId guildId : string) :
  consistent db -> consistent (check_handler w db userId guildId).1.2.
Proof.
  intros Hc. unfold check_handler.
  destruct (findOne (by_user_id userId) (users db)) as [[user_oid user]|] eqn:Huser;
    [|exact Hc].
  destruct (findOne (by_guild_with_daily guildId) (servers db))
    as [[oid server]|] eqn:Hserver; [|exact Hc].
  apply findOne_lookup in Hserver as [Hlook _].
  apply findOne_lookup in Huser as [Hulook _].
  destruct (Js.truthy (Server.daily server)); cbn [negb]; [|exact Hc].
  destruct (hasSolvedProblem w _ _) as [[solved|]|]; try exact Hc.
  assert (Hk : record_kept (users db) server).
  { destruct Hc as [_ Hr]. now apply (proj1 (Forall_lookup _ _) Hr oid). }
  destruct Hk as (Hm & Hn & Hd).
  destruct (findOne (is_member_of db user) (Server.members server))
    as [[j member]|] eqn:Hmember.
  - destruct (opt_eqb String.eqb _ _); [exact Hc|].
    apply findOne_lookup in Hmember as [Hj _]. cbn [fst snd].
    apply (consistent_save db oid server); auto.
    split_and!; cbn [Server.members Server.set_members Server.daily]; [| |exact Hd].
    + apply Forall_insert; [exact Hm|].
      destruct (proj1 (Forall_lookup _ _) Hm j member Hj) as [H1 H2].
      split; cbn; [exact H1|lia].
    + now rewrite (member_ids_insert _ _ _ member).
  - cbn [fst snd].
    apply (consistent_save db oid server); auto.
    split_and!; cbn [Server.members Server.set_members Server.daily]; [| |exact Hd].
    + apply Forall_app. split; [exact Hm|]. apply Forall_singleton. split; cbn.
      * eapply lookup_lt_Some; eauto.
      * destruct solved; lia.
    + unfold member_ids, ObjectId in *. rewrite omap_app.
      cbn [omap list_omap Server.user]. rewrite Hulook. cbn [fmap option_fmap option_map].
      apply NoDup_app. split_and!; [exact Hn| |apply NoDup_singleton].
      intros x (m & Hin & Hx)%list_elem_of_omap Hx'%list_elem_of_singleton.
      pose proof (proj1 (findOne_None _ _) Hmember m Hin) as Hno.
      unfold is_member_of, populate, ObjectId in Hno.
      revert Hx Hno. destruct (@lookup nat User.t (list User.t) _ (Server.user m) (users db))
        as [mu|]; simpl;
        [|intros Hx; discriminate Hx].
      intros [= Hx] Hno.
      rewrite Hx, Hx', String.eqb_refl in Hno. discriminate.
Qed.

Lemma check_consistent (w : World) (db : DB) (userId guildId : string) :
  consistent db -> consistent (check w db userId guildId).2.
Proof.
  intros Hc. destruct (check_frame w db userId guildId) as [Hu Hs].
  apply (consistent_same_scores _ _ Hu Hs).
  now apply check_handler_consistent.
Qed.

Lemma attainable_consistent (db : DB) : attainable db -> consistent db.
Proof.
  induction 1.
  - split; [constructor|constructor].
  - now apply setdailyproblem_consistent.
  - now apply setleaderboardchannel_consistent.
  - now apply setannouncementchannel_consistent.
  - now apply check_consistent.
  - now apply button_consistent.
Qed.

Lemma signed_up_attainable : attainable signed_up.
Proof. repeat constructor. Qed.

Lemma played_attainable : attainable played.
Proof. apply attain_check, signed_up_attainable. Qed.

Lemma played_servers : servers played = [played_guild].
Proof. vm_compute. reflexivity. Qed.

Lemma plain_nonempty (d : string) : plain_problemId d -> d <> "".
Proof.
  intros (c & i & -> & Hc & _). destruct c; [contradiction|discriminate].
Qed.

Lemma plain_well_formed (d : string) :
  plain_problemId d -> well_formed_problemId d = true.
Proof.
  intros (c & i & -> & ? & ? & ? & ?). now apply built_id_well_formed.
Qed.

Lemma consistent_record (db : DB) (s : Server.t) :
  consistent db -> s ∈ servers db -> record_kept (users db) s.
Proof. intros [_ Hr] Hs. exact (proj1 (Forall_forall _ _) Hr s Hs). Qed.

(** X19: in every store the bot can get to, a guild has at most one
    record; so the record that check scores on, found with the filter on
    the daily problem, is the record that leaderboard and the refresh read. *)
Theorem attainable_one_record (db : DB) :
  attainable db ->
  (forall i j s s',
     servers db !! i = Some s -> servers db !! j = Some s' ->
     Server.guildId s = Server.guildId s' -> i = j)
  /\ (forall g oid s,
        findOne (by_guild_with_daily g) (servers db) = Some (oid, s) ->
        findOne (by_guild g) (servers db) = Some (oid, s)).
Proof.
  intros [Hg _]%attainable_consistent.
  assert (Huniq : forall i j s s',
            servers db !! i = Some s -> servers db !! j = Some s' ->
            Server.guildId s = Server.guildId s' -> i = j).
  { intros i j s s' Hi Hj Heq.
    apply (NoDup_lookup _ i j (Server.guildId s) Hg);
      rewrite list_lookup_fmap; [now rewrite Hi|now rewrite Hj, Heq]. }
  split; [exact Huniq|].
  intros g oid s Hfind. pose proof Hfind as [Hl Hs]%findOne_lookup.
  unfold by_guild_with_daily in Hs.
  destruct (Server.daily s); [|discriminate]. apply String.eqb_eq in Hs.
  unfold findOne. apply list_find_Some. split_and!; [exact Hl| |].
  - unfold by_guild. rewrite Hs, String.eqb_refl. exact I.
  - intros j y Hj Hlt Hy. unfold by_guild in Hy.
    apply Is_true_true, String.eqb_eq in Hy.
    assert (j = oid) by (apply (Huniq j oid y s Hj Hl); congruence). lia.
Qed.

Lemma attainable_one_record_witness :
  findOne (by_guild "g") (servers played) = Some (0%nat, played_guild).
Proof.
  apply (attainable_one_record played played_attainable).
  vm_compute. reflexivity.
Defined.

Lemma NoDup_omap_lookup {A B : Type} (f : A -> option B) (l : list A)
    (i j : nat) (a b : A) (x : B) :
  NoDup (omap f l) -> l !! i = Some a -> l !! j = Some b ->
  f a = Some x -> f b = Some x -> i = j.
Proof.
  revert i j. induction l as [|y l IH]; intros i j Hn Hi Hj Ha Hb; [discriminate|].
  assert (Hin : forall k c, l !! k = Some c -> f c = Some x -> x ∈ omap f l).
  { intros k c Hk Hc. apply list_elem_of_omap. exists c. split; [|exact Hc].
    now apply list_elem_of_lookup_2 with k. }
  cbn [omap list_omap] in Hn.
  destruct i as [|i], j as [|j]; [reflexivity| | |].
  - injection Hi as ->. rewrite Ha in Hn. apply NoDup_cons in Hn as [Hn _].
    destruct Hn. now apply (Hin j b).
  - injection Hj as ->. rewrite Hb in Hn. apply NoDup_cons in Hn as [Hn _].
    destruct Hn. now apply (Hin i a).
  - f_equal. apply IH; trivial.
    destruct (f y); [now apply NoDup_cons in Hn as [_ Hn]|exact Hn].
Qed.

Lemma member_unique (db : DB) (u : User.t) (ms : list Server.member)
    (a b : Server.member) :
  NoDup (member_ids (users db) ms) -> a ∈ ms -> b ∈ ms ->
  is_member_of db u a = true -> is_member_of db u b = true -> a = b.
Proof.
  intros Hn [i Hi]%list_elem_of_lookup [j Hj]%list_elem_of_lookup Ha Hb.
  assert (Hid : forall m, is_member_of db u m = true ->
            (fun m => User.id <$> users db !! Server.user m) m = Some (User.id u)).
  { intros m. unfold is_member_of, populate, ObjectId. cbn beta.
    destruct (@lookup nat User.t (list User.t) _ (Server.user m) (users db))
      as [mu|]; [|intros H; discriminate H].
    intros Hm%String.eqb_eq. cbn. now rewrite Hm. }
  assert (i = j)
    by (apply (NoDup_omap_lookup _ ms i j a b (User.id u) Hn Hi Hj); auto).
  congruence.
Qed.

(** X20: in every store the bot can get to, every member entry of a guild
    refers to a user record and has no negative points, and a guild has at
    most one entry for a platform user. *)
Theorem attainable_members (db : DB) (s : Server.t) :
  attainable db -> s ∈ servers db ->
  (forall m, m ∈ Server.members s ->
             is_Some (populate db m) /\ 0 <= Server.points m)
  /\ (forall i j a b ua ub,
        Server.members s !! i = Some a -> Server.members s !! j = Some b ->
        populate db a = Some ua -> populate db b = Some ub ->
        User.id ua = User.id ub -> i = j).
Proof.
  intros Hc%attainable_consistent Hs.
  destruct (consistent_record db s Hc Hs) as (Hm & Hn & _). split.
  - intros m Hin. destruct (proj1 (Forall_forall _ _) Hm m Hin) as [H1 H2].
    split; [|exact H2]. unfold populate. now apply lookup_lt_is_Some_2.
  - intros i j a b ua ub Hi Hj Ha Hb Heq.
    apply (NoDup_omap_lookup _ _ i j a b (User.id ua) Hn Hi Hj); unfold populate in *.
    + now rewrite Ha.
    + now rewrite Hb, Heq.
Qed.

Lemma attainable_members_witness :
  (forall m, m ∈ Server.members played_guild ->
             is_Some (populate played m) /\ 0 <= Server.points m)
  /\ (forall i j a b ua ub,
        Server.members played_guild !! i = Some a ->
        Server.members played_guild !! j = Some b ->
        populate played a = Some ua -> populate played b = Some ub ->
        User.id ua = User.id ub -> i = j).
Proof.
  apply (attainable_members played played_guild played_attainable).
  rewrite played_servers. apply list_elem_of_here.
Defined.

(** X21: in every store the bot can get to, both leaderboard texts of a
    guild are the ranking in which no member is skipped and a member's
    rank is one plus the number of members with strictly more points. *)
Theorem attainable_leaderboard_text (db : DB) (s : Server.t) :
  attainable db -> s ∈ servers db ->
  UpdateLeaderboard.text db (sort_members (Server.members s))
    = Spec.leaderboard_text db (Server.members s)
  /\ LeaderboardCommand.text db (sort_members (Server.members s))
    = Spec.leaderboard_text db (Server.members s).
Proof.
  intros Hc%attainable_consistent Hs.
  destruct (consistent_record db s Hc Hs) as (Hm & _ & _).
  assert (Hnonneg : forall m, m ∈ Server.members s -> 0 <= Server.points m).
  { intros m Hin. now destruct (proj1 (Forall_forall _ _) Hm m Hin). }
  assert (Hall : forall m, m ∈ Server.members s -> is_Some (populate db m)).
  { intros m Hin. destruct (proj1 (Forall_forall _ _) Hm m Hin) as [H1 _].
    unfold populate. now apply lookup_lt_is_Some_2. }
  assert (H : UpdateLeaderboard.text db (sort_members (Server.members s))
              = Spec.leaderboard_text db (Server.members s)).
  { unfold UpdateLeaderboard.text, Spec.leaderboard_text.
    apply (loop_competition db _ (sort_members_sorted (Server.members s))
             (sorted_nonneg _ _ Hnonneg) (sorted_nonneg _ _ Hall)
             (sort_members (Server.members s)) [] board0 eq_refl).
    left. split; reflexivity. }
  split; [exact H|]. now rewrite leaderboard_texts_agree_aux.
Qed.

Lemma attainable_leaderboard_text_witness :
  UpdateLeaderboard.text played (sort_members (Server.members played_guild))
    = Spec.leaderboard_text played (Server.members played_guild)
  /\ LeaderboardCommand.text played (sort_members (Server.members played_guild))
    = Spec.leaderboard_text played (Server.members played_guild).
Proof.
  apply (attainable_leaderboard_text played played_guild played_attainable).
  rewrite played_servers. apply list_elem_of_here.
Defined.

Lemma hasSolvedProblem_returns (w : World) (handle problemId : string) :
  well_formed_problemId problemId = true ->
  hasSolvedProblem w handle problemId <> Thrown.
Proof.
  unfold hasSolvedProblem, well_formed_problemId.
  destruct (Js.parseInt _) as [contestId|]; [|discriminate].
  destruct (Js.split "/" problemId !! 1%nat) as [index|]; [|discriminate].
  destruct (String.eqb index ""); simpl; [discriminate|].
  intros _. destruct (user_status w handle); discriminate.
Qed.

Lemma check_handler_embed (w : World) (db : DB) (userId guildId : string) :
  dailies_well_formed db -> (check_handler w db userId guildId).1.1 <> check_error.
Proof.
  intros Hwf. unfold check_handler.
  destruct (findOne (by_user_id userId) (users db)) as [[user_oid user]|];
    [|discriminate].
  destruct (findOne (by_guild_with_daily guildId) (servers db))
    as [[oid server]|] eqn:Hserver; [|discriminate].
  apply findOne_lookup in Hserver as [Hlook _].
  destruct (Server.daily server) as [d|] eqn:Hd; [|discriminate].
  destruct (Js.truthy (Some d)); cbn [negb]; [|discriminate].
  cbn [default from_option id].
  assert (Hd' : well_formed_problemId d = true).
  { apply (Hwf server d); [|exact Hd]. now apply list_elem_of_lookup_2 with oid. }
  pose proof (hasSolvedProblem_returns w (User.cfUsername user) d Hd') as Hret.
  destruct (hasSolvedProblem w _ d) as [[solved|]|]; [|discriminate|contradiction].
  destruct (findOne (is_member_of db user) (Server.members server)) as [[j member]|].
  - destruct (opt_eqb String.eqb _ _); [discriminate|].
    destruct solved; discriminate.
  - destruct solved; discriminate.
Qed.

(** X22: in every store the bot can get to, a stored daily problem id is a
    run of digits, a slash and a run of capitals and digits, which
    hasSolvedProblem accepts; so check never answers with the reply of its
    catch block, "An error occurred while checking your solution.". *)
Theorem attainable_check_no_error (w : World) (db : DB) (userId guildId : string) :
  attainable db ->
  (forall s d, s ∈ servers db -> Server.daily s = Some d ->
               plain_problemId d /\ forall handle, hasSolvedProblem w handle d <> Thrown)
  /\ forall a, a ∈ (check w db userId guildId).1 -> a <> Reply check_error true.
Proof.
  intros Hc%attainable_consistent.
  assert (Hplain : forall s d, s ∈ servers db -> Server.daily s = Some d ->
                               plain_problemId d).
  { intros s d Hs Hd. now apply (consistent_record db s Hc Hs). }
  split.
  - intros s d Hs Hd. split; [eauto|]. intros handle.
    apply hasSolvedProblem_returns, plain_well_formed. eauto.
  - assert (Hwf : dailies_well_formed db)
      by (intros s d Hs Hd; apply plain_well_formed; eauto).
    pose proof (check_handler_embed w db userId guildId Hwf) as He.
    unfold check.
    destruct (check_handler w db userId guildId) as [[embed db1] refresh].
    cbn [fst] in He.
    assert (Hreply : Reply embed true <> Reply check_error true) by congruence.
    destruct refresh.
    + destruct (updateLeaderboard w db1 guildId) as [[ok db2] published] eqn:E.
      cbn [fst]. intros a [->|Ha]%elem_of_cons; [exact Hreply|].
      replace published with (updateLeaderboard w db1 guildId).2 in Ha
        by now rewrite E.
      apply updateLeaderboard_published in Ha
        as (oid & server & chan & _ & [->|[mid ->]]); discriminate.
    + cbn [fst]. now intros a ->%list_elem_of_singleton.
Qed.

Lemma attainable_check_no_error_witness :
  (forall s d, s ∈ servers played -> Server.daily s = Some d ->
               plain_problemId d
               /\ forall handle, hasSolvedProblem judge_down handle d <> Thrown)
  /\ forall a, a ∈ (check judge_down played "333" "g").1 ->
               a <> Reply check_error true.
Proof. apply (attainable_check_no_error judge_down played "333" "g" played_attainable). Defined.

Lemma findOne_found {A : Type} (f : A -> bool) (l : list A) (x : A) :
  x ∈ l -> f x = true -> exists i y, findOne f l = Some (i, y).
Proof.
  intros Hx Hf. unfold findOne.
  destruct (list_find_elem_of (fun d => Is_true (f d)) l x Hx) as [[i y] H];
    [now rewrite Hf|eauto].
Qed.

Lemma is_member_of_user (db db' : DB) (u : User.t) (m m' : Server.member) :
  users db' = users db -> Server.user m' = Server.user m ->
  is_member_of db' u m' = is_member_of db u m.
Proof. intros Hu Hm. unfold is_member_of, populate. now rewrite Hu, Hm. Qed.

(** What a congratulated check leaves: the user's record and the guild's
    record are found as before, and the guild's record has an entry of the
    user that is marked with the daily problem. *)
Lemma check_handler_congratulated (w : World) (db : DB) (userId guildId : string) :
  (check_handler w db userId guildId).1.1 = congratulations ->
  exists user_oid user oid server d marked,
    let db1 := (check_handler w db userId guildId).1.2 in
    users db1 = users db
    /\ findOne (by_user_id userId) (users db) = Some (user_oid, user)
    /\ findOne (by_guild_with_daily guildId) (servers db1) = Some (oid, server)
    /\ Server.daily server = Some d
    /\ (exists s, s ∈ servers db /\ Server.daily s = Some d)
    /\ marked ∈ Server.members server
    /\ is_member_of db user marked = true
    /\ Server.lastSubmitted marked = Some d.
Proof.
  unfold check_handler.
  destruct (findOne (by_user_id userId) (users db)) as [[user_oid user]|] eqn:Huser;
    [|discriminate].
  destruct (findOne (by_guild_with_daily guildId) (servers db))
    as [[oid server]|] eqn:Hserver; [|discriminate].
  pose proof Hserver as [Hlook Hg]%findOne_lookup.
  pose proof Huser as [Hulook _]%findOne_lookup.
  destruct (Server.daily server) as [d|] eqn:Hd; [|discriminate].
  destruct (Js.truthy (Some d)); cbn [negb]; [|discriminate].
  cbn [default from_option id].
  destruct (hasSolvedProblem w _ d) as [[solved|]|]; [|discriminate|discriminate].
  assert (Hin : server ∈ servers db) by now apply list_elem_of_lookup_2 with oid.
  assert (Hsaved : forall ms,
            findOne (by_guild_with_daily guildId)
                    (servers (save_server oid (Server.set_members ms server) db))
            = Some (oid, Server.set_members ms server)).
  { intros ms. unfold save_server, ObjectId in *. cbn [servers].
    apply (findOne_saved _ _ _ server _ Hserver).
    unfold by_guild_with_daily in *. cbn [Server.daily Server.set_members Server.guildId].
    exact Hg. }
  destruct (findOne (is_member_of db user) (Server.members server))
    as [[j member]|] eqn:Hmember.
  - destruct (opt_eqb String.eqb _ _); [discriminate|].
    destruct solved; [|discriminate]. intros _.
    apply findOne_lookup in Hmember as [Hj Hm].
    exists user_oid, user, oid,
      (Server.set_members
         (<[j := Server.mkMember (Server.user member) (Server.points member + 1)
                   (Some d)]> (Server.members server)) server), d,
      (Server.mkMember (Server.user member) (Server.points member + 1) (Some d)).
    cbn [fst snd]. split_and!; trivial; [eauto|].
    cbn [Server.members Server.set_members].
    apply list_elem_of_insert. eapply lookup_lt_Some; eauto.
  - destruct solved; [|discriminate]. intros _.
    exists user_oid, user, oid,
      (Server.set_members
         (Server.members server ++ [Server.mkMember user_oid 1 (Some d)]) server), d,
      (Server.mkMember user_oid 1 (Some d)).
    cbn [fst snd]. split_and!; trivial; [eauto| |].
    + cbn [Server.members Server.set_members]. apply elem_of_app. right.
      apply list_elem_of_here.
    + unfold is_member_of, populate, ObjectId in *. cbn [Server.user].
      rewrite Hulook. apply String.eqb_refl.
Qed.

(** X23: no second point straight away.  In a store the bot can get to,
    when check has congratulated a user, the next check of that user in
    that guild, run on the store that the first one left with no other
    command in between, writes nothing, does not congratulate and leaves
    every score as it is, whatever the judge answers then. *)
Theorem recheck_after_congratulation (w w' : World) (db : DB) (userId guildId : string) :
  attainable db ->
  head (check w db userId guildId).1 = Some (Reply congratulations true) ->
  let db1 := (check w db userId guildId).2 in
  (check_handler w' db1 userId guildId).1.2 = db1
  /\ (check_handler w' db1 userId guildId).1.1 <> congratulations
  /\ users (check w' db1 userId guildId).2 = users db1
  /\ Forall2 same_scores (servers db1) (servers (check w' db1 userId guildId).2)
  /\ total_points (check w' db1 userId guildId).2 = total_points db1.
Proof.
  intros Hatt Hhead db1.
  pose proof (attainable_consistent db Hatt) as Hc.
  assert (Hcongr : (check_handler w db userId guildId).1.1 = congratulations).
  { unfold check in Hhead.
    destruct (check_handler w db userId guildId) as [[embed dbh] refresh].
    destruct refresh; [destruct (updateLeaderboard w dbh guildId) as [[? ?] ?]|];
      cbn [fst]; injection Hhead as ->; reflexivity. }
  destruct (check_handler_congratulated w db userId guildId Hcongr)
    as (user_oid & user & oid & server & d & marked & Hu0 & Huser & Hserver & Hd
        & (s0 & Hs0 & Hd0) & Hin & Hmem & Hlast).
  cbn zeta in Hu0, Hserver.
  set (dbh := (check_handler w db userId guildId).1.2) in *.
  assert (Hch : consistent dbh) by now apply check_handler_consistent.
  assert (Hne : d <> "").
  { apply plain_nonempty. now apply (consistent_record db s0 Hc Hs0). }
  destruct (check_frame w db userId guildId) as [Hu Hs]. fold dbh db1 in Hu, Hs.
  pose proof Hserver as [Hlook _]%findOne_lookup.
  assert (Hk : record_kept (users dbh) server).
  { apply (consistent_record dbh server Hch). now apply list_elem_of_lookup_2 with oid. }
  destruct Hk as (_ & Hn & _).
  assert (Hmemh : is_member_of dbh user marked = true)
    by now rewrite (is_member_of_user db dbh user marked marked Hu0 eq_refl).
  assert (Huniq : forall m, m ∈ Server.members server ->
                            is_member_of dbh user m = true -> m = marked).
  { intros m Hm Hmm. now apply (member_unique dbh user (Server.members server)). }
  destruct (findOne_found _ _ marked Hin Hmemh) as (j & m & Hfound).
  assert (m = marked) as ->.
  { pose proof Hfound as [Hj Hm]%findOne_lookup.
    apply Huniq; [now apply list_elem_of_lookup_2 with j|exact Hm]. }
  destruct (findOne_same_scores guildId _ _ oid server Hs Hserver)
    as (server1 & Hserver1 & Hss).
  pose proof Hss as (Hd1 & _ & _ & _ & Hperm).
  destruct (findOne_perm (is_member_of dbh user) _ _ j marked Hperm Hfound Huniq)
    as [j1 Hmember1].
  rewrite <- (findOne_member_users dbh db1 user _ Hu) in Hmember1.
  rewrite <- Hu0, <- Hu in Huser. rewrite <- Hd1 in Hd.
  pose proof (check_handler_already w' db1 userId guildId user_oid oid j1 user
                server1 marked d Huser Hserver1 Hd Hne Hmember1 Hlast) as H'.
  assert (H1 : (check_handler w' db1 userId guildId).1.2 = db1).
  { rewrite H'. destruct (hasSolvedProblem w' _ _) as [[?|]|]; reflexivity. }
  destruct (check_frame w' db1 userId guildId) as [Hu' Hs']. rewrite H1 in Hu', Hs'.
  split_and!; trivial.
  - rewrite H'. destruct (hasSolvedProblem w' _ _) as [[?|]|]; discriminate.
  - symmetry. now apply total_points_same_scores.
Qed.

Lemma recheck_after_congratulation_witness :
  let db1 := (check judge_up signed_up "333" "g").2 in
  (check_handler judge_up db1 "333" "g").1.2 = db1
  /\ (check_handler judge_up db1 "333" "g").1.1 <> congratulations
  /\ users (check judge_up db1 "333" "g").2 = users db1
  /\ Forall2 same_scores (servers db1) (servers (check judge_up db1 "333" "g").2)
  /\ total_points (check judge_up db1 "333" "g").2 = total_points db1.
Proof.
  apply (recheck_after_congratulation judge_up judge_up signed_up "333" "g" signed_up_attainable).
  vm_compute. reflexivity.
Defined.

(** ** What the channel commands write *)

Section UpsertSets.
Variables (guildId : string) (new : Server.t) (f : Server.t -> Server.t).
Hypothesis new_guild : Server.guildId new = guildId.
Hypothesis f_guild : forall s, Server.guildId (f s) = Server.guildId s.

Lemma upsert_sets (db : DB) :
  users (upsert guildId new f db) = users db
  /\ exists oid s',
       findOne (by_guild guildId) (servers (upsert guildId new f db)) = Some (oid, s')
       /\ (forall k, k <> oid -> servers (upsert guildId new f db) !! k = servers db !! k)
       /\ match findOne (by_guild guildId) (servers db) with
          | Some (oid0, s) => oid0 = oid /\ s' = f s
          | None => oid = length (servers db) /\ s' = new
          end.
Proof.
  unfold upsert.
  destruct (findOne (by_guild guildId) (servers db)) as [[oid s]|] eqn:Hfind.
  - split; [reflexivity|]. exists oid, (f s).
    pose proof Hfind as [_ Hg]%findOne_lookup.
    unfold save_server, ObjectId in *. cbn [servers]. split_and!; trivial.
    + apply (findOne_saved _ _ _ s _ Hfind). unfold by_guild in *.
      now rewrite f_guild.
    + intros k Hk. now apply list_lookup_insert_ne.
  - split; [reflexivity|]. exists (length (servers db)), new.
    unfold create_server. cbn [servers]. split_and!; trivial.
    + apply findOne_created; [exact Hfind|].
      unfold by_guild. rewrite new_guild. apply String.eqb_refl.
    + intros k Hk. destruct (Nat.lt_ge_cases k (length (servers db))) as [Hlt|Hge].
      * now apply lookup_app_l.
      * transitivity (@None Server.t); [|symmetry]; apply lookup_ge_None_2;
          [rewrite length_app; cbn; lia|exact Hge].
Qed.
End UpsertSets.

(** X17: a permitted setleaderboardchannel with a text channel leaves the
    guild with one findable record whose leaderboard channel is the given
    one: the guild's record with nothing else changed, or, when the guild
    had none, a new record without daily problem and members.  No user
    record and no other guild record changes. *)
Theorem setleaderboardchannel_sets (db : DB) (channel : Channel.t) (guildId : string) :
  Channel.sendable channel = true ->
  let db' := (setleaderboardchannel db true (Some channel) guildId).2 in
  users db' = users db
  /\ exists oid s',
       findOne (by_guild guildId) (servers db') = Some (oid, s')
       /\ Server.channelId s' = Some (Channel.id channel)
       /\ (forall k, k <> oid -> servers db' !! k = servers db !! k)
       /\ match findOne (by_guild guildId) (servers db) with
          | Some (oid0, s) =>
              oid0 = oid
              /\ Server.daily s' = Server.daily s
              /\ Server.members s' = Server.members s
              /\ Server.announcementChannelId s' = Server.announcementChannelId s
              /\ Server.messageId s' = Server.messageId s
          | None =>
              oid = length (servers db)
              /\ s' = Server.mk None [] guildId (Some (Channel.id channel)) None None
          end.
Proof.
  intros Hs db'. subst db'. rewrite setleaderboardchannel_upsert.
  unfold channel_write. rewrite Hs. cbn [andb].
  destruct (upsert_sets guildId
              (Server.mk None [] guildId (Some (Channel.id channel)) None None)
              (set_channelId (Some (Channel.id channel))) eq_refl
              (fun s => eq_refl) db) as (Hu & oid & s' & Hfind & Hframe & Hcase).
  split; [exact Hu|]. exists oid, s'. split; [exact Hfind|].
  destruct (findOne (by_guild guildId) (servers db)) as [[oid0 s]|].
  - destruct Hcase as [-> ->]. split_and!; trivial.
  - destruct Hcase as [-> ->]. split_and!; trivial.
Qed.

Lemma setleaderboardchannel_sets_witness :
  let db' := (setleaderboardchannel two_guilds true (Some (Channel.mk "c9" true)) "g").2 in
  users db' = users two_guilds
  /\ exists oid s',
       findOne (by_guild "g") (servers db') = Some (oid, s')
       /\ Server.channelId s' = Some "c9"
       /\ (forall k, k <> oid -> servers db' !! k = servers two_guilds !! k)
       /\ match findOne (by_guild "g") (servers two_guilds) with
          | Some (oid0, s) =>
              oid0 = oid
              /\ Server.daily s' = Server.daily s
              /\ Server.members s' = Server.members s
              /\ Server.announcementChannelId s' = Server.announcementChannelId s
              /\ Server.messageId s' = Server.messageId s
          | None =>
              oid = length (servers two_guilds)
              /\ s' = Server.mk None [] "g" (Some "c9") None None
          end.
Proof.
  apply (setleaderboardchannel_sets two_guilds (Channel.mk "c9" true) "g").
  reflexivity.
Defined.

(** X18: the same for setannouncementchannel and the announcement
    channel. *)
Theorem setannouncementchannel_sets (db : DB) (channel : Channel.t) (guildId : string) :
  Channel.sendable channel = true ->
  let db' := (setannouncementchannel db true (Some channel) guildId).2 in
  users db' = users db
  /\ exists oid s',
       findOne (by_guild guildId) (servers db') = Some (oid, s')
       /\ Server.announcementChannelId s' = Some (Channel.id channel)
       /\ (forall k, k <> oid -> servers db' !! k = servers db !! k)
       /\ match findOne (by_guild guildId) (servers db) with
          | Some (oid0, s) =>
              oid0 = oid
              /\ Server.daily s' = Server.daily s
              /\ Server.members s' = Server.members s
              /\ Server.channelId s' = Server.channelId s
              /\ Server.messageId s' = Server.messageId s
          | None =>
              oid = length (servers db)
              /\ s' = Server.mk None [] guildId None (Some (Channel.id channel)) None
          end.
Proof.
  intros Hs db'. subst db'. rewrite setannouncementchannel_upsert.
  unfold channel_write. rewrite Hs. cbn [andb].
  destruct (upsert_sets guildId
              (Server.mk None [] guildId None (Some (Channel.id channel)) None)
              (set_announcementChannelId (Some (Channel.id channel))) eq_refl
              (fun s => eq_refl) db) as (Hu & oid & s' & Hfind & Hframe & Hcase).
  split; [exact Hu|]. exists oid, s'. split; [exact Hfind|].
  destruct (findOne (by_guild guildId) (servers db)) as [[oid0 s]|].
  - destruct Hcase as [-> ->]. split_and!; trivial.
  - destruct Hcase as [-> ->]. split_and!; trivial.
Qed.

Lemma setannouncementchannel_sets_witness :
  let db' := (setannouncementchannel two_users true (Some (Channel.mk "c9" true)) "g").2 in
  users db' = users two_users
  /\ exists oid s',
       findOne (by_guild "g") (servers db') = Some (oid, s')
       /\ Server.announcementChannelId s' = Some "c9"
       /\ (forall k, k <> oid -> servers db' !! k = servers two_users !! k)
       /\ match findOne (by_guild "g") (servers two_users) with
          | Some (oid0, s) =>
              oid0 = oid
              /\ Server.daily s' = Server.daily s
              /\ Server.members s' = Server.members s
              /\ Server.channelId s' = Server.channelId s
              /\ Server.messageId s' = Server.messageId s
          | None =>
              oid = length (servers two_users)
              /\ s' = Server.mk None [] "g" None (Some "c9") None
          end.
Proof.
  apply (setannouncementchannel_sets two_users (Channel.mk "c9" true) "g").
  reflexivity.
Defined.

Lemma channel_command_last_wins_witness :
  (setleaderboardchannel
     (setleaderboardchannel two_guilds true (Some (Channel.mk "c1" true)) "g").2
     true (Some (Channel.mk "c2" true)) "g").2
  = (setleaderboardchannel two_guilds true (Some (Channel.mk "c2" true)) "g").2
  /\ (setannouncementchannel
        (setannouncementchannel two_guilds true (Some (Channel.mk "c1" true)) "g").2
        true (Some (Channel.mk "c2" true)) "g").2
     = (setannouncementchannel two_guilds true (Some (Channel.mk "c2" true)) "g").2.
Proof.
  apply (channel_command_last_wins two_guilds "g" true (Some (Channel.mk "c1" true))
           (Channel.mk "c2" true)).
  reflexivity.
Defined.

(** ** One reply for an interaction *)

Lemma replies_app (a b : list Action) : replies (a ++ b) = (replies a ++ replies b)%list.
Proof. apply List.filter_app. Qed.

Lemma replies_published (w : World) (db : DB) (guildId : string) :
  replies (updateLeaderboard w db guildId).2 = [].
Proof.
  assert (H : forall l : list Action,
            (forall a, a ∈ l -> forall e b, a <> Reply e b) -> replies l = []).
  { induction l as [|a l IH]; intros Hl; [reflexivity|].
    cbn. destruct a as [e b| |].
    - destruct (Hl (Reply e b) (list_elem_of_here _ _) e b). reflexivity.
    - apply IH. intros a Ha. apply Hl. now apply list_elem_of_further.
    - apply IH. intros a Ha. apply Hl. now apply list_elem_of_further. }
  apply H. intros a Ha e b.
  apply updateLeaderboard_published in Ha
    as (oid & server & chan & _ & [->|[mid ->]]); discriminate.
Qed.

Lemma replies_announced (w : World) (db : DB) (guildId : string) :
  replies (announce w db guildId).2 = [].
Proof.
  unfold announce.
  destruct (findOne _ _) as [[oid server]|]; [|reflexivity].
  destruct (Server.daily server) as [d|]; [|reflexivity].
  destruct (String.eqb d ""); [reflexivity|].
  destruct (Js.truthy _); [|reflexivity].
  destruct (text_channel w _); [|reflexivity].
  destruct (channel_send w _ _); reflexivity.
Qed.

(** X24: every command answers its interaction with exactly one reply,
    whatever else it posts; the button answers once when its custom id
    starts with "done|" and not at all otherwise. *)
Theorem one_reply (w : World) (db : DB) (userId guildId customId : string)
    (manageGuild : bool) (problem_url : option string) (channel : option Channel.t) :
  length (replies (check w db userId guildId).1) = 1%nat
  /\ length (replies (setdailyproblem w db manageGuild problem_url guildId).1) = 1%nat
  /\ length (replies (setleaderboardchannel db manageGuild channel guildId).1) = 1%nat
  /\ length (replies (setannouncementchannel db manageGuild channel guildId).1) = 1%nat
  /\ length (replies (leaderboard db guildId)) = 1%nat
  /\ length (replies (button w db customId userId guildId).1)
     = (if Js.startsWith "done|" customId then 1 else 0)%nat.
Proof.
  split_and!.
  - unfold check.
    destruct (check_handler w db userId guildId) as [[embed db1] [|]]; [|reflexivity].
    pose proof (replies_published w db1 guildId) as Hp.
    destruct (updateLeaderboard w db1 guildId) as [[ok db2] published].
    cbn [fst snd] in *.
    change (replies (Reply embed true :: published))
      with (Reply embed true :: replies published).
    now rewrite Hp.
  - unfold setdailyproblem.
    destruct manageGuild; [|reflexivity]. cbn [negb].
    destruct (Js.truthy problem_url); [|reflexivity]. cbn [negb].
    destruct (Regex.exec _ _) as [m|]; [|reflexivity].
    destruct (negb (validateProblemUrl w _ _)); [reflexivity|].
    destruct (findOne (by_guild guildId) (servers db)) as [[oid server]|].
    + match goal with |- context [announce w ?d guildId] =>
        pose proof (replies_announced w d guildId) as Ha;
        destruct (announce w d guildId) as [ok sent] end.
      cbn [fst snd] in *. now rewrite replies_app, Ha.
    + match goal with |- context [announce w ?d guildId] =>
        pose proof (replies_announced w d guildId) as Ha;
        destruct (announce w d guildId) as [ok sent] end.
      cbn [fst snd] in *. now rewrite replies_app, Ha.
  - unfold setleaderboardchannel.
    destruct manageGuild; [|reflexivity]. destruct channel as [c|]; [|reflexivity].
    destruct (Channel.sendable c); reflexivity.
  - unfold setannouncementchannel.
    destruct manageGuild; [|reflexivity]. destruct channel as [c|]; [|reflexivity].
    destruct (Channel.sendable c); reflexivity.
  - unfold leaderboard.
    destruct (findOne _ _) as [[oid server]|]; [|reflexivity].
    destruct (negb _); [reflexivity|].
    destruct (Server.members server); reflexivity.
  - unfold button.
    destruct (Js.startsWith _ _); [|reflexivity].
    destruct (_ !! 2%nat); [|reflexivity].
    destruct (negb _); [reflexivity|].
    destruct (lastcfSubmission w _); [|reflexivity].
    destruct (submission_confirms _ _ _) as [[|]|]; reflexivity.
Qed.

(** ** What announce posts *)

(** X6: when announce succeeds for a guild whose daily problem id is made
    of digits, a slash and capitals or digits, it posts one message, to
    the guild's announcement channel, and the URL in it is one that the
    pattern of setdailyproblem accepts, reading the same contest id and
    index back from it. *)
Theorem announce_url_accepted (w : World) (db : DB) (guildId : string)
    (oid : ObjectId) (server : Server.t) (contestId index : string) :
  findOne (by_guild guildId) (servers db) = Some (oid, server) ->
  Server.daily server = Some (contestId ++ "/" ++ index) ->
  contestId <> "" -> all_chars Js.is_digit contestId = true ->
  index <> "" -> all_chars is_index_char index = true ->
  (announce w db guildId).1 = true ->
  exists chan url,
    (announce w db guildId).2
      = [Send chan (createEmbed (Some "Daily Problem Announcement")
                      ("New Daily Problem: " ++ url))]
    /\ Server.announcementChannelId server = Some chan
    /\ Regex.exec problem_url_regex url = Some [(2%nat, index); (1%nat, contestId)].
Proof.
  intros Hfind Hd Hc1 Hc2 Hi1 Hi2. unfold announce. rewrite Hfind, Hd.
  destruct (String.eqb _ ""); [discriminate|].
  destruct (Server.announcementChannelId server) as [chan|]; [|discriminate].
  destruct (Js.truthy (Some chan)); [|discriminate]. cbn [default from_option id].
  destruct (text_channel w chan); [|discriminate].
  destruct (channel_send w chan _); [|discriminate]. intros _.
  exists chan, (problemset_url (contestId ++ "/" ++ index)).
  split_and!; trivial. now apply problemset_url_accepted.
Qed.

Lemma announce_url_accepted_witness :
  exists chan url,
    (announce judge_up two_guilds "g").2
      = [Send chan (createEmbed (Some "Daily Problem Announcement")
                      ("New Daily Problem: " ++ url))]
    /\ Some "news" = Some chan
    /\ Regex.exec problem_url_regex url = Some [(2%nat, "A"); (1%nat, "4")].
Proof.
  apply (announce_url_accepted judge_up two_guilds "g" 1%nat
           (Server.mk (Some "4/A") [Server.mkMember 0 3 (Some "4/A")] "g"
                      (Some "board") (Some "news") (Some "m0")) "4" "A");
    (discriminate || reflexivity).
Defined.

(** ** The two leaderboard paths on a store the bot gets to *)

Lemma leaderboard_paths_agree_witness :
  exists e chan,
    (Send "board" (leaderboard_embed played played_guild) = Send chan e
     \/ exists mid, Send "board" (leaderboard_embed played played_guild) = Edit chan mid e)
    /\ leaderboard played "g" = [Reply e false].
Proof.
  apply (leaderboard_paths_agree judge_up played "g" 0%nat played_guild).
  - vm_compute. reflexivity.
  - reflexivity.
  - vm_compute. apply list_elem_of_here.
Defined.
